(** * hd-idle: the idle-detection and spindown engine of [hd-idle.c]

    A shallow embedding of [src/hd-idle.c].  The C program talks to the
    operating system all the time (clock, [/proc/diskstats], [stat], the SCSI
    generic ioctl, [malloc], the volatile flag written by the signal
    handler).  Every answer of the operating system is an explicit input of
    the model, and everything the program does to the outside world is
    recorded, in program order, in a trace of [event]s.

    Conventions.
    - [time_t], [int] and [unsigned int] values are modelled as [Z].  The
      code only compares counters for equality and subtracts time stamps
      that are seconds since the epoch, so no operation of the modelled
      blocks wraps for values in the range of the C types.
    - C strings are modelled as [string] (no embedded NUL); [strcmp(a,b)==0]
      is [String.eqb].
    - The linked lists [it_root] and [ds_root] are Rocq lists with the list
      head first; a pointer into [ds_root] is an index into the list. *)

From Stdlib Require Import ZArith Ascii List Bool Lia.
From stdpp Require Import base list strings.
Import ListNotations.
Local Open Scope Z_scope.

(** ** Data model (the two structures of the source) *)

(** [idle_time_t]: one entry of the idle-time parameter list.  [it_name =
    None] is the C [NULL] name of the default entry. *)
Record idle_time_t := mk_idle_time {
  it_name        : option string;
  it_idle_time   : Z;
  it_name_allocd : bool
}.

(** [disk_stats_t] without its [next] pointer. *)
Record disk_stats_t := mk_disk_stats {
  ds_name      : string;
  ds_idle_time : Z;
  ds_last_io   : Z;
  ds_spindown  : Z;
  ds_spinup    : Z;
  ds_reads     : Z;
  ds_writes    : Z;
  ds_spun_down : bool
}.

Definition DEFAULT_IDLE_TIME : Z := 600.
Definition INT_MAX : Z := 2147483647.
(** [CHECK_CONDITION] of [<scsi/scsi.h>] (a masked status). *)
Definition CHECK_CONDITION : Z := 1.

(** Field assignments [ds->f = v]. *)
Definition set_idle_time (v : Z) (ds : disk_stats_t) : disk_stats_t :=
  mk_disk_stats (ds_name ds) v (ds_last_io ds) (ds_spindown ds) (ds_spinup ds)
                (ds_reads ds) (ds_writes ds) (ds_spun_down ds).
Definition set_last_io (v : Z) (ds : disk_stats_t) : disk_stats_t :=
  mk_disk_stats (ds_name ds) (ds_idle_time ds) v (ds_spindown ds) (ds_spinup ds)
                (ds_reads ds) (ds_writes ds) (ds_spun_down ds).
Definition set_spindown (v : Z) (ds : disk_stats_t) : disk_stats_t :=
  mk_disk_stats (ds_name ds) (ds_idle_time ds) (ds_last_io ds) v (ds_spinup ds)
                (ds_reads ds) (ds_writes ds) (ds_spun_down ds).
Definition set_spinup (v : Z) (ds : disk_stats_t) : disk_stats_t :=
  mk_disk_stats (ds_name ds) (ds_idle_time ds) (ds_last_io ds) (ds_spindown ds) v
                (ds_reads ds) (ds_writes ds) (ds_spun_down ds).
Definition set_reads (v : Z) (ds : disk_stats_t) : disk_stats_t :=
  mk_disk_stats (ds_name ds) (ds_idle_time ds) (ds_last_io ds) (ds_spindown ds)
                (ds_spinup ds) v (ds_writes ds) (ds_spun_down ds).
Definition set_writes (v : Z) (ds : disk_stats_t) : disk_stats_t :=
  mk_disk_stats (ds_name ds) (ds_idle_time ds) (ds_last_io ds) (ds_spindown ds)
                (ds_spinup ds) (ds_reads ds) v (ds_spun_down ds).
Definition set_spun_down (v : bool) (ds : disk_stats_t) : disk_stats_t :=
  mk_disk_stats (ds_name ds) (ds_idle_time ds) (ds_last_io ds) (ds_spindown ds)
                (ds_spinup ds) (ds_reads ds) (ds_writes ds) v.
Definition set_it_idle_time (v : Z) (it : idle_time_t) : idle_time_t :=
  mk_idle_time (it_name it) v (it_name_allocd it).

(** ** Answers of the operating system *)

(** What happens to the stop-unit request inside [spindown_disk]. *)
Inductive sg_result :=
| OpenFails                                          (* open() < 0 *)
| IoctlFails                                         (* ioctl() < 0 *)
| IoctlReturns (masked_status : Z) (sense : list Z). (* ioctl() >= 0 *)

(** What [log_spinup] is told: whether [fopen(logfile, "a")] succeeds, the
    two readings of [time(NULL)] (for the date and time columns, and for the
    stopped column) and the two readings of the volatile [break_loop]. *)
Record log_os := mk_log_os {
  lg_fopen_ok   : bool;
  lg_time_stamp : Z;
  lg_time_now   : Z;
  lg_break1     : bool;
  lg_break2     : bool
}.

(** What the program is told while it handles one line of the statistics
    file that [sscanf] accepted: [time(NULL)], the outcome of
    [stat("/dev/<name>")] as (major, minor) of [st_rdev], and the answers
    for [spindown_disk] and [log_spinup] should they be called. *)
Record line_os := mk_line_os {
  os_now  : Z;
  os_stat : option (Z * Z);
  os_sg   : sg_result;
  os_log  : log_os
}.

(** One buffer returned by [fgets]: what [sscanf] made of it ([Some] when it
    returned 3: name, reads, writes) and the answers used while handling
    it. *)
Record stat_line := mk_stat_line {
  sl_sscanf : option (string * Z * Z);
  sl_os     : line_os
}.

(** ** Observable actions *)

Record log_entry := mk_log_entry {
  le_stamp   : Z;       (* the time the date and time columns are printed from *)
  le_disk    : string;
  le_running : Z;
  le_stopped : Z
}.

Inductive event :=
| DebugProbing (name : string) (reads writes : Z)   (* dprintf("probing ...") *)
| DebugSpindown (name : string)                     (* dprintf("spindown: ...") *)
| DebugUsing (s path : string)                      (* dprintf("using ...") *)
| Usage                                             (* printf("usage: ...") *)
| Perror (prefix : string)                          (* perror(prefix) *)
| Eprintf (msg : string)                            (* fprintf(stderr, msg) *)
| ScsiStatus (masked_status : Z)                    (* "error: SCSI command failed ..." *)
| Phex (sense : list Z)                             (* hex dump of the sense buffer *)
| OpenDev (name : string)                           (* open("/dev/<name>", O_RDONLY) *)
| StopUnit (name : string)                          (* ioctl(fd, SG_IO, stop unit) *)
| CloseDev (name : string)                          (* close(fd) *)
| LogLine (logfile : string) (e : log_entry)        (* the fprintf of log_spinup *)
| Sleep (seconds : Z)                               (* sleep() *)
| Sync                                              (* sync() *)
| ReadBreakLoop (v : bool)                          (* a read of volatile break_loop *)
| FopenStat (ok : bool)                             (* fopen(STAT_FILE, "r") *)
| FcloseStat                                        (* fclose(fp) of the statistics file *)
| Daemonize.                                        (* setsid, chdir, redirect to /dev/null *)

Definition dprintf (debug : Z) (e : event) : list event :=
  if debug =? 0 then [] else [e].

(** [snprintf(dev_name, sizeof(dev_name), "/dev/%s", name)] with
    [char dev_name[100]]: at most 99 characters are kept. *)
Definition dev_path (name : string) : string :=
  String.substring 0 99 ("/dev/" +:+ name).

(** ** [spindown_disk]

    The three device events carry the [name] argument; the file they act on
    is [dev_path name]. *)

Definition spindown_disk (debug : Z) (name : string) (r : sg_result) : list event :=
  dprintf debug (DebugSpindown name) ++
  OpenDev name ::
  match r with
  | OpenFails => [Perror (dev_path name)]
  | IoctlFails =>
      [StopUnit name;
       Perror (String.substring 0 99 ("ioctl on " +:+ name +:+ ":"));
       CloseDev name]
  | IoctlReturns masked_status sense =>
      StopUnit name ::
      (if masked_status =? 0 then []
       else ScsiStatus masked_status ::
            (if masked_status =? CHECK_CONDITION then [Phex sense] else [])) ++
      [CloseDev name]
  end.

(** ** [log_spinup] *)

Definition log_spinup (logfile : string) (ds : disk_stats_t) (os : log_os)
  : list event :=
  if lg_fopen_ok os then
    LogLine logfile
      (mk_log_entry (lg_time_stamp os) (ds_name ds)
                    (ds_spindown ds - ds_spinup ds)
                    (lg_time_now os - ds_spindown ds)) ::
    ReadBreakLoop (lg_break1 os) ::
    (if lg_break1 os then []
     else Sleep 1 :: ReadBreakLoop (lg_break2 os) ::
          (if lg_break2 os then [] else [Sync]))
  else [].

(** ** [is_scsi_disk] *)

Definition is_scsi_disk (name : string) (st : option (Z * Z)) : bool * list event :=
  match st with
  | None => (false, [Perror (String.substring 0 99 ("stat(" +:+ dev_path name +:+ "):"))])
  | Some (major, minor) => ((major =? 8) && (Z.rem minor 16 =? 0), [])
  end.

(** ** [get_diskstats]: the first record with the given name, as (pointer,
    pointee). *)
Fixpoint get_diskstats (ds : list disk_stats_t) (name : string)
  : option (nat * disk_stats_t) :=
  match ds with
  | [] => None
  | d :: rest =>
      if String.eqb (ds_name d) name then Some (O, d)
      else match get_diskstats rest name with
           | Some (i, d') => Some (S i, d')
           | None => None
           end
  end.

(** ** The lookup loop of lines 338-343: the idle time of the first entry
    that is the default or carries the name; [None] when the loop runs off
    the list. *)
Fixpoint find_idle_time (it : list idle_time_t) (name : string) : option Z :=
  match it with
  | [] => None
  | e :: rest =>
      match it_name e with
      | None => Some (it_idle_time e)
      | Some n => if String.eqb name n then Some (it_idle_time e)
                  else find_idle_time rest name
      end
  end.

(** ** The two branches of lines 345-368, for a disk that is already known.

    [have_logfile], [logfile] and [debug] are the locals and the global of
    the same names; [now], [reads] and [writes] are [now], [tmp.reads] and
    [tmp.writes]. *)
Definition update_disk (debug : Z) (have_logfile : bool) (logfile : string)
    (now reads writes : Z) (sg : sg_result) (lg : log_os) (ds : disk_stats_t)
  : disk_stats_t * list event :=
  if (ds_reads ds =? reads) && (ds_writes ds =? writes) then
    if negb (ds_spun_down ds) then
      (* no activity on this disk and still running *)
      if negb (ds_idle_time ds =? 0) && (ds_idle_time ds <=? now - ds_last_io ds) then
        (set_spun_down true (set_spindown now ds),
         spindown_disk debug (ds_name ds) sg)
      else (ds, [])
    else (ds, [])
  else
    (* disk had some activity *)
    let '(ds1, evs) :=
      if ds_spun_down ds then
        (set_spinup now ds,
         if have_logfile then log_spinup logfile ds lg else [])
      else (ds, []) in
    (set_spun_down false (set_last_io now (set_writes writes (set_reads reads ds1))),
     evs).

(** ** Control flow and the state of [main] *)

(** A statement either falls through to the next one or ends the process
    with a status: [Exit rc] stands for both [_return(rc)] (which frees the
    two lists and returns [rc] from [main]) and [exit(rc)]. *)
Inductive flow (A : Type) :=
| Next (a : A)
| Exit (rc : Z).
Arguments Next {A} a.
Arguments Exit {A} rc.

(** A program fragment: the events it performs, in order, and how it ends. *)
Definition prog (A : Type) : Type := (list event * flow A)%type.

Definition prog_bind {A B} (f : A -> prog B) (m : prog A) : prog B :=
  match m with
  | (evs, Next a) => let '(evs', r) := f a in (evs ++ evs', r)
  | (evs, Exit rc) => (evs, Exit rc)
  end.
#[global] Instance prog_mret : MRet prog := fun A a => ([], Next a).
#[global] Instance prog_mbind : MBind prog := @prog_bind.

Definition emit (evs : list event) : prog unit := (evs, Next tt).
Definition exit {A} (rc : Z) : prog A := ([], Exit rc).

(** The locals of [main] that outlive option parsing, the global [debug],
    and the number of allocation requests ([malloc], [strdup]) the heap can
    still satisfy.  Every failed allocation ends the process, so only the
    position of the first failure matters. *)
Record state := mk_state {
  it_root      : list idle_time_t;
  ds_root      : list disk_stats_t;
  logfile      : string;
  have_logfile : bool;
  foreground   : Z;
  debug        : Z;
  heap         : nat
}.

Definition set_it_root (v : list idle_time_t) (st : state) : state :=
  mk_state v (ds_root st) (logfile st) (have_logfile st) (foreground st)
           (debug st) (heap st).
Definition set_ds_root (v : list disk_stats_t) (st : state) : state :=
  mk_state (it_root st) v (logfile st) (have_logfile st) (foreground st)
           (debug st) (heap st).
Definition set_logfile (v : string) (st : state) : state :=
  mk_state (it_root st) (ds_root st) v true (foreground st) (debug st) (heap st).
Definition set_foreground (v : Z) (st : state) : state :=
  mk_state (it_root st) (ds_root st) (logfile st) (have_logfile st) v
           (debug st) (heap st).
Definition set_debug (v : Z) (st : state) : state :=
  mk_state (it_root st) (ds_root st) (logfile st) (have_logfile st)
           (foreground st) v (heap st).
Definition set_heap (v : nat) (st : state) : state :=
  mk_state (it_root st) (ds_root st) (logfile st) (have_logfile st)
           (foreground st) (debug st) v.

(** [malloc] and [strdup]: [None] is the C [NULL]. *)
Definition malloc (st : state) : option state :=
  match heap st with
  | O => None
  | S n => Some (set_heap n st)
  end.

(** ** One line of the statistics file (lines 309-369) *)

Definition process_line (st : state) (ln : stat_line) : prog state :=
  match sl_sscanf ln with
  | None => mret st
  | Some (name, reads, writes) =>
      let os := sl_os ln in
      let now := os_now os in
      let '(scsi, evs) := is_scsi_disk name (os_stat os) in
      emit evs;;
      if negb scsi then mret st
      else
        emit (dprintf (debug st) (DebugProbing name reads writes));;
        match get_diskstats (ds_root st) name with
        | None =>
            (* new disk; just add it to the linked list *)
            match malloc st with
            | None => emit [Eprintf "out of memory"];; exit 2
            | Some st1 =>
                (* memcpy from the zeroed tmp, then last_io and spinup *)
                let ds := mk_disk_stats name 0 now 0 now reads writes false in
                let ds := match find_idle_time (it_root st1) name with
                          | Some t => set_idle_time t ds
                          | None => ds
                          end in
                mret (set_ds_root (ds :: ds_root st1) st1)
            end
        | Some (i, ds) =>
            let '(ds', evs') :=
              update_disk (debug st) (have_logfile st) (logfile st)
                          now reads writes (os_sg os) (os_log os) ds in
            emit evs';;
            mret (set_ds_root (<[i := ds']> (ds_root st)) st)
        end
  end.

(** The [while (fgets(...) != NULL)] loop over the buffers of one read of
    the statistics file. *)
Fixpoint read_stats (st : state) (lines : list stat_line) : prog state :=
  match lines with
  | [] => mret st
  | ln :: rest => st' ← process_line st ln; read_stats st' rest
  end.

(** ** The main loop (lines 293-377) *)

(** What one iteration is told: the value of [break_loop] at line 298, the
    outcome of [fopen(STAT_FILE)] ([None] for [NULL], else the buffers that
    [fgets] will deliver), and the value of [break_loop] at line 374. *)
Record tick_os := mk_tick_os {
  tk_break1 : bool;
  tk_fopen  : option (list stat_line);
  tk_break2 : bool
}.

(** How the loop stands after the scripted iterations: left through
    [break], left through [_return(rc)], or still running (at the loop
    head, with answers for no further iteration). *)
Inductive loop_result :=
| Broke (st : state)
| Stopped (rc : Z)
| Running (st : state).

Fixpoint poll_loop (sleep_time : Z) (st : state) (ticks : list tick_os)
  : list event * loop_result :=
  match ticks with
  | [] => ([], Running st)
  | tk :: rest =>
      if tk_break1 tk then ([ReadBreakLoop true], Broke st)
      else
        match tk_fopen tk with
        | None =>
            ([ReadBreakLoop false; FopenStat false; Perror "/proc/diskstats"],
             Stopped 2)
        | Some lines =>
            match read_stats st lines with
            | (evs, Exit rc) =>
                (ReadBreakLoop false :: FopenStat true :: evs, Stopped rc)
            | (evs, Next st') =>
                if tk_break2 tk then
                  (ReadBreakLoop false :: FopenStat true :: evs ++
                   [FcloseStat; ReadBreakLoop true], Broke st')
                else
                  let '(evs', r) := poll_loop sleep_time st' rest in
                  (ReadBreakLoop false :: FopenStat true :: evs ++
                   [FcloseStat; ReadBreakLoop false; Sleep sleep_time] ++ evs', r)
            end
        end
  end.

(** ** Command line *)

(** The values [getopt(argc, argv, "t:a:i:l:fdh")] returns, one after the
    other, with [optarg] where the option takes one. *)
Inductive getopt_result :=
| opt_t (optarg : string)
| opt_a (optarg : string)
| opt_i (optarg : string)
| opt_l (optarg : string)
| opt_f
| opt_d
| opt_h
| opt_colon
| opt_question.

Inductive fork_result := ForkFails | ForkParent | ForkChild.

(** What the program is told before the main loop: how many allocation
    requests succeed, what [realpath] resolves a path to, what happens to
    the stop-unit request of [-t], and the two results of [fork]. *)
Record startup_os := mk_startup_os {
  so_heap     : nat;
  so_realpath : string -> option string;
  so_sg       : sg_result;
  so_fork1    : fork_result;
  so_fork2    : fork_result
}.

Definition isdigit (c : ascii) : bool :=
  let n := Z.of_nat (nat_of_ascii c) in (48 <=? n) && (n <=? 57).

Definition isspace (c : ascii) : bool :=
  let n := Z.of_nat (nat_of_ascii c) in ((9 <=? n) && (n <=? 13)) || (n =? 32).

(** [atoi] of the C library, for arguments whose value fits an [int]:
    leading white space, an optional sign, then decimal digits. *)
Fixpoint atoi_digits (acc : Z) (s : string) : Z :=
  match s with
  | EmptyString => acc
  | String c r =>
      if isdigit c then atoi_digits (10 * acc + (Z.of_nat (nat_of_ascii c) - 48)) r
      else acc
  end.

Fixpoint atoi (s : string) : Z :=
  match s with
  | EmptyString => 0
  | String c r =>
      if isspace c then atoi r
      else if Ascii.eqb c "-" then - atoi_digits 0 r
      else if Ascii.eqb c "+" then atoi_digits 0 r
      else atoi_digits 0 s
  end.

(** The loop of line 564: cut the trailing digits off [buf]. *)
Fixpoint strip_digits (buf : string) : string :=
  match buf with
  | EmptyString => EmptyString
  | String c r =>
      match strip_digits r with
      | EmptyString => if isdigit c then EmptyString else String c EmptyString
      | r' => String c r'
      end
  end.

(** [strrchr(buf, '/')] followed by [s++]: what follows the last slash. *)
Fixpoint after_last_slash (buf : string) : option string :=
  match buf with
  | EmptyString => None
  | String c r =>
      match after_last_slash r with
      | Some s => Some s
      | None => if Ascii.eqb c "/" then Some r else None
      end
  end.

(** [disk_name]: the name, and whether it is a fresh copy (the caller's
    [it->name != optarg]). *)
Definition disk_name (realpath : string -> option string) (st : state)
    (path : string) : prog (string * bool * state) :=
  match path with
  | String "/" _ =>
      match realpath path with
      | None =>
          emit [Perror (String.substring 0 4115 ("realpath(" +:+ path +:+ ")"))];;
          mret (path, false, st)
      | Some buf =>
          let buf := strip_digits buf in
          let s := match after_last_slash buf with
                   | Some s => s
                   | None => buf
                   end in
          match malloc st with
          | None => emit [Eprintf "out of memory"];; exit 2
          | Some st1 =>
              emit (dprintf (debug st1) (DebugUsing s path));;
              mret (s, true, st1)
          end
      end
  | _ => mret (path, false, st)   (* just a disk name without /dev prefix *)
  end.

(** The body of the [switch] for one option.  In the source the assignment
    of [-i] goes through the pointer [it]; [it] and [it_root] are assigned
    together (lines 194-202 and 216-224), so [it] is the head of the
    list whenever an option is handled. *)
Definition process_option (os : startup_os) (st : state) (opt : getopt_result)
  : prog state :=
  match opt with
  | opt_t optarg =>
      (* just spin-down the specified disk and exit *)
      emit (spindown_disk (debug st) optarg (so_sg os));;
      exit 0
  | opt_a optarg =>
      (* add a new set of idle-time parameters for this particular disk *)
      match malloc st with
      | None => emit [Eprintf "out of memory"];; exit 2
      | Some st1 =>
          '(name, allocd, st2) ← disk_name (so_realpath os) st1 optarg;
          mret (set_it_root
                  (mk_idle_time (Some name) DEFAULT_IDLE_TIME allocd :: it_root st2)
                  st2)
      end
  | opt_i optarg =>
      (* set idle-time parameters for current (or default) disk *)
      match it_root st with
      | it :: rest => mret (set_it_root (set_it_idle_time (atoi optarg) it :: rest) st)
      | [] => mret st
      end
  | opt_l optarg => mret (set_logfile optarg st)
  | opt_f => mret (set_foreground (foreground st + 1) st)
  | opt_d => mret (set_debug (debug st + 1) st)
  | opt_h => emit [Usage];; exit 0
  | opt_colon => emit [Eprintf "error: option requires an argument"];; exit 1
  | opt_question => emit [Eprintf "error: unknown option"];; exit 1
  end.

(** The [while ((opt = getopt(...)) != -1)] loop. *)
Fixpoint process_options (os : startup_os) (st : state) (argv : list getopt_result)
  : prog state :=
  match argv with
  | [] => mret st
  | opt :: rest => st' ← process_option os st opt; process_options os st' rest
  end.

(** Lines 262-271: the sleep time. *)
Fixpoint min_idle_time (it : list idle_time_t) (acc : Z) : Z :=
  match it with
  | [] => acc
  | e :: rest =>
      min_idle_time rest
        (if negb (it_idle_time e =? 0) && (it_idle_time e <? acc)
         then it_idle_time e else acc)
  end.

Definition sleep_time (it : list idle_time_t) : Z :=
  let q := Z.quot (min_idle_time it INT_MAX) 10 in
  if q =? 0 then 1 else q.

(** [daemonize], followed in the process that goes on to run the loop. *)
Definition daemonize (os : startup_os) : prog unit :=
  match so_fork1 os with
  | ForkFails => emit [Perror "couldn't fork"];; exit 2
  | ForkParent => exit 0
  | ForkChild =>
      match so_fork2 os with
      | ForkFails => emit [Perror "couldn't fork #2"];; exit 2
      | ForkParent => exit 0
      | ForkChild => emit [Daemonize]
      end
  end.

(** The state after lines 176-202 when the first [malloc] succeeded. *)
Definition initial_state (heap : nat) : state :=
  mk_state [mk_idle_time None DEFAULT_IDLE_TIME false] [] "/dev/null" false 0 0 heap.

(** Everything before the main loop. *)
Definition startup (os : startup_os) (argv : list getopt_result) : prog state :=
  match so_heap os with
  | O => emit [Eprintf "out of memory"];; exit 1
  | S n =>
      st ← process_options os (initial_state n) argv;
      (if (debug st =? 0) && (foreground st =? 0) then daemonize os else mret tt);;
      mret st
  end.

(** ** [main]: the events of a run and the exit status, [None] while the
    loop is still running after the scripted iterations. *)
Definition main (os : startup_os) (argv : list getopt_result) (ticks : list tick_os)
  : list event * option Z :=
  match startup os argv with
  | (evs, Exit rc) => (evs, Some rc)
  | (evs, Next st) =>
      match poll_loop (sleep_time (it_root st)) st ticks with
      | (evs', Broke _) => (evs ++ evs', Some 0)
      | (evs', Stopped rc) => (evs ++ evs', Some rc)
      | (evs', Running _) => (evs ++ evs', None)
      end
  end.

(** ** Notions used to state the properties *)

(** What one disk record is shown at one tick: the counters [sscanf] read
    for it and the answers of the operating system. *)
Record observation := mk_observation {
  ob_reads  : Z;
  ob_writes : Z;
  ob_os     : line_os
}.

Definition ob_now (o : observation) : Z := os_now (ob_os o).

(** The counters of the observation are those stored in the record. *)
Definition unchanged (ds : disk_stats_t) (o : observation) : Prop :=
  ds_reads ds = ob_reads o /\ ds_writes ds = ob_writes o.

(** The idle period of the record has run out at the time of the
    observation (line 348, second half). *)
Definition due (ds : disk_stats_t) (o : observation) : Prop :=
  ds_idle_time ds <= ob_now o - ds_last_io ds.

(** The log lines among some events. *)
Definition log_lines (evs : list event) : list event :=
  List.filter (fun e => match e with LogLine _ _ => true | _ => false end) evs.

(** The calls of [spindown_disk] among some events: each call opens the
    device exactly once, whatever becomes of the request. *)
Definition spindown_calls (evs : list event) : list event :=
  List.filter (fun e => match e with OpenDev _ => true | _ => false end) evs.

(** The disk an event of [spindown_disk] is about. *)
Definition device_of (e : event) : option string :=
  match e with
  | OpenDev name | StopUnit name | CloseDev name => Some name
  | _ => None
  end.

(** Spindown is switched off for the name: the idle-time list resolves it
    to 0 and every record of that name carries 0. *)
Definition disabled (name : string) (st : state) : Prop :=
  find_idle_time (it_root st) name = Some 0 /\
  Forall (fun d => ds_name d = name -> ds_idle_time d = 0) (ds_root st).

(** Messages on the error stream. *)
Definition is_stderr (e : event) : bool :=
  match e with
  | Perror _ | Eprintf _ | ScsiStatus _ | Phex _ => true
  | _ => false
  end.

(** The stop-unit request did not succeed. *)
Definition sg_failed (r : sg_result) : bool :=
  match r with
  | OpenFails | IoctlFails => true
  | IoctlReturns masked_status _ => negb (masked_status =? 0)
  end.

(** Whether the statistics file is open after some events, given whether it
    was open before. *)
Fixpoint stat_open (open : bool) (evs : list event) : bool :=
  match evs with
  | [] => open
  | FopenStat ok :: rest => stat_open ok rest
  | FcloseStat :: rest => stat_open false rest
  | _ :: rest => stat_open open rest
  end.

(** The log entry the specification describes for a spin-up seen at the
    tick of observation [o]: running for spindown - spinup, stopped for
    now - spindown with the [now] of the tick (any date and time columns). *)
Definition spec_log_entry (logfile : string) (ds : disk_stats_t) (o : observation)
    (evs : list event) : Prop :=
  exists stamp,
    log_lines evs =
      [LogLine logfile
         (mk_log_entry stamp (ds_name ds) (ds_spindown ds - ds_spinup ds)
                       (ob_now o - ds_spindown ds))].

(** Opening and closing the statistics file. *)
Definition is_stat_file_event (e : event) : bool :=
  match e with
  | FopenStat _ | FcloseStat => true
  | _ => false
  end.

(** Neither checkpoint of the iteration sees the flag. *)
Definition flags_clear (tk : tick_os) : Prop :=
  tk_break1 tk = false /\ tk_break2 tk = false.

Definition is_opt_a (o : getopt_result) : bool :=
  match o with opt_a _ => true | _ => false end.

(** The rule's pattern is the name. *)
Definition pattern_is (name : string) (e : idle_time_t) : bool :=
  match it_name e with
  | Some n => String.eqb name n
  | None => false
  end.

(** The nonzero idle times of an idle-time list. *)
Definition nonzero_idle_times (it : list idle_time_t) : list Z :=
  List.filter (fun t => negb (t =? 0)) (map it_idle_time it).

(** The formula of the specification for the poll interval, in its words:
    the smallest nonzero timeout, divided by ten, but at least one; there
    is no value when no timeout is nonzero. *)
Definition spec_poll_interval (timeouts : list Z) : option Z :=
  match List.filter (fun t => negb (t =? 0)) timeouts with
  | [] => None
  | t :: ts => Some (Z.max 1 (Z.quot (fold_right Z.min t ts) 10))
  end.

(** The record after the spindown branch. *)
Definition marked_spun_down (now : Z) (ds : disk_stats_t) : disk_stats_t :=
  set_spun_down true (set_spindown now ds).

(** The record after the activity branch, for a disk that was stopped or
    not. *)
Definition after_activity (o : observation) (ds : disk_stats_t) : disk_stats_t :=
  mk_disk_stats (ds_name ds) (ds_idle_time ds) (ob_now o) (ds_spindown ds)
                (if ds_spun_down ds then ob_now o else ds_spinup ds)
                (ob_reads o) (ob_writes o) false.

(** The record the registry holds for a name. *)
Definition record_of (name : string) (st : state) : option disk_stats_t :=
  snd <$> get_diskstats (ds_root st) name.

(** What a line of the statistics file shows the record of [name]: an
    observation when [sscanf] read that name and [is_scsi_disk] accepts the
    device, nothing otherwise. *)
Definition line_for (name : string) (ln : stat_line) : option observation :=
  match sl_sscanf ln with
  | Some (n, reads, writes) =>
      if String.eqb n name && fst (is_scsi_disk n (os_stat (sl_os ln)))
      then Some (mk_observation reads writes (sl_os ln))
      else None
  | None => None
  end.

(** The observations of [name] in the buffers of one read of the file. *)
Definition observations (name : string) (lines : list stat_line) : list observation :=
  omap (line_for name) lines.

(** The buffers the main loop reads in the scripted iterations, up to the
    iteration that leaves the loop. *)
Fixpoint lines_read (ticks : list tick_os) : list stat_line :=
  match ticks with
  | [] => []
  | tk :: rest =>
      if tk_break1 tk then []
      else match tk_fopen tk with
           | None => []
           | Some lines => lines ++ (if tk_break2 tk then [] else lines_read rest)
           end
  end.

(** The calls of [spindown_disk] for [name] among some events. *)
Definition spindown_calls_for (name : string) (evs : list event) : list event :=
  List.filter (fun e => match e with OpenDev n => String.eqb n name | _ => false end) evs.

(** The disk a log line is about. *)
Definition logged_disk (e : event) : option string :=
  match e with
  | LogLine _ le => Some (le_disk le)
  | _ => None
  end.

(** The log lines about [name] among some events. *)
Definition log_lines_for (name : string) (evs : list event) : list event :=
  List.filter (fun e => match e with
                        | LogLine _ le => String.eqb (le_disk le) name
                        | _ => false
                        end) evs.

Section Disk.
(** The configuration one record is updated under. *)
Variables (debug : Z) (have_logfile : bool) (logfile : string).

(** Lines 345-368 for one observation. *)
Definition tick (ds : disk_stats_t) (o : observation) : disk_stats_t * list event :=
  update_disk debug have_logfile logfile (ob_now o) (ob_reads o) (ob_writes o)
              (os_sg (ob_os o)) (os_log (ob_os o)) ds.

(** A sequence of ticks: the final record and the events of each tick. *)
Fixpoint run_ticks (ds : disk_stats_t) (obs : list observation)
  : disk_stats_t * list (list event) :=
  match obs with
  | [] => (ds, [])
  | o :: rest =>
      let '(ds', evs) := tick ds o in
      let '(ds'', evss) := run_ticks ds' rest in
      (ds'', evs :: evss)
  end.
End Disk.

(** ** [phex] (lines 587-622)

    The text [phex] prints, as a list of characters.  [fmt] is the header;
    it is printed as it stands (the one call, in [spindown_disk], passes
    "sense buffer:" and a newline, without conversions).  [buf] holds the
    [len] bytes to dump.  [pos] is an [int] that is never negative and a
    byte is an [unsigned char], so [%08x] and [%02x] print exactly eight
    and two digits. *)









(** ** The clean-up at [out:] (lines 379-396): the number of calls of
    [free], one for every name that is a copy, one for every idle-time
    entry and one for every disk record. *)
Definition cleanup_frees (st : state) : nat :=
  (length (List.filter it_name_allocd (it_root st)) + length (it_root st) +
   length (ds_root st))%nat.

(** ** Further notions used to state properties *)

Definition is_opt_d (o : getopt_result) : bool :=
  match o with opt_d => true | _ => false end.
Definition is_opt_f (o : getopt_result) : bool :=
  match o with opt_f => true | _ => false end.
Definition is_opt_l (o : getopt_result) : bool :=
  match o with opt_l _ => true | _ => false end.


(** The log file after some options: that of the last [-l]. *)
Definition logfile_after (f : string) (opts : list getopt_result) : string :=
  fold_left (fun f o => match o with opt_l optarg => optarg | _ => f end) opts f.

(** A record that is marked as spun down has a nonzero idle time and was
    stopped no earlier than that time after its last I/O. *)
Definition spun_down_ok (ds : disk_stats_t) : Prop :=
  ds_spun_down ds = true ->
  ds_idle_time ds <> 0 /\ ds_idle_time ds <= ds_spindown ds - ds_last_io ds.

(** Writing to the log file and the [sync] after it. *)
Definition is_log_event (e : event) : bool :=
  match e with
  | LogLine _ _ | Sync => true
  | _ => false
  end.



(** The last character of a string is a decimal digit. *)
Fixpoint ends_with_digit (s : string) : bool :=
  match s with
  | EmptyString => false
  | String c EmptyString => isdigit c
  | String _ r => ends_with_digit r
  end.

Fixpoint all_digits (s : string) : bool :=
  match s with
  | EmptyString => true
  | String c r => isdigit c && all_digits r
  end.

Fixpoint has_slash (s : string) : bool :=
  match s with
  | EmptyString => false
  | String c r => Ascii.eqb c "/" || has_slash r
  end.

(** ** Sample data for the concrete runs *)


Definition quiet_log : log_os := mk_log_os true 0 0 false false.

(** A running disk "sdb" with idle time 30 whose last I/O was seen at
    time 100, and the same disk with idle time 0. *)
Definition sdb : disk_stats_t := mk_disk_stats "sdb" 30 100 0 100 7 9 false.
Definition sdb_off : disk_stats_t := mk_disk_stats "sdb" 0 100 0 100 7 9 false.

(** The statistics of "sdb" at some time: the given counters, a whole SCSI
    disk, a stop-unit request that would succeed. *)
Definition sdb_at (now reads writes : Z) : observation :=
  mk_observation reads writes (mk_line_os now (Some (8, 16)) (IoctlReturns 0 []) quiet_log).

Definition line_of (name : string) (o : observation) : stat_line :=
  mk_stat_line (Some (name, ob_reads o, ob_writes o)) (ob_os o).

(** "sdb" stopped at time 130 after running since time 100. *)
Definition sdb_stopped : disk_stats_t := mk_disk_stats "sdb" 30 100 130 100 7 9 true.

(** New counters for "sdb" at time 200 while the log file cannot be
    opened, and while it can but the clock reads 203 inside [log_spinup]. *)
Definition sdb_wakes_no_log : observation :=
  mk_observation 8 9
    (mk_line_os 200 (Some (8, 16)) (IoctlReturns 0 []) (mk_log_os false 200 200 false false)).
Definition sdb_wakes_late_clock : observation :=
  mk_observation 8 9
    (mk_line_os 200 (Some (8, 16)) (IoctlReturns 0 []) (mk_log_os true 203 203 false false)).

(** The idle period of "sdb" has run out at time 130 but the device cannot
    be opened. *)
Definition sdb_open_fails : observation :=
  mk_observation 7 9 (mk_line_os 130 (Some (8, 16)) OpenFails quiet_log).

(** The state of a foreground run that has seen "sdb" (and only it). *)
Definition registry_sdb : state :=
  mk_state [mk_idle_time None 30 false] [sdb] "/dev/null" false 1 0 5.

(** The state of a foreground run with a log file that has seen "sdb" and
    stopped it. *)
Definition registry_sdb_stopped : state :=
  mk_state [mk_idle_time None 30 false] [sdb_stopped] "/var/log/hd-idle" true 1 0 5.

(** New counters for "sdb" at time 200, while a signal arrives before
    [log_spinup] reads the flag. *)
Definition sdb_wakes_signal : observation :=
  mk_observation 8 9
    (mk_line_os 200 (Some (8, 16)) (IoctlReturns 0 []) (mk_log_os true 200 200 true true)).

(** A system with room for ten allocations where nothing is a symlink. *)
Definition plain_os : startup_os :=
  mk_startup_os 10 (fun _ => None) (IoctlReturns 0 []) ForkChild ForkChild.

(** Two iterations that show the disks "sda" and "sdb", at times 100 and
    160, with the same counters. *)
Definition two_disks_twice : list tick_os :=
  [mk_tick_os false (Some [line_of "sda" (sdb_at 100 1 2);
                           line_of "sdb" (sdb_at 100 7 9)]) false;
   mk_tick_os false (Some [line_of "sda" (sdb_at 160 1 2);
                           line_of "sdb" (sdb_at 160 7 9)]) false].

(** * Properties *)

(** ** One disk record (lines 345-368) *)

Section DiskFacts.
Variables (debug : Z) (have_logfile : bool) (logfile : string).

Local Abbreviation tick := (tick debug have_logfile logfile).
Local Abbreviation run_ticks := (run_ticks debug have_logfile logfile).

Lemma tick_unchanged ds o :
  unchanged ds o ->
  tick ds o =
    if negb (ds_spun_down ds) && negb (ds_idle_time ds =? 0)
       && (ds_idle_time ds <=? ob_now o - ds_last_io ds)
    then (marked_spun_down (ob_now o) ds,
          spindown_disk debug (ds_name ds) (os_sg (ob_os o)))
    else (ds, []).
Proof.
  intros [Hr Hw]. unfold tick, update_disk.
  rewrite Hr, Hw, !Z.eqb_refl. simpl.
  destruct (ds_spun_down ds); simpl; [reflexivity |].
  destruct (ds_idle_time ds =? 0); reflexivity.
Qed.

Lemma tick_changed ds o :
  ~ unchanged ds o ->
  tick ds o =
    (after_activity o ds,
     if ds_spun_down ds && have_logfile
     then log_spinup logfile ds (os_log (ob_os o)) else []).
Proof.
  intros Hch. unfold tick, update_disk.
  destruct ((ds_reads ds =? ob_reads o) && (ds_writes ds =? ob_writes o)) eqn:E.
  - exfalso. apply Hch. apply andb_true_iff in E as [E1 E2].
    split; [apply Z.eqb_eq, E1 | apply Z.eqb_eq, E2].
  - destruct ds as [n it lio sd su r w []]; simpl; reflexivity.
Qed.

Lemma tick_not_due ds o :
  unchanged ds o -> ~ due ds o -> tick ds o = (ds, []).
Proof.
  intros Hu Hd. rewrite tick_unchanged by assumption.
  unfold due in Hd.
  destruct (Z.leb_spec (ds_idle_time ds) (ob_now o - ds_last_io ds)); [lia |].
  rewrite andb_false_r. reflexivity.
Qed.

Lemma tick_spun_down ds o :
  unchanged ds o -> ds_spun_down ds = true -> tick ds o = (ds, []).
Proof.
  intros Hu Hs. rewrite tick_unchanged by assumption. rewrite Hs. reflexivity.
Qed.

Lemma tick_disabled ds o :
  ds_idle_time ds = 0 -> unchanged ds o -> tick ds o = (ds, []).
Proof.
  intros H0 Hu. rewrite tick_unchanged by assumption. rewrite H0. simpl.
  rewrite andb_false_r. reflexivity.
Qed.

Lemma tick_due ds o :
  unchanged ds o -> ds_spun_down ds = false -> ds_idle_time ds <> 0 -> due ds o ->
  tick ds o = (marked_spun_down (ob_now o) ds,
               spindown_disk debug (ds_name ds) (os_sg (ob_os o))).
Proof.
  intros Hu Hs Hn Hd. rewrite tick_unchanged by assumption. rewrite Hs.
  unfold due in Hd.
  destruct (Z.eqb_spec (ds_idle_time ds) 0); [contradiction |].
  destruct (Z.leb_spec (ds_idle_time ds) (ob_now o - ds_last_io ds)); [| lia].
  reflexivity.
Qed.

(** Ticks that leave the record alone can be skipped. *)
Lemma run_ticks_silent (P : observation -> Prop) ds obs :
  (forall o, P o -> tick ds o = (ds, [])) ->
  Forall P obs ->
  run_ticks ds obs = (ds, repeat [] (length obs)).
Proof.
  intros Hstep Hall. induction Hall as [| o rest Ho _ IH]; [reflexivity |].
  simpl. rewrite (Hstep o Ho), IH. reflexivity.
Qed.

Lemma run_ticks_app ds obs1 obs2 :
  run_ticks ds (obs1 ++ obs2) =
    let '(ds1, evss1) := run_ticks ds obs1 in
    let '(ds2, evss2) := run_ticks ds1 obs2 in
    (ds2, evss1 ++ evss2).
Proof.
  revert ds. induction obs1 as [| o rest IH]; intros ds; simpl.
  - destruct (run_ticks ds obs2). reflexivity.
  - destruct (tick ds o) as [ds' evs]. rewrite IH.
    destruct (run_ticks ds' rest) as [ds1 evss1].
    destruct (run_ticks ds1 obs2). reflexivity.
Qed.

Lemma concat_repeat_nil {A} (n : nat) : concat (repeat (@nil A) n) = [].
Proof. induction n as [| n IH]; [reflexivity | exact IH]. Qed.

Lemma spindown_calls_spindown_disk name r :
  spindown_calls (spindown_disk debug name r) = [OpenDev name].
Proof.
  unfold spindown_disk, dprintf, spindown_calls.
  rewrite List.filter_app.
  destruct (debug =? 0); destruct r as [| | ms sense]; simpl; try reflexivity;
    rewrite List.filter_app;
    destruct (ms =? 0); simpl; try reflexivity;
    destruct (ms =? CHECK_CONDITION); reflexivity.
Qed.

(** An idle episode of a running disk: nothing happens before the idle
    period has run out. *)
Lemma run_ticks_before_due ds obs :
  Forall (unchanged ds) obs ->
  Forall (fun o => ~ due ds o) obs ->
  run_ticks ds obs = (ds, repeat [] (length obs)).
Proof.
  intros Hall Hnot.
  apply run_ticks_silent with (P := fun o => unchanged ds o /\ ~ due ds o).
  - intros o [Hu Hd]. apply tick_not_due; assumption.
  - apply Forall_and; split; assumption.
Qed.

(** A disk that is spun down is left alone while its counters stay. *)
Lemma run_ticks_spun_down ds obs :
  Forall (unchanged ds) obs ->
  ds_spun_down ds = true ->
  run_ticks ds obs = (ds, repeat [] (length obs)).
Proof.
  intros Hall Hdown.
  apply run_ticks_silent with (P := unchanged ds); [| assumption].
  intros o Hu. apply tick_spun_down; assumption.
Qed.

(** The whole episode: silent ticks, the spindown at the first due tick,
    silent ticks. *)
Lemma run_ticks_first_due ds pre o post :
  ds_idle_time ds <> 0 ->
  ds_spun_down ds = false ->
  Forall (unchanged ds) (pre ++ o :: post) ->
  Forall (fun o' => ~ due ds o') pre ->
  due ds o ->
  run_ticks ds (pre ++ o :: post) =
    (marked_spun_down (ob_now o) ds,
     repeat [] (length pre) ++
     spindown_disk debug (ds_name ds) (os_sg (ob_os o)) ::
     repeat [] (length post)).
Proof.
  intros HT Hrun Hall Hpre Hdue.
  apply Forall_app in Hall as [Hupre Hrest].
  apply Forall_cons in Hrest as [Huo Hupost].
  rewrite run_ticks_app, run_ticks_before_due by assumption.
  simpl. rewrite tick_due by assumption.
  rewrite run_ticks_spun_down; [reflexivity | exact Hupost | reflexivity].
Qed.

Lemma spindown_calls_episode (n m : nat) evs :
  spindown_calls (concat (repeat [] n ++ evs :: repeat [] m)) = spindown_calls evs.
Proof.
  rewrite concat_app. simpl. rewrite !concat_repeat_nil. simpl.
  rewrite app_nil_r. reflexivity.
Qed.
End DiskFacts.



(** ** The registry: [process_line], [read_stats], [poll_loop] *)

Lemma get_diskstats_Some l name i d :
  get_diskstats l name = Some (i, d) ->
  l !! i = Some d /\ ds_name d = name.
Proof.
  revert i. induction l as [| d0 l IH]; intros i H; simpl in H; [discriminate |].
  destruct (String.eqb_spec (ds_name d0) name) as [E | E].
  - injection H as <- <-. split; [reflexivity | exact E].
  - destruct (get_diskstats l name) as [[j d'] |]; [| discriminate].
    injection H as <- <-. simpl. apply IH. reflexivity.
Qed.

Lemma get_diskstats_None l name :
  get_diskstats l name = None -> Forall (fun d => ds_name d <> name) l.
Proof.
  induction l as [| d0 l IH]; intros H; simpl in H; [constructor |].
  destruct (String.eqb_spec (ds_name d0) name) as [E | E]; [discriminate |].
  destruct (get_diskstats l name) as [[j d'] |]; [discriminate |].
  constructor; [exact E | apply IH; reflexivity].
Qed.

Lemma update_disk_name dbg hl lf now r w sg lg ds :
  ds_name (fst (update_disk dbg hl lf now r w sg lg ds)) = ds_name ds.
Proof.
  unfold update_disk.
  repeat match goal with |- context [if ?c then _ else _] => destruct c end;
    reflexivity.
Qed.

Lemma update_disk_idle_time dbg hl lf now r w sg lg ds :
  ds_idle_time (fst (update_disk dbg hl lf now r w sg lg ds)) = ds_idle_time ds.
Proof.
  unfold update_disk.
  repeat match goal with |- context [if ?c then _ else _] => destruct c end;
    reflexivity.
Qed.

(** Case analysis on membership in an explicit list of events. *)
Ltac elem_cases H :=
  repeat first
    [ apply elem_of_nil in H; contradiction
    | apply elem_of_cons in H as [-> | H]
    | apply elem_of_app in H as [H | H] ].

(** The same, keeping the equations (for membership of a given event). *)
Ltac elem_inv H :=
  repeat first
    [ apply elem_of_nil in H; contradiction
    | apply elem_of_cons in H as [? | H]
    | apply elem_of_app in H as [H | H] ].

Lemma spindown_disk_device dbg name r e :
  e ∈ spindown_disk dbg name r -> device_of e = None \/ device_of e = Some name.
Proof.
  unfold spindown_disk, dprintf. intros H.
  repeat match type of H with
         | context [if ?c then _ else _] => destruct c
         | context [match ?x with OpenFails => _ | _ => _ end] => destruct x
         end;
    simpl in H; elem_cases H; simpl; auto.
Qed.

Lemma log_spinup_device lf ds lg e :
  e ∈ log_spinup lf ds lg -> device_of e = None.
Proof.
  unfold log_spinup. intros H.
  repeat match type of H with context [if ?c then _ else _] => destruct c end;
    elem_cases H; reflexivity.
Qed.

(** The only device events of an update are those of a spindown of the
    record's own disk, and there are none when its idle time is 0. *)
Lemma update_disk_device dbg hl lf now r w sg lg ds e :
  e ∈ snd (update_disk dbg hl lf now r w sg lg ds) ->
  device_of e = None \/ (device_of e = Some (ds_name ds) /\ ds_idle_time ds <> 0).
Proof.
  unfold update_disk. intros H.
  destruct ((ds_reads ds =? r) && (ds_writes ds =? w)).
  - destruct (ds_spun_down ds); simpl in H; [elem_cases H |].
    destruct (Z.eqb_spec (ds_idle_time ds) 0) as [E | E]; simpl in H; [elem_cases H |].
    destruct (ds_idle_time ds <=? now - ds_last_io ds); simpl in H; [| elem_cases H].
    apply spindown_disk_device in H as [H | H]; [left | right]; auto.
  - destruct (ds_spun_down ds); simpl in H; [| elem_cases H].
    destruct hl; [| elem_cases H].
    left. eapply log_spinup_device. exact H.
Qed.

(** [process_line] with the sequencing spelled out. *)
Lemma process_line_unfold st ln :
  process_line st ln =
    match sl_sscanf ln with
    | None => ([], Next st)
    | Some (name, reads, writes) =>
        let os := sl_os ln in
        let probing := dprintf (debug st) (DebugProbing name reads writes) in
        if fst (is_scsi_disk name (os_stat os)) then
          match get_diskstats (ds_root st) name with
          | Some (i, ds) =>
              let r := update_disk (debug st) (have_logfile st) (logfile st)
                         (os_now os) reads writes (os_sg os) (os_log os) ds in
              (probing ++ snd r, Next (set_ds_root (<[i := fst r]> (ds_root st)) st))
          | None =>
              match malloc st with
              | None => (probing ++ [Eprintf "out of memory"], Exit 2)
              | Some st1 =>
                  let ds := mk_disk_stats name 0 (os_now os) 0 (os_now os)
                                          reads writes false in
                  let ds := match find_idle_time (it_root st1) name with
                            | Some t => set_idle_time t ds
                            | None => ds
                            end in
                  (probing, Next (set_ds_root (ds :: ds_root st1) st1))
              end
          end
        else (snd (is_scsi_disk name (os_stat os)), Next st)
    end.
Proof.
  unfold process_line, is_scsi_disk.
  destruct (sl_sscanf ln) as [[[name reads] writes] |]; [| reflexivity].
  destruct (os_stat (sl_os ln)) as [[major minor] |]; simpl.
  - destruct ((major =? 8) && (Z.rem minor 16 =? 0)); simpl; [| reflexivity].
    destruct (get_diskstats (ds_root st) name) as [[i ds] |].
    + destruct (update_disk _ _ _ _ _ _ _ _ ds) as [ds' evs']. simpl.
      rewrite app_nil_r. reflexivity.
    + destruct (malloc st) as [st1 |]; simpl; rewrite ?app_nil_r; reflexivity.
  - reflexivity.
Qed.

Lemma malloc_fields st st1 :
  malloc st = Some st1 ->
  it_root st1 = it_root st /\ ds_root st1 = ds_root st /\
  logfile st1 = logfile st /\ have_logfile st1 = have_logfile st /\
  foreground st1 = foreground st /\ debug st1 = debug st /\
  heap st = S (heap st1).
Proof.
  unfold malloc. destruct (heap st) eqn:E; [discriminate |].
  intros [= <-]. simpl. repeat split. 
Qed.

Lemma dprintf_device dbg e0 e :
  device_of e0 = None -> e ∈ dprintf dbg e0 -> device_of e = None.
Proof.
  unfold dprintf. intros H0 H. destruct (dbg =? 0); elem_cases H. exact H0.
Qed.

Lemma is_scsi_disk_device name st e :
  e ∈ snd (is_scsi_disk name st) -> device_of e = None.
Proof.
  unfold is_scsi_disk. intros H. destruct st as [[major minor] |]; simpl in H;
    elem_cases H. reflexivity.
Qed.

(** One line keeps a disabled name disabled and performs no device event
    for it. *)
Lemma process_line_disabled name st ln :
  disabled name st ->
  (forall e, e ∈ fst (process_line st ln) -> device_of e <> Some name) /\
  (forall st', snd (process_line st ln) = Next st' -> disabled name st').
Proof.
  intros [Hit Hds]. rewrite process_line_unfold.
  destruct (sl_sscanf ln) as [[[n reads] writes] |]; simpl.
  2:{ split; [intros e H; elem_cases H | intros st' [= <-]; split; assumption]. }
  destruct (fst (is_scsi_disk n (os_stat (sl_os ln)))).
  2:{ split.
      - intros e H. simpl in H. apply is_scsi_disk_device in H. congruence.
      - intros st' [= <-]. split; assumption. }
  destruct (get_diskstats (ds_root st) n) as [[i ds] |] eqn:Eget.
  - apply get_diskstats_Some in Eget as [Hi Hn]. simpl. split.
    + intros e H. apply elem_of_app in H as [H | H].
      * apply dprintf_device in H; [congruence | reflexivity].
      * apply update_disk_device in H as [H | [H Hnz]]; [congruence |].
        rewrite H. intros [= Heq]. apply Hnz.
        rewrite Forall_lookup in Hds. exact (Hds i ds Hi Heq).
    + intros st' [= <-]. split; [exact Hit |]. simpl.
      apply Forall_insert; [exact Hds |].
      rewrite update_disk_name, update_disk_idle_time.
      rewrite Forall_lookup in Hds. exact (Hds i ds Hi).
  - destruct (malloc st) as [st1 |] eqn:Em; simpl.
    + apply malloc_fields in Em as (Eit & Eds & _). split.
      * intros e H. apply dprintf_device in H; [congruence | reflexivity].
      * intros st' [= <-]. split; simpl; [rewrite Eit; exact Hit |].
        rewrite Eit, Eds. constructor; [| exact Hds].
        intros Hname.
        destruct (find_idle_time (it_root st) n) as [t |] eqn:Ef;
          simpl in Hname; subst n; [| congruence].
        simpl. congruence.
    + split; [| discriminate].
      intros e H. apply elem_of_app in H as [H | H].
      * apply dprintf_device in H; [congruence | reflexivity].
      * elem_cases H. discriminate.
Qed.

Lemma read_stats_cons st ln rest :
  read_stats st (ln :: rest) =
    match process_line st ln with
    | (evs, Next st') =>
        (evs ++ fst (read_stats st' rest), snd (read_stats st' rest))
    | (evs, Exit rc) => (evs, Exit rc)
    end.
Proof.
  simpl. destruct (process_line st ln) as [evs [st' | rc]]; simpl; [| reflexivity].
  destruct (read_stats st' rest). reflexivity.
Qed.

Lemma read_stats_disabled name lines : forall st,
  disabled name st ->
  (forall e, e ∈ fst (read_stats st lines) -> device_of e <> Some name) /\
  (forall st', snd (read_stats st lines) = Next st' -> disabled name st').
Proof.
  induction lines as [| ln rest IH]; intros st Hst.
  - simpl. split; [intros e H; elem_cases H | intros st' [= <-]; exact Hst].
  - rewrite read_stats_cons.
    destruct (process_line_disabled name st ln Hst) as [Hev Hnext].
    destruct (process_line st ln) as [evs [st1 | rc]]; simpl in *.
    + destruct (IH st1 (Hnext st1 eq_refl)) as [Hev' Hnext']. split.
      * intros e H. apply elem_of_app in H as [H | H]; auto.
      * exact Hnext'.
    + split; [exact Hev | discriminate].
Qed.

Lemma poll_loop_cons sleep st tk rest :
  poll_loop sleep st (tk :: rest) =
    if tk_break1 tk then ([ReadBreakLoop true], Broke st)
    else
      match tk_fopen tk with
      | None =>
          ([ReadBreakLoop false; FopenStat false; Perror "/proc/diskstats"],
           Stopped 2)
      | Some lines =>
          match read_stats st lines with
          | (evs, Exit rc) =>
              (ReadBreakLoop false :: FopenStat true :: evs, Stopped rc)
          | (evs, Next st') =>
              if tk_break2 tk then
                (ReadBreakLoop false :: FopenStat true :: evs ++
                 [FcloseStat; ReadBreakLoop true], Broke st')
              else
                (ReadBreakLoop false :: FopenStat true :: evs ++
                 [FcloseStat; ReadBreakLoop false; Sleep sleep] ++
                 fst (poll_loop sleep st' rest),
                 snd (poll_loop sleep st' rest))
          end
      end.
Proof.
  simpl. destruct (tk_break1 tk); [reflexivity |].
  destruct (tk_fopen tk) as [lines |]; [| reflexivity].
  destruct (read_stats st lines) as [evs [st' | rc]]; [| reflexivity].
  destruct (tk_break2 tk); [reflexivity |].
  destruct (poll_loop sleep st' rest). reflexivity.
Qed.

Lemma poll_loop_disabled name sleep ticks : forall st,
  disabled name st ->
  forall e, e ∈ fst (poll_loop sleep st ticks) -> device_of e <> Some name.
Proof.
  induction ticks as [| tk rest IH]; intros st Hst e H.
  - simpl in H. elem_cases H.
  - rewrite poll_loop_cons in H.
    destruct (tk_break1 tk); [simpl in H; elem_cases H; discriminate |].
    destruct (tk_fopen tk) as [lines |];
      [| simpl in H; elem_cases H; discriminate].
    destruct (read_stats_disabled name lines st Hst) as [Hev Hnext].
    destruct (read_stats st lines) as [evs [st' | rc]]; simpl in Hev, Hnext.
    + destruct (tk_break2 tk); simpl in H.
      * elem_cases H; try discriminate. auto.
      * elem_cases H; try discriminate; [auto |].
        apply (IH st' (Hnext st' eq_refl)). exact H.
    + simpl in H. elem_cases H; try discriminate. auto.
Qed.

(** Option parsing *)

Lemma process_options_cons os st opt rest :
  process_options os st (opt :: rest) =
    match process_option os st opt with
    | (evs, Next st') =>
        (evs ++ fst (process_options os st' rest),
         snd (process_options os st' rest))
    | (evs, Exit rc) => (evs, Exit rc)
    end.
Proof.
  simpl. destruct (process_option os st opt) as [evs [st' | rc]]; simpl;
    [| reflexivity].
  destruct (process_options os st' rest). reflexivity.
Qed.

(** [disk_name] with the sequencing spelled out. *)
Lemma disk_name_unfold realpath st path :
  disk_name realpath st path =
    match path with
    | String "/" _ =>
        match realpath path with
        | None =>
            ([Perror (String.substring 0 4115 ("realpath(" +:+ path +:+ ")"))],
             Next (path, false, st))
        | Some buf =>
            let buf := strip_digits buf in
            let s := match after_last_slash buf with
                     | Some s => s
                     | None => buf
                     end in
            match malloc st with
            | None => ([Eprintf "out of memory"], Exit 2)
            | Some st1 => (dprintf (debug st1) (DebugUsing s path), Next (s, true, st1))
            end
        end
    | _ => ([], Next (path, false, st))
    end.
Proof.
  unfold disk_name.
  destruct path as [| c path']; [reflexivity |].
  destruct (Ascii.eqb_spec c "/") as [-> | Hc].
  - destruct (realpath _) as [buf |]; [| reflexivity].
    destruct (malloc st) as [st1 |]; simpl; rewrite ?app_nil_r; reflexivity.
  - destruct c as [[] [] [] [] [] [] [] []]; try reflexivity. contradiction.
Qed.

(** What a call of [disk_name] that returns leaves of the state: only the
    heap can have shrunk. *)
Lemma disk_name_next realpath st path evs name allocd st' :
  disk_name realpath st path = (evs, Next (name, allocd, st')) ->
  it_root st' = it_root st /\ ds_root st' = ds_root st /\
  (forall e, e ∈ evs -> device_of e = None).
Proof.
  rewrite disk_name_unfold.
  assert (Hplain : ([], Next (path, false, st)) = (evs, Next (name, allocd, st')) ->
                   it_root st' = it_root st /\ ds_root st' = ds_root st /\
                   (forall e, e ∈ evs -> device_of e = None)).
  { intros [= <- <- <- <-]. repeat split. intros e H. elem_cases H. }
  destruct path as [| c path']; [exact Hplain |].
  destruct c as [[] [] [] [] [] [] [] []]; try exact Hplain.
  destruct (realpath _) as [buf |].
  - destruct (malloc st) as [st1 |] eqn:Em; [| discriminate].
    intros [= <- <- <- <-]. apply malloc_fields in Em as (E1 & E2 & _).
    repeat split; try assumption.
    intros e H. eapply dprintf_device; [| exact H]. reflexivity.
  - intros [= <- <- <- <-]. repeat split. intros e H. elem_cases H. reflexivity.
Qed.

(** What one option that does not end the process does to the state: the
    registry is not touched, no device is opened, and the idle-time list
    changes as the option says. *)
Lemma process_option_next os st opt evs st' :
  process_option os st opt = (evs, Next st') ->
  ds_root st' = ds_root st /\
  (forall e, e ∈ evs -> device_of e = None) /\
  match opt with
  | opt_a optarg =>
      exists name allocd,
        it_root st' = mk_idle_time (Some name) DEFAULT_IDLE_TIME allocd :: it_root st
  | opt_i optarg =>
      it_root st' = match it_root st with
                    | it :: rest => set_it_idle_time (atoi optarg) it :: rest
                    | [] => []
                    end
  | _ => it_root st' = it_root st
  end.
Proof.
  destruct opt as [a | a | a | a | | | | |]; simpl; intros H;
    try discriminate;
    try (injection H as <- <-; repeat split; intros e He; elem_cases He).
  - unfold process_option in H.
    destruct (malloc st) as [st1 |] eqn:Em; [| discriminate].
    destruct (disk_name (so_realpath os) st1 a) as [evs1 [[[nm al] st2] | rc]] eqn:Ed;
      simpl in H; [| discriminate].
    injection H as <- <-.
    apply malloc_fields in Em as (E1 & E2 & _).
    apply disk_name_next in Ed as (E3 & E4 & Hev).
    simpl. repeat split.
    + congruence.
    + intros e He. rewrite app_nil_r in He. auto.
    + exists nm, al. congruence.
  - destruct (it_root st) as [| it rest] eqn:Eit; injection H as <- <-;
      simpl; repeat split; try (intros e He; elem_cases He).
    exact Eit.
Qed.

Lemma process_options_next os argv : forall st evs st',
  process_options os st argv = (evs, Next st') ->
  ds_root st' = ds_root st /\ (forall e, e ∈ evs -> device_of e = None).
Proof.
  induction argv as [| opt rest IH]; intros st evs st' H.
  - injection H as <- <-. split; [reflexivity | intros e He; elem_cases He].
  - rewrite process_options_cons in H.
    destruct (process_option os st opt) as [evs1 [st1 |]] eqn:E1; [| discriminate].
    destruct (process_options os st1 rest) as [evs2 r2] eqn:E2. simpl in H.
    injection H as <- ->.
    apply process_option_next in E1 as (Hds1 & Hev1 & _).
    apply IH in E2 as (Hds2 & Hev2).
    split; [congruence |].
    intros e He. apply elem_of_app in He as [He | He]; auto.
Qed.

Lemma daemonize_device os evs r e :
  daemonize os = (evs, r) -> e ∈ evs -> device_of e = None.
Proof.
  unfold daemonize. intros H He.
  destruct (so_fork1 os); [| | destruct (so_fork2 os)];
    injection H as <- <-; elem_cases He; reflexivity.
Qed.

(** [startup] with the sequencing spelled out. *)
Lemma startup_unfold os argv :
  startup os argv =
    match so_heap os with
    | O => ([Eprintf "out of memory"], Exit 1)
    | S n =>
        match process_options os (initial_state n) argv with
        | (evs, Exit rc) => (evs, Exit rc)
        | (evs, Next st) =>
            if (debug st =? 0) && (foreground st =? 0) then
              match daemonize os with
              | (evs', Next _) => (evs ++ evs', Next st)
              | (evs', Exit rc) => (evs ++ evs', Exit rc)
              end
            else (evs, Next st)
        end
    end.
Proof.
  unfold startup. destruct (so_heap os) as [| n]; [reflexivity |].
  destruct (process_options os (initial_state n) argv) as [evs [st | rc]];
    simpl; [| reflexivity].
  destruct ((debug st =? 0) && (foreground st =? 0)); simpl.
  - destruct (daemonize os) as [evs' [[] | rc]]; simpl; rewrite ?app_nil_r;
      reflexivity.
  - rewrite app_nil_r. reflexivity.
Qed.

(** When [startup] reaches the main loop, option parsing went through, the
    registry is empty and no device was touched. *)
Lemma startup_next os argv evs st :
  startup os argv = (evs, Next st) ->
  ds_root st = [] /\
  (forall e, e ∈ evs -> device_of e = None) /\
  exists n evs0, so_heap os = S n /\
                 process_options os (initial_state n) argv = (evs0, Next st).
Proof.
  rewrite startup_unfold.
  destruct (so_heap os) as [| n]; [discriminate |].
  destruct (process_options os (initial_state n) argv) as [evs0 [st0 | rc]] eqn:Eo;
    [| discriminate].
  destruct (process_options_next _ _ _ _ _ Eo) as [Hds Hev].
  destruct ((debug st0 =? 0) && (foreground st0 =? 0)).
  - destruct (daemonize os) as [evs' [[] | rc]] eqn:Ed; [| discriminate].
    intros [= <- <-]. repeat split; [exact Hds | | eauto].
    intros e He. apply elem_of_app in He as [He | He]; [auto |].
    eapply daemonize_device; eassumption.
  - intros [= <- <-]. repeat split; [exact Hds | exact Hev | eauto].
Qed.

(** ** Spindown is off for idle time 0 *)

Lemma no_device_no_spindown_calls evs :
  (forall e, e ∈ evs -> device_of e = None) -> spindown_calls evs = [].
Proof.
  induction evs as [| e evs IH]; intros H; [reflexivity |].
  unfold spindown_calls in *. simpl.
  assert (He : device_of e = None) by (apply H; left).
  destruct e; try discriminate He; apply IH; intros e' He'; apply H; right;
    exact He'.
Qed.

Lemma run_ticks_zero_idle_time debug have_logfile logfile obs : forall ds,
  ds_idle_time ds = 0 ->
  ds_idle_time (fst (run_ticks debug have_logfile logfile ds obs)) = 0 /\
  spindown_calls (concat (snd (run_ticks debug have_logfile logfile ds obs))) = [].
Proof.
  induction obs as [| o rest IH]; intros ds H0; [split; [exact H0 | reflexivity] |].
  simpl. unfold tick.
  pose proof (update_disk_idle_time debug have_logfile logfile (ob_now o)
                (ob_reads o) (ob_writes o) (os_sg (ob_os o)) (os_log (ob_os o)) ds)
    as Hidle.
  pose proof (fun e => update_disk_device debug have_logfile logfile (ob_now o)
                (ob_reads o) (ob_writes o) (os_sg (ob_os o)) (os_log (ob_os o)) ds e)
    as Hdev.
  destruct (update_disk _ _ _ _ _ _ _ _ ds) as [ds' evs]. simpl in Hidle, Hdev.
  destruct (IH ds' ltac:(congruence)) as [IH1 IH2].
  destruct (run_ticks debug have_logfile logfile ds' rest) as [ds'' evss].
  simpl in *. split; [exact IH1 |].
  unfold spindown_calls in *. rewrite List.filter_app, IH2, app_nil_r.
  apply no_device_no_spindown_calls.
  intros e He. destruct (Hdev e He) as [Hn | [_ Hnz]]; [exact Hn | congruence].
Qed.

(** C6.  A disk whose idle time is 0 is never spun down.  For one record:
    whatever the ticks show it (counters changed or not, any time stamps),
    [spindown_disk] is never called and the idle time stays 0.  For the
    whole loop: when the idle-time list resolves a name to 0 and every
    record of that name carries 0, no run of the main loop opens, stops or
    closes the device of that name.  For the whole program: when option
    parsing leaves a list that resolves the name to 0, no run of [main]
    does. *)
Theorem zero_idle_time_never_spun_down :
  (forall debug have_logfile logfile ds obs,
     ds_idle_time ds = 0 ->
     ds_idle_time (fst (run_ticks debug have_logfile logfile ds obs)) = 0 /\
     spindown_calls (concat (snd (run_ticks debug have_logfile logfile ds obs))) = []) /\
  (forall name sleep st ticks,
     disabled name st ->
     forall e, e ∈ fst (poll_loop sleep st ticks) -> device_of e <> Some name) /\
  (forall name os argv evs st ticks,
     startup os argv = (evs, Next st) ->
     find_idle_time (it_root st) name = Some 0 ->
     forall e, e ∈ fst (main os argv ticks) -> device_of e <> Some name).
Proof.
  split; [| split].
  - intros. apply run_ticks_zero_idle_time. assumption.
  - intros name sleep st ticks Hst e He.
    eapply poll_loop_disabled; eassumption.
  - intros name os argv evs st ticks Hs Hfind e He.
    unfold main in He. rewrite Hs in He.
    apply startup_next in Hs as (Hds & Hev & _).
    assert (Hdis : disabled name st).
    { split; [exact Hfind | rewrite Hds; constructor]. }
    pose proof (poll_loop_disabled name (sleep_time (it_root st)) ticks st Hdis)
      as Hloop.
    destruct (poll_loop (sleep_time (it_root st)) st ticks) as [evs' []];
      simpl in He, Hloop;
      apply elem_of_app in He as [He | He]; auto;
      rewrite (Hev e He); discriminate.
Qed.

Lemma zero_idle_time_never_spun_down_witness :
  spindown_calls
    (concat (snd (run_ticks 0 false "" sdb_off
                    [sdb_at 110 7 9; sdb_at 5000 7 9; sdb_at 99999 8 9]))) = [] /\
  Forall (fun e => device_of e <> Some "sdb")
    (fst (poll_loop 60
            (mk_state [mk_idle_time None 0 false] [sdb_off] "/dev/null" false 1 0 5)
            [mk_tick_os false (Some [line_of "sdb" (sdb_at 99999 7 9)]) false])) /\
  Forall (fun e => device_of e <> Some "sdb")
    (fst (main plain_os [opt_i "0"; opt_f]
            [mk_tick_os false (Some [line_of "sdb" (sdb_at 100 7 9)]) false;
             mk_tick_os false (Some [line_of "sdb" (sdb_at 99999 7 9)]) false])).
Proof.
  destruct zero_idle_time_never_spun_down as (H1 & H2 & H3). split; [| split].
  - apply H1. reflexivity.
  - apply Forall_forall. apply H2. split; [reflexivity |].
    apply List.Forall_cons; [intros _; reflexivity | apply List.Forall_nil].
  - apply Forall_forall.
    apply (H3 "sdb" plain_os [opt_i "0"; opt_f] []
              (mk_state [mk_idle_time None 0 false] [] "/dev/null" false 1 0 9)).
    + reflexivity.
    + reflexivity.
Defined.

(** ** A spindown that fails *)

Lemma spindown_disk_failure_logged dbg name r :
  sg_failed r = true ->
  exists e, e ∈ spindown_disk dbg name r /\ is_stderr e = true.
Proof.
  unfold spindown_disk. intros Hf.
  destruct r as [| | masked_status sense]; simpl in Hf.
  - exists (Perror (dev_path name)). split; [| reflexivity].
    apply elem_of_app. right. right. left.
  - exists (Perror (String.substring 0 99 ("ioctl on " +:+ name +:+ ":"))).
    split; [| reflexivity].
    apply elem_of_app. right. right. right. left.
  - exists (ScsiStatus masked_status). split; [| reflexivity].
    apply negb_true_iff in Hf. rewrite Hf.
    apply elem_of_app. right. right. right. left.
Qed.

Lemma spindown_disk_success_silent dbg name r e :
  sg_failed r = false -> e ∈ spindown_disk dbg name r -> is_stderr e = false.
Proof.
  unfold spindown_disk, dprintf. intros Hf He.
  destruct r as [| | masked_status sense]; simpl in Hf; try discriminate.
  apply negb_false_iff in Hf. rewrite Hf in He.
  destruct (dbg =? 0); simpl in He; elem_cases He; reflexivity.
Qed.

(** C4, amended.  When the idle period of a known, running disk has run
    out, [spindown_disk] is called and, whatever becomes of the request
    (the device cannot be opened, the ioctl fails, the status is not 0, or
    all goes well), the line is handled to its end: the record is marked as
    spun down with spindown = now, no other record changes, and reading goes
    on with the next line.  A failure writes a message to the error stream;
    a success writes none. *)
Theorem failed_spindown_still_marks_disk st ln rest name reads writes i ds :
  sl_sscanf ln = Some (name, reads, writes) ->
  fst (is_scsi_disk name (os_stat (sl_os ln))) = true ->
  get_diskstats (ds_root st) name = Some (i, ds) ->
  ds_reads ds = reads -> ds_writes ds = writes ->
  ds_spun_down ds = false ->
  ds_idle_time ds <> 0 ->
  ds_idle_time ds <= os_now (sl_os ln) - ds_last_io ds ->
  let now := os_now (sl_os ln) in
  let sg := os_sg (sl_os ln) in
  let evs := dprintf (debug st) (DebugProbing name reads writes) ++
             spindown_disk (debug st) name sg in
  let st' := set_ds_root (<[i := marked_spun_down now ds]> (ds_root st)) st in
  process_line st ln = (evs, Next st') /\
  read_stats st (ln :: rest) =
    (evs ++ fst (read_stats st' rest), snd (read_stats st' rest)) /\
  ds_root st' !! i = Some (marked_spun_down now ds) /\
  ds_spun_down (marked_spun_down now ds) = true /\
  ds_spindown (marked_spun_down now ds) = now /\
  (forall j, j <> i -> ds_root st' !! j = ds_root st !! j) /\
  (sg_failed sg = true ->
   exists e, e ∈ spindown_disk (debug st) name sg /\ is_stderr e = true) /\
  (sg_failed sg = false ->
   forall e, e ∈ spindown_disk (debug st) name sg -> is_stderr e = false).
Proof.
  intros Hscan Hscsi Hget Hr Hw Hrun Hnz Hdue now sg evs st'.
  assert (Hline : process_line st ln = (evs, Next st')).
  { rewrite process_line_unfold, Hscan. simpl. rewrite Hscsi, Hget.
    pose proof (tick_due (debug st) (have_logfile st) (logfile st) ds
                  (mk_observation reads writes (sl_os ln))) as Ht.
    unfold tick in Ht. simpl in Ht. unfold ob_now in Ht. simpl in Ht.
    rewrite Ht; try assumption; [| split; assumption].
    apply get_diskstats_Some in Hget as [_ ->]. reflexivity. }
  destruct (get_diskstats_Some _ _ _ _ Hget) as [Hi _].
  repeat split.
  - exact Hline.
  - rewrite read_stats_cons, Hline. reflexivity.
  - subst st'. simpl. apply list_lookup_insert_eq.
    eapply lookup_lt_Some. exact Hi.
  - intros j Hj. subst st'. simpl. apply list_lookup_insert_ne. congruence.
  - apply spindown_disk_failure_logged.
  - intros Hok e. apply spindown_disk_success_silent. exact Hok.
Qed.

Lemma failed_spindown_still_marks_disk_witness :
  process_line registry_sdb (line_of "sdb" sdb_open_fails) =
    ([OpenDev "sdb"; Perror "/dev/sdb"],
     Next (set_ds_root [mk_disk_stats "sdb" 30 100 130 100 7 9 true] registry_sdb)) /\
  (exists e, e ∈ spindown_disk 0 "sdb" OpenFails /\ is_stderr e = true) /\
  Forall (fun e => is_stderr e = false) (spindown_disk 0 "sdb" (IoctlReturns 0 [])).
Proof.
  split; [| split].
  - destruct (failed_spindown_still_marks_disk registry_sdb
                (line_of "sdb" sdb_open_fails) [] "sdb" 7 9 0%nat sdb)
      as (H1 & _);
      [reflexivity | reflexivity | reflexivity | reflexivity | reflexivity | reflexivity
       | cbn; lia | cbn; lia |].
    exact H1.
  - destruct (failed_spindown_still_marks_disk registry_sdb
                (line_of "sdb" sdb_open_fails) [] "sdb" 7 9 0%nat sdb)
      as (_ & _ & _ & _ & _ & _ & H2 & _);
      [reflexivity | reflexivity | reflexivity | reflexivity | reflexivity | reflexivity
       | cbn; lia | cbn; lia |].
    exact (H2 eq_refl).
  - destruct (failed_spindown_still_marks_disk registry_sdb
                (line_of "sdb" (sdb_at 130 7 9)) [] "sdb" 7 9 0%nat sdb)
      as (_ & _ & _ & _ & _ & _ & _ & H3);
      [reflexivity | reflexivity | reflexivity | reflexivity | reflexivity | reflexivity
       | cbn; lia | cbn; lia |].
    apply Forall_forall. exact (H3 eq_refl).
Defined.

(** C4 as stated fails: the idle period of the running disk "sdb" has run
    out, the device cannot be opened, and the record is marked as spun down
    all the same (spindown = 130, spun_down = true). *)
Lemma failed_spindown_counterexample :
  sg_failed (os_sg (ob_os sdb_open_fails)) = true /\
  ds_spun_down sdb = false /\
  process_line registry_sdb (line_of "sdb" sdb_open_fails) =
    ([OpenDev "sdb"; Perror "/dev/sdb"],
     Next (set_ds_root [mk_disk_stats "sdb" 30 100 130 100 7 9 true] registry_sdb)) /\
  mk_disk_stats "sdb" 30 100 130 100 7 9 true <> sdb.
Proof.
  repeat split. discriminate.
Qed.

(** ** Exit status *)

Lemma process_options_app os pre : forall st rest,
  process_options os st (pre ++ rest) =
    match process_options os st pre with
    | (evs, Next st') =>
        (evs ++ fst (process_options os st' rest),
         snd (process_options os st' rest))
    | (evs, Exit rc) => (evs, Exit rc)
    end.
Proof.
  induction pre as [| opt pre IH]; intros st rest.
  - simpl. destruct (process_options os st rest). reflexivity.
  - rewrite <- app_comm_cons, !process_options_cons.
    destruct (process_option os st opt) as [evs1 [st1 | rc]]; [| reflexivity].
    rewrite IH.
    destruct (process_options os st1 pre) as [evs2 [st2 | rc]]; simpl.
    + rewrite app_assoc. reflexivity.
    + reflexivity.
Qed.

(** C5.  The exit status of a failed allocation, at each of the four
    allocation sites.  When the [malloc] of the default idle-time entry
    fails the process ends with status 1, whatever the command line.  When
    the [malloc] of [-a], the [strdup] of [disk_name] or the [malloc] for a
    new disk fails, it ends with status 2. *)
Theorem first_malloc_failure_exits_1 :
  (forall realpath sg f1 f2 argv ticks,
     main (mk_startup_os 0 realpath sg f1 f2) argv ticks =
       ([Eprintf "out of memory"], Some 1)) /\
  (forall os it ds lf hl fg dbg optarg,
     process_option os (mk_state it ds lf hl fg dbg 0) (opt_a optarg) =
       ([Eprintf "out of memory"], Exit 2)) /\
  (forall buf it ds lf hl fg dbg path,
     disk_name (fun _ => Some buf) (mk_state it ds lf hl fg dbg 0) (String "/" path) =
       ([Eprintf "out of memory"], Exit 2)) /\
  (forall it lf hl fg dbg name reads writes now minor sg lg,
     process_line (mk_state it [] lf hl fg dbg 0)
       (mk_stat_line (Some (name, reads, writes))
                     (mk_line_os now (Some (8, 16 * minor)) sg lg)) =
       (dprintf dbg (DebugProbing name reads writes) ++ [Eprintf "out of memory"],
        Exit 2)).
Proof.
  repeat split.
  - intros. rewrite process_line_unfold. simpl.
    rewrite Z.mul_comm, Z.rem_mul by discriminate. reflexivity.
Qed.

(** C10.  Once option parsing reaches [-t], [main] calls [spindown_disk]
    and ends with status 0, whatever becomes of the stop-unit request:
    [spindown_disk] returns nothing, and the answer of the device only
    shows in the events. *)
Theorem one_shot_spindown_exits_0 os n pre optarg post ticks evs st :
  so_heap os = S n ->
  process_options os (initial_state n) pre = (evs, Next st) ->
  main os (pre ++ opt_t optarg :: post) ticks =
    (evs ++ spindown_disk (debug st) optarg (so_sg os), Some 0).
Proof.
  intros Hheap Hpre. unfold main. rewrite startup_unfold, Hheap.
  rewrite process_options_app, Hpre, process_options_cons. simpl.
  rewrite app_nil_r. reflexivity.
Qed.

Lemma one_shot_spindown_exits_0_witness :
  main (mk_startup_os 10 (fun _ => None) OpenFails ForkChild ForkChild)
       [opt_d; opt_t "sdb"; opt_a "sdc"] [] =
    ([DebugSpindown "sdb"; OpenDev "sdb"; Perror "/dev/sdb"], Some 0) /\
  main (mk_startup_os 10 (fun _ => None) (IoctlReturns 1 [112; 0; 5]) ForkChild ForkChild)
       [opt_t "sdb"] [] =
    ([OpenDev "sdb"; StopUnit "sdb"; ScsiStatus 1; Phex [112; 0; 5]; CloseDev "sdb"],
     Some 0).
Proof.
  split.
  - apply (one_shot_spindown_exits_0
             (mk_startup_os 10 (fun _ => None) OpenFails ForkChild ForkChild)
             9 [opt_d] "sdb" [opt_a "sdc"] [] []
             (set_debug 1 (initial_state 9))); reflexivity.
  - apply (one_shot_spindown_exits_0
             (mk_startup_os 10 (fun _ => None) (IoctlReturns 1 [112; 0; 5])
                            ForkChild ForkChild)
             9 [] "sdb" [] [] [] (initial_state 9)); reflexivity.
Defined.

(** ** Classification of devices *)

(** C7.  [is_scsi_disk] accepts a device exactly when [stat] succeeds on it
    and reports major number 8 and a minor number that is a multiple of
    16.  A device it rejects is dropped: the line changes nothing, and the
    only event is the message of a failed [stat]. *)
Theorem is_scsi_disk_whole_disk_only :
  (forall name st,
     fst (is_scsi_disk name st) = true <->
     exists major minor, st = Some (major, minor) /\ major = 8 /\ (16 | minor)) /\
  (forall st name reads writes os,
     fst (is_scsi_disk name (os_stat os)) = false ->
     process_line st (mk_stat_line (Some (name, reads, writes)) os) =
       (snd (is_scsi_disk name (os_stat os)), Next st) /\
     forall e, e ∈ snd (is_scsi_disk name (os_stat os)) -> device_of e = None).
Proof.
  split.
  - intros name st. unfold is_scsi_disk. split.
    + destruct st as [[major minor] |]; simpl; [| discriminate].
      intros H. apply andb_true_iff in H as [H8 H16].
      exists major, minor. repeat split.
      * apply Z.eqb_eq. exact H8.
      * apply Z.rem_divide; [discriminate |]. apply Z.eqb_eq. exact H16.
    + intros (major & minor & -> & -> & Hdiv). simpl.
      apply Z.eqb_eq. apply Z.rem_divide; [discriminate | exact Hdiv].
  - intros st name reads writes os Hrej. split.
    + rewrite process_line_unfold. simpl. rewrite Hrej. reflexivity.
    + intros e. apply is_scsi_disk_device.
Qed.

Lemma is_scsi_disk_whole_disk_only_witness :
  fst (is_scsi_disk "sdb" (Some (8, 32))) = true /\
  process_line registry_sdb
    (mk_stat_line (Some ("sdb1", 3, 4))
                  (mk_line_os 130 (Some (8, 17)) (IoctlReturns 0 []) quiet_log)) =
    ([], Next registry_sdb) /\
  process_line registry_sdb
    (mk_stat_line (Some ("hda", 3, 4))
                  (mk_line_os 130 (Some (3, 0)) (IoctlReturns 0 []) quiet_log)) =
    ([], Next registry_sdb).
Proof.
  destruct is_scsi_disk_whole_disk_only as [H1 H2]. split; [| split].
  - apply H1. exists 8, 32. repeat split. exists 2. reflexivity.
  - apply (H2 registry_sdb "sdb1" 3 4). reflexivity.
  - apply (H2 registry_sdb "hda" 3 4). reflexivity.
Defined.

(** ** The sleep time *)

Lemma fold_min_acc (l : list Z) : forall t acc,
  fold_right Z.min (Z.min t acc) l = Z.min t (fold_right Z.min acc l).
Proof.
  induction l as [| x l IH]; intros t acc; simpl; [reflexivity |].
  rewrite IH. lia.
Qed.

Lemma min_idle_time_fold it : forall acc,
  min_idle_time it acc = fold_right Z.min acc (nonzero_idle_times it).
Proof.
  unfold nonzero_idle_times.
  induction it as [| e rest IH]; intros acc; simpl; [reflexivity |].
  rewrite IH. destruct (Z.eqb_spec (it_idle_time e) 0) as [E0 | E0]; simpl.
  - reflexivity.
  - rewrite <- fold_min_acc.
    destruct (Z.ltb_spec (it_idle_time e) acc); f_equal; lia.
Qed.

Lemma fold_min_lower_bound (l : list Z) (lo acc : Z) :
  lo <= acc -> Forall (fun t => lo <= t) l -> lo <= fold_right Z.min acc l.
Proof.
  intros Hacc Hall. induction Hall as [| x l Hx _ IH]; simpl; [exact Hacc | lia].
Qed.

Lemma fold_min_swap (l : list Z) (t x : Z) :
  Z.min t (fold_right Z.min x l) = Z.min x (fold_right Z.min t l).
Proof.
  induction l as [| y l IH]; simpl; lia.
Qed.

Lemma fold_min_upper_bound (l : list Z) (hi t : Z) :
  Forall (fun x => x <= hi) (t :: l) ->
  fold_right Z.min hi (t :: l) = fold_right Z.min t l.
Proof.
  revert t. induction l as [| x l IH]; intros t Hall; simpl.
  - apply Forall_cons in Hall as [Ht _]. lia.
  - apply Forall_cons in Hall as [Ht Hall].
    specialize (IH x Hall). simpl in IH. rewrite IH. apply fold_min_swap.
Qed.

Lemma nonzero_idle_times_Forall (P : Z -> Prop) it :
  Forall (fun e => P (it_idle_time e)) it -> Forall P (nonzero_idle_times it).
Proof.
  unfold nonzero_idle_times. intros H.
  induction H as [| e rest He _ IH]; simpl; [constructor |].
  destruct (it_idle_time e =? 0); simpl; [exact IH | constructor; assumption].
Qed.

Lemma nonzero_idle_times_nil it :
  Forall (fun e => it_idle_time e = 0) it -> nonzero_idle_times it = [].
Proof.
  unfold nonzero_idle_times. intros H.
  induction H as [| e rest He _ IH]; simpl; [reflexivity |].
  rewrite He. simpl. exact IH.
Qed.

Lemma nonzero_idle_times_not_nil it :
  Exists (fun e => it_idle_time e <> 0) it -> nonzero_idle_times it <> [].
Proof.
  unfold nonzero_idle_times. intros H.
  induction H as [e rest He | e rest _ IH]; simpl.
  - destruct (Z.eqb_spec (it_idle_time e) 0); [contradiction | discriminate].
  - destruct (it_idle_time e =? 0); simpl; [exact IH | discriminate].
Qed.

(** The events of an update are those of one call of [spindown_disk] or of
    one call of [log_spinup]. *)
Lemma update_disk_events dbg hl lf now r w sg lg ds e :
  e ∈ snd (update_disk dbg hl lf now r w sg lg ds) ->
  e ∈ spindown_disk dbg (ds_name ds) sg \/ e ∈ log_spinup lf ds lg.
Proof.
  unfold update_disk. intros H.
  destruct ((ds_reads ds =? r) && (ds_writes ds =? w)).
  - destruct (ds_spun_down ds); simpl in H; [elem_cases H |].
    destruct (negb (ds_idle_time ds =? 0) && (ds_idle_time ds <=? now - ds_last_io ds));
      simpl in H; [left; exact H | elem_cases H].
  - destruct (ds_spun_down ds); simpl in H; [| elem_cases H].
    destruct hl; [right; exact H | elem_cases H].
Qed.

Lemma spindown_disk_no_sleep dbg name r s : Sleep s ∉ spindown_disk dbg name r.
Proof.
  unfold spindown_disk, dprintf. intros H.
  repeat match type of H with
         | context [if ?c then _ else _] => destruct c
         | context [match ?x with OpenFails => _ | _ => _ end] => destruct x
         end;
    simpl in H; elem_inv H; discriminate.
Qed.

Lemma log_spinup_sleep lf ds lg s : Sleep s ∈ log_spinup lf ds lg -> s = 1.
Proof.
  unfold log_spinup. intros H.
  repeat match type of H with context [if ?c then _ else _] => destruct c end;
    elem_inv H; try discriminate; congruence.
Qed.

Lemma process_line_sleep st ln s : Sleep s ∈ fst (process_line st ln) -> s = 1.
Proof.
  rewrite process_line_unfold. unfold is_scsi_disk, dprintf.
  destruct (sl_sscanf ln) as [[[n reads] writes] |]; simpl;
    [| intros H; elem_inv H].
  destruct (os_stat (sl_os ln)) as [[major minor] |]; simpl;
    [| intros H; elem_inv H; discriminate].
  destruct ((major =? 8) && (Z.rem minor 16 =? 0)); [| intros H; elem_inv H].
  destruct (get_diskstats (ds_root st) n) as [[i ds] |].
  - simpl. intros H. apply elem_of_app in H as [H | H].
    + destruct (debug st =? 0); elem_inv H; discriminate.
    + apply update_disk_events in H as [H | H].
      * exfalso. eapply spindown_disk_no_sleep. exact H.
      * eapply log_spinup_sleep. exact H.
  - destruct (malloc st); simpl; intros H;
      destruct (debug st =? 0); elem_inv H; discriminate.
Qed.

Lemma read_stats_sleep lines : forall st s,
  Sleep s ∈ fst (read_stats st lines) -> s = 1.
Proof.
  induction lines as [| ln rest IH]; intros st s H; [simpl in H; elem_inv H |].
  rewrite read_stats_cons in H.
  pose proof (process_line_sleep st ln s) as Hl.
  destruct (process_line st ln) as [evs [st' | rc]]; simpl in H, Hl; [| auto].
  apply elem_of_app in H as [H | H]; [auto | eauto].
Qed.

Lemma poll_loop_sleep sleep ticks : forall st s,
  Sleep s ∈ fst (poll_loop sleep st ticks) -> s = sleep \/ s = 1.
Proof.
  induction ticks as [| tk rest IH]; intros st s H; [simpl in H; elem_inv H |].
  rewrite poll_loop_cons in H.
  destruct (tk_break1 tk); [simpl in H; elem_inv H; discriminate |].
  destruct (tk_fopen tk) as [lines |]; [| simpl in H; elem_inv H; discriminate].
  pose proof (read_stats_sleep lines st s) as Hr.
  destruct (read_stats st lines) as [evs [st' | rc]]; simpl in Hr.
  - destruct (tk_break2 tk); simpl in H; elem_inv H; try discriminate; auto.
    + left. congruence.
    + eauto.
  - simpl in H. elem_inv H; try discriminate. auto.
Qed.

(** C8, amended.  The sleep time is computed from m, the smallest nonzero
    idle time of the list left by option parsing, or [INT_MAX] when every
    idle time is 0: it is m / 10 in C integer division, replaced by 1 when
    the quotient is 0.  For idle times that are not negative this is
    max(1, m / 10); with at least one nonzero idle time it is the formula of
    the specification, and with none it is 214748364.  [main] computes it
    once, from the list as it stands when the loop is entered, and every
    [sleep] of a run of the loop is for that time (or for the one second of
    [log_spinup]). *)
Theorem sleep_time_is_tenth_of_shortest_idle_time :
  (forall it,
     let m := fold_right Z.min INT_MAX (nonzero_idle_times it) in
     sleep_time it = (if Z.quot m 10 =? 0 then 1 else Z.quot m 10) /\
     (Forall (fun e => 0 <= it_idle_time e) it ->
      sleep_time it = Z.max 1 (Z.quot m 10)) /\
     (Forall (fun e => 0 <= it_idle_time e <= INT_MAX) it ->
      Exists (fun e => it_idle_time e <> 0) it ->
      spec_poll_interval (map it_idle_time it) = Some (sleep_time it)) /\
     (Forall (fun e => it_idle_time e = 0) it -> sleep_time it = 214748364)) /\
  (forall os argv ticks evs st,
     startup os argv = (evs, Next st) ->
     fst (main os argv ticks) =
       evs ++ fst (poll_loop (sleep_time (it_root st)) st ticks) /\
     forall s, Sleep s ∈ fst (poll_loop (sleep_time (it_root st)) st ticks) ->
               s = sleep_time (it_root st) \/ s = 1).
Proof.
  split.
  - intros it m.
    assert (Hst : sleep_time it = (if Z.quot m 10 =? 0 then 1 else Z.quot m 10)).
    { unfold sleep_time. rewrite min_idle_time_fold. reflexivity. }
    assert (Hnonneg : Forall (fun e => 0 <= it_idle_time e) it ->
                      sleep_time it = Z.max 1 (Z.quot m 10)).
    { intros Hpos. rewrite Hst.
      assert (0 <= m).
      { apply fold_min_lower_bound; [discriminate |].
        apply nonzero_idle_times_Forall with (P := fun t => 0 <= t). exact Hpos. }
      assert (0 <= Z.quot m 10) by (apply Z.quot_pos; lia).
      destruct (Z.eqb_spec (Z.quot m 10) 0); lia. }
    split; [exact Hst | split; [exact Hnonneg | split]].
    + intros Hrange Hex. unfold spec_poll_interval.
      fold (nonzero_idle_times it).
      assert (Hle : Forall (fun t => t <= INT_MAX) (nonzero_idle_times it)).
      { apply nonzero_idle_times_Forall with (P := fun t => t <= INT_MAX).
        eapply Forall_impl; [exact Hrange |]. simpl. intros e He. lia. }
      pose proof (nonzero_idle_times_not_nil it Hex) as Hne.
      rewrite Hnonneg by (eapply Forall_impl; [exact Hrange |]; simpl; intros; lia).
      subst m. destruct (nonzero_idle_times it) as [| t ts]; [contradiction |].
      rewrite fold_min_upper_bound by exact Hle. reflexivity.
    + intros Hzero. rewrite Hst. subst m.
      rewrite nonzero_idle_times_nil by exact Hzero. reflexivity.
  - intros os argv ticks evs st Hs. split.
    + unfold main. rewrite Hs.
      destruct (poll_loop (sleep_time (it_root st)) st ticks) as [evs' []];
        reflexivity.
    + intros s. apply poll_loop_sleep.
Qed.

Lemma sleep_time_is_tenth_of_shortest_idle_time_witness :
  sleep_time [mk_idle_time (Some "sdb") 30 false; mk_idle_time (Some "sdc") 0 false;
              mk_idle_time None 600 false] = Z.max 1 (Z.quot 30 10) /\
  spec_poll_interval [30; 0; 600] = Some 3 /\
  sleep_time [mk_idle_time None 0 false] = 214748364 /\
  Forall (fun e => match e with Sleep s => s = 3 \/ s = 1 | _ => True end)
    (fst (poll_loop 3 (mk_state [mk_idle_time (Some "sdb") 30 false;
                                  mk_idle_time None 600 false]
                                 [] "/dev/null" false 1 0 8)
            [mk_tick_os false (Some [line_of "sdb" (sdb_at 100 7 9)]) false;
             mk_tick_os false (Some [line_of "sdb" (sdb_at 103 7 9)]) true])).
Proof.
  destruct sleep_time_is_tenth_of_shortest_idle_time as [H1 H2].
  split; [| split; [| split]].
  - apply (H1 [mk_idle_time (Some "sdb") 30 false; mk_idle_time (Some "sdc") 0 false;
               mk_idle_time None 600 false]).
    repeat (apply List.Forall_cons; [cbn; lia |]). apply List.Forall_nil.
  - apply (H1 [mk_idle_time (Some "sdb") 30 false; mk_idle_time (Some "sdc") 0 false;
               mk_idle_time None 600 false]).
    + repeat (apply List.Forall_cons; [cbn; unfold INT_MAX; lia |]).
      apply List.Forall_nil.
    + apply List.Exists_cons_hd. discriminate.
  - apply (H1 [mk_idle_time None 0 false]).
    repeat (apply List.Forall_cons; [reflexivity |]). apply List.Forall_nil.
  - apply Forall_forall. intros e He. destruct e; try exact I.
    apply (H2 plain_os [opt_a "sdb"; opt_i "30"; opt_f]
              [mk_tick_os false (Some [line_of "sdb" (sdb_at 100 7 9)]) false;
               mk_tick_os false (Some [line_of "sdb" (sdb_at 103 7 9)]) true]
              []
              (mk_state [mk_idle_time (Some "sdb") 30 false;
                         mk_idle_time None 600 false]
                        [] "/dev/null" false 1 0 8)).
    + reflexivity.
    + exact He.
Defined.

(** C8 as stated fails.  After [-i -100] the list holds the idle time
    -100: the sleep time is -10, where the formula of the specification
    gives max(1, -10) = 1.  After [-i 0] no idle time is nonzero: the formula has
    no value, and the sleep time is 214748364. *)
Lemma poll_interval_counterexample :
  startup plain_os [opt_i "-100"; opt_f] =
    ([], Next (mk_state [mk_idle_time None (-100) false] [] "/dev/null" false 1 0 9)) /\
  sleep_time [mk_idle_time None (-100) false] = -10 /\
  spec_poll_interval [-100] = Some 1 /\
  startup plain_os [opt_i "0"; opt_f] =
    ([], Next (mk_state [mk_idle_time None 0 false] [] "/dev/null" false 1 0 9)) /\
  sleep_time [mk_idle_time None 0 false] = 214748364 /\
  spec_poll_interval [0] = None.
Proof.
  repeat split.
Qed.

(** ** The idle-time list and its lookup *)

(** Options push new entries in front of the current head and otherwise
    only change the head's idle time: everything behind the head stays. *)
Lemma process_options_grow os argv : forall st evs st' hd base,
  process_options os st argv = (evs, Next st') ->
  it_root st = hd :: base ->
  exists later hd',
    it_root st' = later ++ hd' :: base /\
    it_name hd' = it_name hd /\
    length later = length (List.filter is_opt_a argv) /\
    Forall (fun e => it_name e <> None) later.
Proof.
  induction argv as [| opt rest IH]; intros st evs st' hd base H Hroot.
  - injection H as <- <-. exists [], hd. repeat split; [exact Hroot | constructor].
  - rewrite process_options_cons in H.
    destruct (process_option os st opt) as [evs1 [st1 |]] eqn:E1; [| discriminate].
    destruct (process_options os st1 rest) as [evs2 r2] eqn:E2. simpl in H.
    injection H as <- ->.
    apply process_option_next in E1 as (_ & _ & Htab).
    destruct opt as [a | a | a | a | | | | |];
      try (rewrite Hroot in Htab; simpl;
           destruct (IH _ _ _ _ _ E2 Htab) as (later & hd' & ? & ? & ? & ?);
           exists later, hd'; repeat split; assumption).
    + destruct Htab as (name & allocd & Htab). rewrite Hroot in Htab.
      destruct (IH _ _ _ _ _ E2 Htab) as (later & new' & Hr & Hn & Hlen & Hall).
      exists (later ++ [new']), hd. repeat split.
      * rewrite Hr, <- app_assoc. reflexivity.
      * simpl. rewrite length_app, Hlen. simpl. lia.
      * apply Forall_app. split; [exact Hall |].
        constructor; [| constructor]. rewrite Hn. discriminate.
Qed.

(** Entries that carry another name are passed over by the lookup. *)
Lemma find_idle_time_skip name front : forall rest,
  Forall (fun e => it_name e <> None /\ it_name e <> Some name) front ->
  find_idle_time (front ++ rest) name = find_idle_time rest name.
Proof.
  induction front as [| e front IH]; intros rest Hall; [reflexivity |].
  apply Forall_cons in Hall as [[Hsome Hne] Hall]. simpl.
  destruct (it_name e) as [n |]; [| congruence].
  destruct (String.eqb_spec name n) as [-> | _]; [congruence |].
  apply IH. exact Hall.
Qed.

Lemma pattern_is_name name e : pattern_is name e = true <-> it_name e = Some name.
Proof.
  unfold pattern_is. destruct (it_name e) as [n |]; [| split; discriminate].
  destruct (String.eqb_spec name n) as [-> | Hne]; split; try reflexivity;
    try discriminate; congruence.
Qed.

(** The lookup in a list of named entries closed by a default entry. *)
Lemma find_idle_time_named named dflt name :
  Forall (fun e => it_name e <> None) named ->
  it_name dflt = None ->
  find_idle_time (named ++ [dflt]) name =
    Some (match List.find (pattern_is name) named with
          | Some e => it_idle_time e
          | None => it_idle_time dflt
          end).
Proof.
  intros Hall Hd. induction Hall as [| e named He _ IH]; simpl.
  - rewrite Hd. reflexivity.
  - unfold pattern_is at 1. destruct (it_name e) as [n |]; [| congruence].
    destruct (String.eqb name n); [reflexivity | exact IH].
Qed.

(** C2.  Whatever the command line, the idle-time list left by option
    parsing consists of named entries followed by the one default entry
    (no name).  The lookup for a disk name returns the idle time of the
    first named entry whose name is equal to the disk name, as whole
    strings, and that of the default entry when there is none: it has a
    result for every name.  Entries are in reverse order of their [-a]
    options: the entry of an [-a] stands directly in front of the list as
    it was before that option, behind the entries of all later [-a]
    options; so it decides the lookup of its name unless a later [-a] gave
    the same name, and entries made before it never do. *)
Theorem resolve_first_match_default_last os n argv evs st :
  process_options os (initial_state n) argv = (evs, Next st) ->
  exists named dflt,
    it_root st = named ++ [dflt] /\
    it_name dflt = None /\
    Forall (fun e => it_name e <> None) named /\
    (forall name,
       find_idle_time (it_root st) name =
         Some (match List.find (pattern_is name) named with
               | Some e => it_idle_time e
               | None => it_idle_time dflt
               end)) /\
    (forall name e, pattern_is name e = true <-> it_name e = Some name) /\
    (forall pre optarg post evs_pre st_pre,
       argv = pre ++ opt_a optarg :: post ->
       process_options os (initial_state n) pre = (evs_pre, Next st_pre) ->
       exists later e name,
         it_root st = later ++ e :: it_root st_pre /\
         it_name e = Some name /\
         length later = length (List.filter is_opt_a post) /\
         (Forall (fun e' => it_name e' <> Some name) later ->
          find_idle_time (it_root st) name = Some (it_idle_time e))).
Proof.
  intros H.
  destruct (process_options_grow os argv _ _ _ _ _ H eq_refl)
    as (named & dflt & Hroot & Hdflt & _ & Hnamed).
  exists named, dflt. repeat split; try assumption.
  - intros name. rewrite Hroot. apply find_idle_time_named; assumption.
  - apply pattern_is_name.
  - apply pattern_is_name.
  - intros pre optarg post evs_pre st_pre -> Hpre.
    rewrite process_options_app, Hpre, process_options_cons in H.
    destruct (process_option os st_pre (opt_a optarg)) as [evs1 [st1 |]] eqn:Ea;
      [| discriminate].
    destruct (process_options os st1 post) as [evs2 r2] eqn:Epost. simpl in H.
    injection H as _ ->.
    apply process_option_next in Ea as (_ & _ & name & allocd & Ha).
    destruct (process_options_grow os post _ _ _ _ _ Epost Ha)
      as (later & e & Hr & Hn & Hlen & Hlater).
    exists later, e, name. repeat split; try assumption.
    intros Hother. rewrite Hr, find_idle_time_skip.
    + simpl. rewrite Hn. simpl. rewrite String.eqb_refl. reflexivity.
    + apply Forall_and. split; assumption.
Qed.

Lemma resolve_first_match_default_last_witness :
  find_idle_time
    [mk_idle_time (Some "sdb") 60 false; mk_idle_time (Some "sdc") 0 true;
     mk_idle_time (Some "sdb") 30 false; mk_idle_time None 600 false] "sdb" = Some 60 /\
  find_idle_time
    [mk_idle_time (Some "sdb") 60 false; mk_idle_time (Some "sdc") 0 true;
     mk_idle_time (Some "sdb") 30 false; mk_idle_time None 600 false] "sd" = Some 600.
Proof.
  destruct (resolve_first_match_default_last
              (mk_startup_os 10 (fun p => if String.eqb p "/dev/disk/by-label/backup"
                                          then Some "/dev/sdc1" else None)
                             OpenFails ForkChild ForkChild)
              9
              [opt_a "sdb"; opt_i "30"; opt_a "/dev/disk/by-label/backup"; opt_i "0";
               opt_a "sdb"; opt_i "60"; opt_l "/var/log/hd-idle"]
              []
              (mk_state
                 [mk_idle_time (Some "sdb") 60 false; mk_idle_time (Some "sdc") 0 true;
                  mk_idle_time (Some "sdb") 30 false; mk_idle_time None 600 false]
                 [] "/var/log/hd-idle" true 0 0 5))
    as (named & dflt & Hroot & Hd & Hn & Hfind & _ & Horder).
  - reflexivity.
  - split.
    + destruct (Horder [opt_a "sdb"; opt_i "30"; opt_a "/dev/disk/by-label/backup";
                        opt_i "0"]
                       "sdb" [opt_i "60"; opt_l "/var/log/hd-idle"] []
                       (mk_state
                          [mk_idle_time (Some "sdc") 0 true;
                           mk_idle_time (Some "sdb") 30 false;
                           mk_idle_time None 600 false]
                          [] "/dev/null" false 0 0 6))
        as (later & e & name & Hr & Hname & Hlen & Hwin).
      * reflexivity.
      * reflexivity.
      * destruct later as [| x later]; [| discriminate Hlen].
        injection Hr as <-. injection Hname as <-.
        apply Hwin. constructor.
    + refine (eq_trans (Hfind "sd") _). simpl in Hroot.
      destruct named as [| e1 [| e2 [| e3 [| e4 named]]]];
        try discriminate Hroot.
      * injection Hroot as <- <- <- <-. reflexivity.
      * exfalso. apply (f_equal (@length _)) in Hroot. simpl in Hroot.
        rewrite length_app in Hroot. simpl in Hroot. lia.
Defined.

(** ** Leaving the main loop *)

Lemma stat_open_app evs1 : forall open evs2,
  stat_open open (evs1 ++ evs2) = stat_open (stat_open open evs1) evs2.
Proof.
  induction evs1 as [| e evs1 IH]; intros open evs2; [reflexivity |].
  destruct e; simpl; apply IH.
Qed.

Lemma stat_open_other evs : forall open,
  (forall e, e ∈ evs -> is_stat_file_event e = false) ->
  stat_open open evs = open.
Proof.
  induction evs as [| e evs IH]; intros open H; [reflexivity |].
  assert (He : is_stat_file_event e = false) by (apply H; left).
  assert (Hrest : forall e', e' ∈ evs -> is_stat_file_event e' = false)
    by (intros e' He'; apply H; right; exact He').
  destruct e; simpl; try discriminate He; apply IH; exact Hrest.
Qed.

Lemma spindown_disk_no_stat_file dbg name r e :
  e ∈ spindown_disk dbg name r -> is_stat_file_event e = false.
Proof.
  unfold spindown_disk, dprintf. intros H.
  repeat match type of H with
         | context [if ?c then _ else _] => destruct c
         | context [match ?x with OpenFails => _ | _ => _ end] => destruct x
         end;
    simpl in H; elem_cases H; reflexivity.
Qed.

Lemma log_spinup_no_stat_file lf ds lg e :
  e ∈ log_spinup lf ds lg -> is_stat_file_event e = false.
Proof.
  unfold log_spinup. intros H.
  repeat match type of H with context [if ?c then _ else _] => destruct c end;
    elem_cases H; reflexivity.
Qed.

(** How a line can end the process: only through the failed allocation of
    a record for a new disk. *)
Lemma process_line_exit st ln evs rc :
  process_line st ln = (evs, Exit rc) ->
  rc = 2 /\ heap st = O /\ Eprintf "out of memory" ∈ evs /\
  exists name reads writes,
    sl_sscanf ln = Some (name, reads, writes) /\
    get_diskstats (ds_root st) name = None.
Proof.
  rewrite process_line_unfold.
  destruct (sl_sscanf ln) as [[[n reads] writes] |]; simpl; [| discriminate].
  destruct (fst (is_scsi_disk n (os_stat (sl_os ln)))); [| discriminate].
  destruct (get_diskstats (ds_root st) n) as [[i ds] |] eqn:Eg; [discriminate |].
  unfold malloc. destruct (heap st) eqn:Eh; [| discriminate].
  intros [= <- <-]. repeat split.
  - apply elem_of_app. right. left.
  - exists n, reads, writes. split; [reflexivity | exact Eg].
Qed.

Lemma process_line_no_stat_file st ln e :
  e ∈ fst (process_line st ln) -> is_stat_file_event e = false.
Proof.
  rewrite process_line_unfold. unfold is_scsi_disk, dprintf.
  destruct (sl_sscanf ln) as [[[n reads] writes] |]; simpl;
    [| intros H; elem_cases H].
  destruct (os_stat (sl_os ln)) as [[major minor] |]; simpl;
    [| intros H; elem_cases H; reflexivity].
  destruct ((major =? 8) && (Z.rem minor 16 =? 0)); [| intros H; elem_cases H].
  destruct (get_diskstats (ds_root st) n) as [[i ds] |].
  - simpl. intros H. apply elem_of_app in H as [H | H].
    + destruct (debug st =? 0); elem_cases H; reflexivity.
    + apply update_disk_events in H as [H | H].
      * eapply spindown_disk_no_stat_file. exact H.
      * eapply log_spinup_no_stat_file. exact H.
  - destruct (malloc st); simpl; intros H;
      destruct (debug st =? 0); elem_cases H; reflexivity.
Qed.

Lemma read_stats_no_stat_file lines : forall st e,
  e ∈ fst (read_stats st lines) -> is_stat_file_event e = false.
Proof.
  induction lines as [| ln rest IH]; intros st e H; [simpl in H; elem_cases H |].
  rewrite read_stats_cons in H.
  pose proof (process_line_no_stat_file st ln e) as Hl.
  destruct (process_line st ln) as [evs [st' | rc]]; simpl in H, Hl; [| auto].
  apply elem_of_app in H as [H | H]; [auto | eauto].
Qed.

Lemma read_stats_exit lines : forall st evs rc,
  read_stats st lines = (evs, Exit rc) ->
  rc = 2 /\ Eprintf "out of memory" ∈ evs.
Proof.
  induction lines as [| ln rest IH]; intros st evs rc H; [discriminate |].
  rewrite read_stats_cons in H.
  destruct (process_line st ln) as [evs1 [st1 | rc1]] eqn:El.
  - destruct (read_stats st1 rest) as [evs2 r2] eqn:Er. simpl in H.
    injection H as <- ->. destruct (IH _ _ _ Er) as [-> Hin].
    split; [reflexivity |]. apply elem_of_app. right. exact Hin.
  - injection H as <- <-.
    apply process_line_exit in El as (-> & _ & Hin & _). split; [reflexivity | exact Hin].
Qed.

Lemma poll_loop_app sleep pre : forall st rest,
  poll_loop sleep st (pre ++ rest) =
    match poll_loop sleep st pre with
    | (evs, Running st') =>
        (evs ++ fst (poll_loop sleep st' rest), snd (poll_loop sleep st' rest))
    | other => other
    end.
Proof.
  induction pre as [| tk pre IH]; intros st rest.
  - simpl. destruct (poll_loop sleep st rest). reflexivity.
  - rewrite <- app_comm_cons, !poll_loop_cons.
    destruct (tk_break1 tk); [reflexivity |].
    destruct (tk_fopen tk) as [lines |]; [| reflexivity].
    destruct (read_stats st lines) as [evs [st' | rc]]; [| reflexivity].
    destruct (tk_break2 tk); [reflexivity |].
    rewrite IH.
    destruct (poll_loop sleep st' pre) as [evs' [| |]]; simpl; try reflexivity.
    rewrite <- app_assoc. reflexivity.
Qed.

Lemma poll_loop_result sleep ticks : forall st evs r,
  poll_loop sleep st ticks = (evs, r) ->
  match r with
  | Running _ => Forall flags_clear ticks /\ stat_open false evs = false
  | Broke _ =>
      stat_open false evs = false /\
      exists pre tk post,
        ticks = pre ++ tk :: post /\ Forall flags_clear pre /\
        (tk_break1 tk = true \/
         (tk_break1 tk = false /\ tk_break2 tk = true /\
          exists lines, tk_fopen tk = Some lines))
  | Stopped rc =>
      rc = 2 /\
      exists pre tk post,
        ticks = pre ++ tk :: post /\ Forall flags_clear pre /\
        tk_break1 tk = false /\
        (tk_fopen tk = None \/ Eprintf "out of memory" ∈ evs)
  end.
Proof.
  induction ticks as [| tk rest IH]; intros st evs r H.
  - injection H as <- <-. split; [constructor | reflexivity].
  - rewrite poll_loop_cons in H.
    destruct (tk_break1 tk) eqn:E1.
    { injection H as <- <-. split; [reflexivity |].
      exists [], tk, rest. repeat split; [constructor | left; exact E1]. }
    destruct (tk_fopen tk) as [lines |] eqn:Ef.
    2:{ injection H as <- <-. split; [reflexivity |].
        exists [], tk, rest. repeat split; [constructor | exact E1 | left; exact Ef]. }
    pose proof (read_stats_no_stat_file lines st) as Hquiet.
    pose proof (read_stats_exit lines st) as Hexit.
    destruct (read_stats st lines) as [evs1 [st1 | rc]]; simpl in Hquiet.
    2:{ injection H as <- <-. destruct (Hexit _ _ eq_refl) as [-> Hin].
        split; [reflexivity |].
        exists [], tk, rest. repeat split; [constructor | exact E1 |].
        right. right. right. exact Hin. }
    destruct (tk_break2 tk) eqn:E2.
    { injection H as <- <-. split.
      - simpl. rewrite stat_open_app, (stat_open_other evs1) by exact Hquiet.
        reflexivity.
      - exists [], tk, rest. repeat split; [constructor |].
        right. repeat split; [exact E1 | exact E2 | eauto]. }
    destruct (poll_loop sleep st1 rest) as [evs2 r2] eqn:Erest. simpl in H.
    injection H as <- <-. specialize (IH _ _ _ Erest).
    assert (Hopen : forall evs',
              stat_open false
                (ReadBreakLoop false :: FopenStat true :: evs1 ++
                 FcloseStat :: ReadBreakLoop false :: Sleep sleep :: evs') =
              stat_open false evs').
    { intros evs'. simpl.
      rewrite stat_open_app, (stat_open_other evs1) by exact Hquiet. reflexivity. }
    assert (Hclear : flags_clear tk) by (split; assumption).
    destruct r2 as [st2 | rc | st2].
    + destruct IH as (Ho & pre & tk' & post & -> & Hpre & Hflag).
      split; [rewrite Hopen; exact Ho |].
      exists (tk :: pre), tk', post. repeat split; [constructor; assumption | exact Hflag].
    + destruct IH as (-> & pre & tk' & post & -> & Hpre & Hb & Hwhy).
      split; [reflexivity |].
      exists (tk :: pre), tk', post.
      repeat split; [constructor; assumption | exact Hb |].
      destruct Hwhy as [Hnone | Hin]; [left; exact Hnone | right].
      right. right. apply elem_of_app. right.
      right. right. right. exact Hin.
    + destruct IH as [Hall Ho].
      split; [constructor; assumption | rewrite Hopen; exact Ho].
Qed.

(** C9, amended.  The main loop is left through [break], with exit status
    0, exactly when one of its two checkpoints (line 298, before the
    statistics file is opened, and line 374, after it has been read to the
    end and closed) reads the flag as set: then the statistics file is
    closed, and no earlier checkpoint saw the flag; conversely the first
    checkpoint that sees the flag ends the loop there.  What [log_spinup]
    reads of the flag in the middle of an iteration never ends the loop.
    The loop is otherwise left only with status 2, by one of the two fatal
    errors: the statistics file cannot be opened, or the allocation of a
    record for a new disk fails.  While neither happens the loop keeps
    running, with the statistics file closed between iterations. *)
Theorem loop_left_at_checkpoints_or_fatal sleep st ticks :
  (forall evs r,
     poll_loop sleep st ticks = (evs, r) ->
     match r with
     | Running _ => Forall flags_clear ticks /\ stat_open false evs = false
     | Broke _ =>
         stat_open false evs = false /\
         exists pre tk post,
           ticks = pre ++ tk :: post /\ Forall flags_clear pre /\
           (tk_break1 tk = true \/
            (tk_break1 tk = false /\ tk_break2 tk = true /\
             exists lines, tk_fopen tk = Some lines))
     | Stopped rc =>
         rc = 2 /\
         exists pre tk post,
           ticks = pre ++ tk :: post /\ Forall flags_clear pre /\
           tk_break1 tk = false /\
           (tk_fopen tk = None \/ Eprintf "out of memory" ∈ evs)
     end) /\
  (forall pre tk post evs1 st1,
     ticks = pre ++ tk :: post ->
     poll_loop sleep st pre = (evs1, Running st1) ->
     (tk_break1 tk = true ->
      poll_loop sleep st ticks = (evs1 ++ [ReadBreakLoop true], Broke st1)) /\
     (forall lines evs2 st2,
        tk_break1 tk = false ->
        tk_fopen tk = Some lines ->
        read_stats st1 lines = (evs2, Next st2) ->
        tk_break2 tk = true ->
        poll_loop sleep st ticks =
          (evs1 ++ ReadBreakLoop false :: FopenStat true :: evs2 ++
           [FcloseStat; ReadBreakLoop true], Broke st2))) /\
  (forall os argv evs0,
     startup os argv = (evs0, Next st) ->
     sleep = sleep_time (it_root st) ->
     snd (main os argv ticks) =
       match snd (poll_loop sleep st ticks) with
       | Broke _ => Some 0
       | Stopped rc => Some rc
       | Running _ => None
       end).
Proof.
  split; [| split].
  - intros evs r. apply poll_loop_result.
  - intros pre tk post evs1 st1 -> Hpre. split.
    + intros E1. rewrite poll_loop_app, Hpre, poll_loop_cons, E1. reflexivity.
    + intros lines evs2 st2 E1 Ef Hr E2.
      rewrite poll_loop_app, Hpre, poll_loop_cons, E1, Ef, Hr, E2. reflexivity.
  - intros os argv evs0 Hs ->. unfold main. rewrite Hs.
    destruct (poll_loop (sleep_time (it_root st)) st ticks) as [evs' []];
      reflexivity.
Qed.

Lemma loop_left_at_checkpoints_or_fatal_witness :
  poll_loop 3 registry_sdb
    [mk_tick_os false (Some [line_of "sdb" (sdb_at 110 7 9)]) false;
     mk_tick_os false (Some [line_of "sdb" (sdb_at 113 7 9)]) true;
     mk_tick_os false None false] =
    ([ReadBreakLoop false; FopenStat true; FcloseStat; ReadBreakLoop false; Sleep 3;
      ReadBreakLoop false; FopenStat true; FcloseStat; ReadBreakLoop true],
     Broke registry_sdb) /\
  stat_open false
    [ReadBreakLoop false; FopenStat true; FcloseStat; ReadBreakLoop false; Sleep 3;
     ReadBreakLoop false; FopenStat true; FcloseStat; ReadBreakLoop true] = false /\
  poll_loop 60 (initial_state 9) [mk_tick_os true None false] =
    ([ReadBreakLoop true], Broke (initial_state 9)) /\
  snd (main (mk_startup_os 10 (fun _ => None) OpenFails ForkChild ForkChild) []
            [mk_tick_os true None false]) = Some 0.
Proof.
  split; [| split; [| split]].
  - destruct (loop_left_at_checkpoints_or_fatal 3 registry_sdb
                [mk_tick_os false (Some [line_of "sdb" (sdb_at 110 7 9)]) false;
                 mk_tick_os false (Some [line_of "sdb" (sdb_at 113 7 9)]) true;
                 mk_tick_os false None false])
      as (_ & Hfirst & _).
    destruct (Hfirst [mk_tick_os false (Some [line_of "sdb" (sdb_at 110 7 9)]) false]
                     (mk_tick_os false (Some [line_of "sdb" (sdb_at 113 7 9)]) true)
                     [mk_tick_os false None false]
                     [ReadBreakLoop false; FopenStat true; FcloseStat;
                      ReadBreakLoop false; Sleep 3]
                     registry_sdb eq_refl eq_refl) as [_ Hafter].
    exact (Hafter [line_of "sdb" (sdb_at 113 7 9)] [] registry_sdb
             eq_refl eq_refl eq_refl eq_refl).
  - destruct (loop_left_at_checkpoints_or_fatal 3 registry_sdb
                [mk_tick_os false (Some [line_of "sdb" (sdb_at 110 7 9)]) false;
                 mk_tick_os false (Some [line_of "sdb" (sdb_at 113 7 9)]) true;
                 mk_tick_os false None false])
      as (Hshape & _).
    exact (proj1 (Hshape _ (Broke registry_sdb) eq_refl)).
  - destruct (loop_left_at_checkpoints_or_fatal 60 (initial_state 9)
                [mk_tick_os true None false]) as (_ & Hfirst & _).
    destruct (Hfirst [] (mk_tick_os true None false) [] [] (initial_state 9)
                     eq_refl eq_refl) as [Hhead _].
    exact (Hhead eq_refl).
  - destruct (loop_left_at_checkpoints_or_fatal 60 (initial_state 9)
                [mk_tick_os true None false]) as (_ & _ & Hmain).
    exact (Hmain (mk_startup_os 10 (fun _ => None) OpenFails ForkChild ForkChild)
                 [] [Daemonize] eq_refl eq_refl).
Defined.

(** The flag read as set by [log_spinup] in the middle of an iteration
    does not end the loop; the checkpoint after the file is closed does. *)
Example flag_seen_by_log_spinup :
  poll_loop 3 registry_sdb_stopped
    [mk_tick_os false (Some [line_of "sdb" sdb_wakes_signal]) false] =
    ([ReadBreakLoop false; FopenStat true;
      LogLine "/var/log/hd-idle" (mk_log_entry 200 "sdb" 30 70);
      ReadBreakLoop true;
      FcloseStat; ReadBreakLoop false; Sleep 3],
     Running (set_ds_root [mk_disk_stats "sdb" 30 200 130 200 8 9 false]
                          registry_sdb_stopped)).
Proof. reflexivity. Qed.

(** C9 as stated fails: the loop is also left, with status 2 and without
    any checkpoint having seen the flag, when the statistics file cannot be
    opened and when there is no memory for the record of a new disk; in
    the second case the statistics file is still open. *)
Lemma loop_exit_counterexample :
  main (mk_startup_os 1 (fun _ => None) OpenFails ForkChild ForkChild) [opt_f]
       [mk_tick_os false (Some [line_of "sdb" (sdb_at 100 7 9)]) false] =
    ([ReadBreakLoop false; FopenStat true; Eprintf "out of memory"], Some 2) /\
  stat_open false [ReadBreakLoop false; FopenStat true; Eprintf "out of memory"] = true /\
  main plain_os [opt_f] [mk_tick_os false None false] =
    ([ReadBreakLoop false; FopenStat false; Perror "/proc/diskstats"], Some 2).
Proof.
  repeat split.
Qed.

(** ** The registry updates each record by [update_disk], and only by the
    lines of its own disk *)

Lemma get_diskstats_insert l name : forall i d d',
  get_diskstats l name = Some (i, d) ->
  ds_name d' = name ->
  get_diskstats (<[i := d']> l) name = Some (i, d').
Proof.
  induction l as [| d0 l IH]; intros i d d' H Hn; simpl in H; [discriminate |].
  destruct (String.eqb_spec (ds_name d0) name) as [E | E].
  - injection H as <- <-. simpl. rewrite Hn, String.eqb_refl. reflexivity.
  - destruct (get_diskstats l name) as [[j dj] |] eqn:Ej; [| discriminate].
    injection H as <- <-. simpl.
    destruct (String.eqb_spec (ds_name d0) name); [contradiction |].
    rewrite (IH j dj d' eq_refl Hn). reflexivity.
Qed.

Lemma get_diskstats_insert_other l name : forall i d d',
  l !! i = Some d ->
  ds_name d <> name ->
  ds_name d' = ds_name d ->
  get_diskstats (<[i := d']> l) name = get_diskstats l name.
Proof.
  induction l as [| d0 l IH]; intros i d d' Hi Hne Hsame; [reflexivity |].
  destruct i as [| i]; simpl in *.
  - injection Hi as ->. rewrite Hsame.
    destruct (String.eqb_spec (ds_name d) name); [contradiction | reflexivity].
  - rewrite (IH i d d' Hi Hne Hsame). reflexivity.
Qed.

Lemma spindown_calls_for_app name evs1 evs2 :
  spindown_calls_for name (evs1 ++ evs2) =
    spindown_calls_for name evs1 ++ spindown_calls_for name evs2.
Proof. apply List.filter_app. Qed.

Lemma spindown_calls_for_own name evs :
  (forall e, e ∈ evs -> device_of e = None \/ device_of e = Some name) ->
  spindown_calls_for name evs = spindown_calls evs.
Proof.
  induction evs as [| e evs IH]; intros H; [reflexivity |].
  assert (He : device_of e = None \/ device_of e = Some name) by (apply H; left).
  assert (IH' : spindown_calls_for name evs = spindown_calls evs)
    by (apply IH; intros e' He'; apply H; right; exact He').
  unfold spindown_calls_for, spindown_calls in *.
  destruct e; simpl; try exact IH'.
  destruct He as [He | He]; [discriminate |]. injection He as ->.
  rewrite String.eqb_refl, IH'. reflexivity.
Qed.

Lemma spindown_calls_for_none name evs :
  (forall e, e ∈ evs -> device_of e <> Some name) ->
  spindown_calls_for name evs = [].
Proof.
  induction evs as [| e evs IH]; intros H; [reflexivity |].
  assert (He : device_of e <> Some name) by (apply H; left).
  assert (IH' : spindown_calls_for name evs = [])
    by (apply IH; intros e' He'; apply H; right; exact He').
  unfold spindown_calls_for in *.
  destruct e; simpl; try exact IH'.
  destruct (String.eqb_spec name0 name) as [-> | _]; [| exact IH'].
  exfalso. apply He. reflexivity.
Qed.

Lemma log_lines_for_app name evs1 evs2 :
  log_lines_for name (evs1 ++ evs2) =
    log_lines_for name evs1 ++ log_lines_for name evs2.
Proof. apply List.filter_app. Qed.

Lemma log_lines_for_own name evs :
  (forall e, e ∈ evs -> logged_disk e = None \/ logged_disk e = Some name) ->
  log_lines_for name evs = log_lines evs.
Proof.
  induction evs as [| e evs IH]; intros H; [reflexivity |].
  assert (He : logged_disk e = None \/ logged_disk e = Some name) by (apply H; left).
  assert (IH' : log_lines_for name evs = log_lines evs)
    by (apply IH; intros e' He'; apply H; right; exact He').
  unfold log_lines_for, log_lines in *.
  destruct e; simpl; try exact IH'.
  destruct He as [He | He]; [discriminate |]. injection He as ->.
  rewrite String.eqb_refl, IH'. reflexivity.
Qed.

Lemma log_lines_for_none name evs :
  (forall e, e ∈ evs -> logged_disk e <> Some name) ->
  log_lines_for name evs = [].
Proof.
  induction evs as [| e evs IH]; intros H; [reflexivity |].
  assert (He : logged_disk e <> Some name) by (apply H; left).
  assert (IH' : log_lines_for name evs = [])
    by (apply IH; intros e' He'; apply H; right; exact He').
  unfold log_lines_for in *.
  destruct e; simpl; try exact IH'.
  destruct (String.eqb_spec (le_disk e) name) as [E | _]; [| exact IH'].
  exfalso. apply He. simpl. rewrite E. reflexivity.
Qed.

Lemma dprintf_logged dbg e0 e :
  logged_disk e0 = None -> e ∈ dprintf dbg e0 -> logged_disk e = None.
Proof.
  unfold dprintf. intros H0 H. destruct (dbg =? 0); elem_cases H. exact H0.
Qed.

Lemma is_scsi_disk_logged name st e :
  e ∈ snd (is_scsi_disk name st) -> logged_disk e = None.
Proof.
  unfold is_scsi_disk. intros H. destruct st as [[major minor] |]; simpl in H;
    elem_cases H. reflexivity.
Qed.

Lemma spindown_disk_logged dbg name r e :
  e ∈ spindown_disk dbg name r -> logged_disk e = None.
Proof.
  unfold spindown_disk, dprintf. intros H.
  repeat match type of H with
         | context [if ?c then _ else _] => destruct c
         | context [match ?x with OpenFails => _ | _ => _ end] => destruct x
         end;
    simpl in H; elem_cases H; reflexivity.
Qed.

Lemma log_spinup_logged lf ds lg e :
  e ∈ log_spinup lf ds lg -> logged_disk e = None \/ logged_disk e = Some (ds_name ds).
Proof.
  unfold log_spinup. intros H.
  repeat match type of H with context [if ?c then _ else _] => destruct c end;
    elem_cases H; simpl; auto.
Qed.

(** The log lines of an update are about the record's own disk. *)
Lemma update_disk_logged dbg hl lf now r w sg lg ds e :
  e ∈ snd (update_disk dbg hl lf now r w sg lg ds) ->
  logged_disk e = None \/ logged_disk e = Some (ds_name ds).
Proof.
  intros H. apply update_disk_events in H as [H | H].
  - left. eapply spindown_disk_logged. exact H.
  - eapply log_spinup_logged. exact H.
Qed.

Lemma record_of_Some name st ds :
  record_of name st = Some ds ->
  exists i, get_diskstats (ds_root st) name = Some (i, ds).
Proof.
  unfold record_of. destruct (get_diskstats (ds_root st) name) as [[i d] |];
    [| discriminate].
  intros [= ->]. exists i. reflexivity.
Qed.

(** One line: the record of [name] is updated by [update_disk] when the
    line is for that disk and left alone otherwise; [spindown_disk] is
    called for [name], and log lines about [name] are written, only by that
    update. *)
Lemma process_line_record name st ln evs st' ds :
  process_line st ln = (evs, Next st') ->
  record_of name st = Some ds ->
  let r := match line_for name ln with
           | Some o => tick (debug st) (have_logfile st) (logfile st) ds o
           | None => (ds, [])
           end in
  record_of name st' = Some (fst r) /\
  spindown_calls_for name evs = spindown_calls (snd r) /\
  log_lines_for name evs = log_lines (snd r) /\
  debug st' = debug st /\ have_logfile st' = have_logfile st /\
  logfile st' = logfile st.
Proof.
  intros H Hrec. destruct (record_of_Some _ _ _ Hrec) as [i Hget].
  rewrite process_line_unfold in H. unfold line_for.
  destruct (sl_sscanf ln) as [[[n reads] writes] |]; simpl in *.
  2:{ injection H as <- <-. repeat split. exact Hrec. }
  destruct (fst (is_scsi_disk n (os_stat (sl_os ln)))) eqn:Es.
  2:{ rewrite andb_false_r. injection H as <- <-. repeat split; [exact Hrec | |].
      - simpl. apply spindown_calls_for_none.
        intros e He. apply is_scsi_disk_device in He. congruence.
      - simpl. apply log_lines_for_none.
        intros e He. apply is_scsi_disk_logged in He. congruence. }
  rewrite andb_true_r.
  destruct (String.eqb_spec n name) as [-> | Hne].
  - rewrite Hget in H. injection H as <- <-. unfold tick. simpl.
    destruct (get_diskstats_Some _ _ _ _ Hget) as [_ Hn].
    repeat split.
    + unfold record_of. simpl.
      erewrite get_diskstats_insert; [reflexivity | exact Hget |].
      rewrite update_disk_name. exact Hn.
    + rewrite spindown_calls_for_app, spindown_calls_for_none.
      * simpl. apply spindown_calls_for_own.
        intros e He. apply update_disk_device in He as [He | [He _]];
          [left; exact He | right].
        rewrite He, Hn. reflexivity.
      * intros e He. apply dprintf_device in He; [congruence | reflexivity].
    + rewrite log_lines_for_app, log_lines_for_none.
      * simpl. apply log_lines_for_own.
        intros e He. apply update_disk_logged in He. rewrite Hn in He. exact He.
      * intros e He. apply dprintf_logged in He; [congruence | reflexivity].
  - destruct (get_diskstats (ds_root st) n) as [[j dj] |] eqn:Ej.
    + injection H as <- <-. apply get_diskstats_Some in Ej as [Hj Hnj].
      repeat split.
      * unfold record_of. simpl.
        erewrite get_diskstats_insert_other;
          [rewrite Hget; reflexivity | exact Hj | congruence |].
        apply update_disk_name.
      * simpl. apply spindown_calls_for_none.
        intros e He. apply elem_of_app in He as [He | He].
        -- apply dprintf_device in He; [congruence | reflexivity].
        -- apply update_disk_device in He as [He | [He _]]; congruence.
      * simpl. apply log_lines_for_none.
        intros e He. apply elem_of_app in He as [He | He].
        -- apply dprintf_logged in He; [congruence | reflexivity].
        -- apply update_disk_logged in He as [He | He]; congruence.
    + destruct (malloc st) as [st1 |] eqn:Em; [| discriminate].
      injection H as <- <-.
      apply malloc_fields in Em as (Eit & Eds & Elf & Ehl & _ & Edbg & _).
      repeat split; try assumption.
      * assert (Hnew : forall d, ds_name d = n ->
                  get_diskstats (d :: ds_root st) name = Some (S i, ds)).
        { intros d Hd. simpl. rewrite Hd.
          destruct (String.eqb_spec n name); [contradiction |].
          rewrite Hget. reflexivity. }
        unfold record_of. cbn [ds_root set_ds_root]. rewrite Eds.
        rewrite Hnew; [reflexivity |].
        destruct (find_idle_time (it_root st1) n); reflexivity.
      * simpl. apply spindown_calls_for_none.
        intros e He. apply dprintf_device in He; [congruence | reflexivity].
      * simpl. apply log_lines_for_none.
        intros e He. apply dprintf_logged in He; [congruence | reflexivity].
Qed.

(** One read of the statistics file: the record of [name] goes through the
    ticks of its own lines. *)
Lemma read_stats_record name lines : forall st evs st' ds,
  read_stats st lines = (evs, Next st') ->
  record_of name st = Some ds ->
  let r := run_ticks (debug st) (have_logfile st) (logfile st) ds
                     (observations name lines) in
  record_of name st' = Some (fst r) /\
  spindown_calls_for name evs = spindown_calls (concat (snd r)) /\
  log_lines_for name evs = log_lines (concat (snd r)) /\
  debug st' = debug st /\ have_logfile st' = have_logfile st /\
  logfile st' = logfile st.
Proof.
  induction lines as [| ln rest IH]; intros st evs st' ds H Hrec.
  - injection H as <- <-. simpl. repeat split. exact Hrec.
  - rewrite read_stats_cons in H.
    destruct (process_line st ln) as [evs1 [st1 | rc]] eqn:El; [| discriminate].
    destruct (read_stats st1 rest) as [evs2 r2] eqn:Er. simpl in H.
    injection H as <- ->.
    destruct (process_line_record name _ _ _ _ _ El Hrec)
      as (Hrec1 & Hcalls1 & Hlog1 & Edbg & Ehl & Elf).
    destruct (IH _ _ _ _ Er Hrec1) as (Hrec2 & Hcalls2 & Hlog2 & Edbg2 & Ehl2 & Elf2).
    rewrite Edbg, Ehl, Elf in Hrec2, Hcalls2, Hlog2.
    unfold observations in *.
    change (omap (line_for name) (ln :: rest))
      with (match line_for name ln with
            | Some o => o :: omap (line_for name) rest
            | None => omap (line_for name) rest
            end).
    set (obs' := omap (line_for name) rest) in *.
    rewrite spindown_calls_for_app, Hcalls1, Hcalls2.
    rewrite log_lines_for_app, Hlog1, Hlog2.
    destruct (line_for name ln) as [o |].
    + cbn [run_ticks].
      destruct (tick (debug st) (have_logfile st) (logfile st) ds o) as [ds1 evs_o].
      cbn [fst snd] in *.
      destruct (run_ticks (debug st) (have_logfile st) (logfile st) ds1 obs')
        as [ds2 evss].
      cbn [fst snd concat] in *. unfold spindown_calls, log_lines.
      rewrite !List.filter_app.
      repeat split; try congruence.
    + cbn [fst snd app] in *. repeat split; try congruence.
Qed.

(** The main loop: until it is left, the record of [name] goes through the
    ticks of its own lines, in the order they are read. *)
Lemma poll_loop_record name sleep ticks : forall st evs r st' ds,
  poll_loop sleep st ticks = (evs, r) ->
  r = Running st' \/ r = Broke st' ->
  record_of name st = Some ds ->
  let rr := run_ticks (debug st) (have_logfile st) (logfile st) ds
                      (observations name (lines_read ticks)) in
  record_of name st' = Some (fst rr) /\
  spindown_calls_for name evs = spindown_calls (concat (snd rr)) /\
  log_lines_for name evs = log_lines (concat (snd rr)).
Proof.
  induction ticks as [| tk rest IH]; intros st evs r st' ds H Hr Hrec.
  - injection H as <- <-. destruct Hr as [[= <-] | [=]].
    repeat split. exact Hrec.
  - rewrite poll_loop_cons in H. simpl.
    destruct (tk_break1 tk).
    { injection H as <- <-. destruct Hr as [[=] | [= <-]].
      repeat split. exact Hrec. }
    destruct (tk_fopen tk) as [lines |].
    2:{ injection H as <- <-. destruct Hr as [[=] | [=]]. }
    destruct (read_stats st lines) as [evs1 [st1 | rc]] eqn:Erd.
    2:{ injection H as <- <-. destruct Hr as [[=] | [=]]. }
    destruct (read_stats_record name _ _ _ _ _ Erd Hrec)
      as (Hrec1 & Hcalls1 & Hlog1 & Edbg & Ehl & Elf).
    destruct (tk_break2 tk).
    { injection H as <- <-. destruct Hr as [[=] | [= <-]]. rewrite app_nil_r.
      split; [exact Hrec1 | split].
      - change (spindown_calls_for name (evs1 ++ [FcloseStat; ReadBreakLoop true]) =
                spindown_calls (concat (snd (run_ticks (debug st) (have_logfile st)
                  (logfile st) ds (observations name lines))))).
        rewrite spindown_calls_for_app, app_nil_r. exact Hcalls1.
      - change (log_lines_for name (evs1 ++ [FcloseStat; ReadBreakLoop true]) =
                log_lines (concat (snd (run_ticks (debug st) (have_logfile st)
                  (logfile st) ds (observations name lines))))).
        rewrite log_lines_for_app, app_nil_r. exact Hlog1. }
    destruct (poll_loop sleep st1 rest) as [evs2 r2] eqn:Erest. simpl in H.
    injection H as <- <-.
    destruct (IH _ _ _ _ _ Erest Hr Hrec1) as (Hrec2 & Hcalls2 & Hlog2).
    rewrite Edbg, Ehl, Elf in Hrec2, Hcalls2, Hlog2.
    unfold observations in *. rewrite omap_app, run_ticks_app.
    destruct (run_ticks (debug st) (have_logfile st) (logfile st) ds
                        (omap (line_for name) lines)) as [ds1 evss1].
    simpl in Hrec1, Hcalls1, Hlog1, Hrec2, Hcalls2, Hlog2.
    destruct (run_ticks (debug st) (have_logfile st) (logfile st) ds1
                        (omap (line_for name) (lines_read rest))) as [ds2 evss2].
    simpl in *. split; [exact Hrec2 | split].
    + change (spindown_calls_for name
                (evs1 ++ [FcloseStat; ReadBreakLoop false; Sleep sleep] ++ evs2) =
              spindown_calls (concat (evss1 ++ evss2))).
      rewrite !spindown_calls_for_app, Hcalls1, Hcalls2, concat_app.
      unfold spindown_calls. rewrite List.filter_app. reflexivity.
    + change (log_lines_for name
                (evs1 ++ [FcloseStat; ReadBreakLoop false; Sleep sleep] ++ evs2) =
              log_lines (concat (evss1 ++ evss2))).
      rewrite !log_lines_for_app, Hlog1, Hlog2, concat_app.
      unfold log_lines. rewrite List.filter_app. reflexivity.
Qed.

(** ** One spindown per idle episode *)

(** C1.  A disk record with idle time T > 0 is shown ticks whose counters
    equal the stored ones.  If the disk is running, [spindown_disk] is
    called exactly once, at the first tick with now - last_io >= T (equality
    included); that tick sets spindown to now and spun_down to true; no other
    tick of the sequence, before or after, does anything.  If no tick is due
    nothing happens, and a disk that is already spun down is left alone by
    every such tick.  The same holds inside the main loop, where the ticks
    of the record are the lines of its disk in the order they are read:
    among all events of the loop there is exactly one call of
    [spindown_disk] for the disk, and the loop leaves the record marked as
    spun down at the time of the first due tick. *)
Theorem spindown_once_at_first_due_tick ds obs :
  0 < ds_idle_time ds ->
  Forall (unchanged ds) obs ->
  (forall debug have_logfile logfile,
     (ds_spun_down ds = false ->
      Forall (fun o => ~ due ds o) obs ->
      run_ticks debug have_logfile logfile ds obs = (ds, repeat [] (length obs))) /\
     (forall pre o post,
        ds_spun_down ds = false ->
        obs = pre ++ o :: post ->
        Forall (fun o' => ~ due ds o') pre ->
        due ds o ->
        run_ticks debug have_logfile logfile ds pre = (ds, repeat [] (length pre)) /\
        tick debug have_logfile logfile ds o =
          (marked_spun_down (ob_now o) ds,
           spindown_disk debug (ds_name ds) (os_sg (ob_os o))) /\
        ds_spindown (marked_spun_down (ob_now o) ds) = ob_now o /\
        ds_spun_down (marked_spun_down (ob_now o) ds) = true /\
        run_ticks debug have_logfile logfile ds obs =
          (marked_spun_down (ob_now o) ds,
           repeat [] (length pre) ++
           spindown_disk debug (ds_name ds) (os_sg (ob_os o)) ::
           repeat [] (length post)) /\
        spindown_calls (concat (snd (run_ticks debug have_logfile logfile ds obs))) =
          [OpenDev (ds_name ds)]) /\
     (ds_spun_down ds = true ->
      run_ticks debug have_logfile logfile ds obs = (ds, repeat [] (length obs)))) /\
  (forall name sleep st ticks evs r st' pre o post,
     poll_loop sleep st ticks = (evs, r) ->
     r = Running st' \/ r = Broke st' ->
     record_of name st = Some ds ->
     ds_spun_down ds = false ->
     observations name (lines_read ticks) = obs ->
     obs = pre ++ o :: post ->
     Forall (fun o' => ~ due ds o') pre ->
     due ds o ->
     spindown_calls_for name evs = [OpenDev name] /\
     record_of name st' = Some (marked_spun_down (ob_now o) ds)).
Proof.
  intros HT Hall.
  assert (Hnz : ds_idle_time ds <> 0) by lia.
  split.
  - intros debug have_logfile logfile. split; [| split].
    + intros _ Hnot. apply run_ticks_before_due; assumption.
    + intros pre o post Hrun -> Hpre Hdue.
      pose proof (run_ticks_first_due debug have_logfile logfile ds pre o post
                    Hnz Hrun Hall Hpre Hdue) as Eall.
      apply Forall_app in Hall as [Hupre Hrest].
      apply Forall_cons in Hrest as [Huo _].
      repeat split.
      * apply run_ticks_before_due; assumption.
      * apply tick_due; assumption.
      * exact Eall.
      * rewrite Eall. simpl. rewrite spindown_calls_episode.
        apply spindown_calls_spindown_disk.
    + intros Hdown. apply run_ticks_spun_down; assumption.
  - intros name sleep st ticks evs r st' pre o post Hloop Hr Hrec Hrun Hobs -> Hpre Hdue.
    destruct (poll_loop_record name sleep ticks st evs r st' ds Hloop Hr Hrec)
      as (Hrec' & Hcalls & _).
    rewrite Hobs in Hrec', Hcalls.
    rewrite (run_ticks_first_due _ _ _ ds pre o post Hnz Hrun Hall Hpre Hdue)
      in Hrec', Hcalls.
    simpl in Hrec', Hcalls. split; [| exact Hrec'].
    rewrite Hcalls, spindown_calls_episode, spindown_calls_spindown_disk.
    destruct (record_of_Some _ _ _ Hrec) as [i Hget].
    apply get_diskstats_Some in Hget as [_ ->]. reflexivity.
Qed.

Lemma spindown_once_at_first_due_tick_witness :
  run_ticks 0 false "" sdb
    [sdb_at 110 7 9; sdb_at 129 7 9; sdb_at 130 7 9; sdb_at 160 7 9] =
    (marked_spun_down 130 sdb,
     [[]; []; [OpenDev "sdb"; StopUnit "sdb"; CloseDev "sdb"]; []]) /\
  spindown_calls_for "sdb"
    (fst (poll_loop 3 registry_sdb
            [mk_tick_os false (Some [line_of "sdb" (sdb_at 110 7 9)]) false;
             mk_tick_os false (Some [line_of "sdb" (sdb_at 129 7 9)]) false;
             mk_tick_os false (Some [line_of "sdb" (sdb_at 130 7 9)]) false;
             mk_tick_os false (Some [line_of "sdb" (sdb_at 160 7 9)]) true])) =
    [OpenDev "sdb"] /\
  run_ticks 0 false "" sdb [sdb_at 110 7 9; sdb_at 129 7 9] = (sdb, [[]; []]) /\
  run_ticks 0 false "" sdb_stopped [sdb_at 131 7 9; sdb_at 500 7 9] =
    (sdb_stopped, [[]; []]).
Proof.
  assert (Hpre : Forall (fun o' => ~ due sdb o') [sdb_at 110 7 9; sdb_at 129 7 9]).
  { repeat (apply List.Forall_cons; [unfold due; cbn; lia |]).
    apply List.Forall_nil. }
  assert (Hdue : due sdb (sdb_at 130 7 9)) by (unfold due; cbn; lia).
  split; [| split; [| split]].
  - destruct (spindown_once_at_first_due_tick sdb
                [sdb_at 110 7 9; sdb_at 129 7 9; sdb_at 130 7 9; sdb_at 160 7 9])
      as [Hdisk _]; [reflexivity | repeat constructor |].
    destruct (Hdisk 0 false "") as (_ & H & _).
    destruct (H [sdb_at 110 7 9; sdb_at 129 7 9] (sdb_at 130 7 9) [sdb_at 160 7 9]
                eq_refl eq_refl Hpre Hdue) as (_ & _ & _ & _ & E & _).
    exact E.
  - destruct (spindown_once_at_first_due_tick sdb
                [sdb_at 110 7 9; sdb_at 129 7 9; sdb_at 130 7 9; sdb_at 160 7 9])
      as [_ Hloop]; [reflexivity | repeat constructor |].
    eapply (Hloop "sdb" 3 registry_sdb _ _ _
              (set_ds_root [marked_spun_down 130 sdb] registry_sdb)
              [sdb_at 110 7 9; sdb_at 129 7 9] (sdb_at 130 7 9) [sdb_at 160 7 9]).
    + apply surjective_pairing.
    + right. reflexivity.
    + reflexivity.
    + reflexivity.
    + reflexivity.
    + reflexivity.
    + exact Hpre.
    + exact Hdue.
  - destruct (spindown_once_at_first_due_tick sdb [sdb_at 110 7 9; sdb_at 129 7 9])
      as [Hdisk _]; [reflexivity | repeat constructor |].
    destruct (Hdisk 0 false "") as (H & _). exact (H eq_refl Hpre).
  - destruct (spindown_once_at_first_due_tick sdb_stopped
                [sdb_at 131 7 9; sdb_at 500 7 9])
      as [Hdisk _]; [reflexivity | repeat constructor |].
    destruct (Hdisk 0 false "") as (_ & _ & H). exact (H eq_refl).
Defined.

(** ** Spin-up *)

Lemma log_lines_log_spinup lf ds lg :
  log_lines (log_spinup lf ds lg) =
    if lg_fopen_ok lg then
      [LogLine lf (mk_log_entry (lg_time_stamp lg) (ds_name ds)
                                (ds_spindown ds - ds_spinup ds)
                                (lg_time_now lg - ds_spindown ds))]
    else [].
Proof.
  unfold log_spinup. destruct (lg_fopen_ok lg); [| reflexivity].
  destruct (lg_break1 lg); [reflexivity |].
  destruct (lg_break2 lg); reflexivity.
Qed.

Lemma log_lines_last (n : nat) evs :
  log_lines (concat (repeat [] n ++ [evs])) = log_lines evs.
Proof.
  rewrite concat_app, concat_repeat_nil. simpl. rewrite app_nil_r. reflexivity.
Qed.

(** C3, amended.  Every tick with changed counters stores the observed
    reads and writes, sets last_io to now and clears spun_down.  For a
    record that is spun down, ticks with unchanged counters change nothing,
    and the first tick with changed counters sets spinup to now and, when
    logging is enabled, calls [log_spinup] once: if the log file can be
    opened exactly one line is written, with running = spindown - spinup and
    stopped = t - spindown, where t is the time [log_spinup] itself reads
    while writing; if it cannot be opened nothing is written.  A record
    that is not spun down logs nothing.  The same holds inside the main
    loop, where the ticks of the record are the lines of its disk: among
    all events of the loop that is the one log line about the disk. *)
Theorem spinup_logged_and_activity_recorded ds pre o :
  Forall (unchanged ds) pre ->
  ~ unchanged ds o ->
  let lg := os_log (ob_os o) in
  (forall debug have_logfile logfile,
     let ds' := fst (tick debug have_logfile logfile ds o) in
     let evs := snd (tick debug have_logfile logfile ds o) in
     (ds' = after_activity o ds /\
      ds_reads ds' = ob_reads o /\ ds_writes ds' = ob_writes o /\
      ds_last_io ds' = ob_now o /\ ds_spun_down ds' = false) /\
     (ds_spun_down ds = true ->
      run_ticks debug have_logfile logfile ds pre = (ds, repeat [] (length pre)) /\
      ds_spinup ds' = ob_now o /\
      evs = (if have_logfile then log_spinup logfile ds lg else []) /\
      log_lines evs =
        if have_logfile && lg_fopen_ok lg then
          [LogLine logfile
             (mk_log_entry (lg_time_stamp lg) (ds_name ds)
                           (ds_spindown ds - ds_spinup ds)
                           (lg_time_now lg - ds_spindown ds))]
        else []) /\
     (ds_spun_down ds = false -> evs = [] /\ ds_spinup ds' = ds_spinup ds)) /\
  (forall name sleep st ticks evs r st',
     poll_loop sleep st ticks = (evs, r) ->
     r = Running st' \/ r = Broke st' ->
     record_of name st = Some ds ->
     ds_spun_down ds = true ->
     observations name (lines_read ticks) = pre ++ [o] ->
     log_lines_for name evs =
       (if have_logfile st && lg_fopen_ok lg then
          [LogLine (logfile st)
             (mk_log_entry (lg_time_stamp lg) name
                           (ds_spindown ds - ds_spinup ds)
                           (lg_time_now lg - ds_spindown ds))]
        else []) /\
     record_of name st' = Some (after_activity o ds)).
Proof.
  intros Hpre Hch lg. split.
  - intros debug have_logfile logfile ds' evs. subst ds' evs.
    rewrite tick_changed by assumption. simpl.
    split; [repeat split | split].
    + intros Hdown. rewrite Hdown. simpl. repeat split.
      * apply run_ticks_spun_down; assumption.
      * destruct have_logfile; [| reflexivity]. simpl.
        apply log_lines_log_spinup.
    + intros Hup. rewrite Hup. simpl. split; reflexivity.
  - intros name sleep st ticks evs r st' Hloop Hr Hrec Hdown Hobs.
    destruct (poll_loop_record name sleep ticks st evs r st' ds Hloop Hr Hrec)
      as (Hrec' & _ & Hlog).
    rewrite Hobs, run_ticks_app, run_ticks_spun_down in Hrec', Hlog
      by assumption.
    cbn [run_ticks] in Hrec', Hlog.
    rewrite tick_changed in Hrec', Hlog by assumption.
    cbn [fst snd] in Hrec', Hlog. split; [| exact Hrec'].
    rewrite Hlog, log_lines_last, Hdown. simpl.
    destruct (record_of_Some _ _ _ Hrec) as [i Hget].
    apply get_diskstats_Some in Hget as [_ <-].
    destruct (have_logfile st); [| reflexivity]. simpl.
    apply log_lines_log_spinup.
Qed.

Lemma spinup_logged_and_activity_recorded_witness :
  log_lines (snd (tick 0 true "/var/log/hd-idle" sdb_stopped sdb_wakes_late_clock)) =
    [LogLine "/var/log/hd-idle" (mk_log_entry 203 "sdb" 30 73)] /\
  fst (tick 0 true "/var/log/hd-idle" sdb_stopped sdb_wakes_late_clock) =
    mk_disk_stats "sdb" 30 200 130 200 8 9 false /\
  log_lines_for "sdb"
    (fst (poll_loop 3 registry_sdb_stopped
            [mk_tick_os false (Some [line_of "sdb" (sdb_at 150 7 9)]) false;
             mk_tick_os false (Some [line_of "sdb" sdb_wakes_late_clock]) false])) =
    [LogLine "/var/log/hd-idle" (mk_log_entry 203 "sdb" 30 73)] /\
  tick 0 true "/var/log/hd-idle" sdb (sdb_at 120 8 9) =
    (mk_disk_stats "sdb" 30 120 0 100 8 9 false, []).
Proof.
  split; [| split; [| split]].
  - destruct (spinup_logged_and_activity_recorded
                sdb_stopped [sdb_at 150 7 9] sdb_wakes_late_clock)
      as [Hdisk _]; [repeat constructor | intros [H _]; discriminate H |].
    destruct (Hdisk 0 true "/var/log/hd-idle") as (_ & H & _).
    destruct (H eq_refl) as (_ & _ & _ & L). exact L.
  - destruct (spinup_logged_and_activity_recorded
                sdb_stopped [sdb_at 150 7 9] sdb_wakes_late_clock)
      as [Hdisk _]; [repeat constructor | intros [H _]; discriminate H |].
    destruct (Hdisk 0 true "/var/log/hd-idle") as ((E & _) & _). exact E.
  - destruct (spinup_logged_and_activity_recorded
                sdb_stopped [sdb_at 150 7 9] sdb_wakes_late_clock)
      as [_ Hloop]; [repeat constructor | intros [H _]; discriminate H |].
    eapply (Hloop "sdb" 3 registry_sdb_stopped _ _ _
              (set_ds_root [mk_disk_stats "sdb" 30 200 130 200 8 9 false]
                           registry_sdb_stopped)).
    + apply surjective_pairing.
    + left. reflexivity.
    + reflexivity.
    + reflexivity.
    + reflexivity.
  - destruct (spinup_logged_and_activity_recorded sdb [] (sdb_at 120 8 9))
      as [Hdisk _]; [constructor | intros [H _]; discriminate H |].
    destruct (Hdisk 0 true "/var/log/hd-idle") as ((E & _) & _ & H).
    destruct (H eq_refl) as [Hevs _].
    rewrite (surjective_pairing (tick 0 true "/var/log/hd-idle" sdb (sdb_at 120 8 9))).
    rewrite Hevs, E. reflexivity.
Defined.

(** C3 as stated fails: with logging enabled and a spun-down disk, no line
    is written when the log file cannot be opened, and when the clock has
    moved on by the time [log_spinup] reads it (203 instead of the 200 of
    the tick) the stopped column is 73, not now - spindown = 70. *)
Lemma spinup_log_entry_counterexample :
  ~ spec_log_entry "/var/log/hd-idle" sdb_stopped sdb_wakes_no_log
      (snd (tick 0 true "/var/log/hd-idle" sdb_stopped sdb_wakes_no_log)) /\
  ~ spec_log_entry "/var/log/hd-idle" sdb_stopped sdb_wakes_late_clock
      (snd (tick 0 true "/var/log/hd-idle" sdb_stopped sdb_wakes_late_clock)).
Proof.
  split; intros [stamp H]; vm_compute in H; discriminate H.
Qed.

(** * Further properties of the code *)

(** ** When a disk is spun down *)

Lemma spindown_disk_device_name dbg name r e n :
  e ∈ spindown_disk dbg name r -> device_of e = Some n -> n = name.
Proof.
  intros H Hd. apply spindown_disk_device in H as [H | H]; congruence.
Qed.

Lemma update_disk_spindown_only dbg hl lf now r w sg lg ds e n :
  e ∈ snd (update_disk dbg hl lf now r w sg lg ds) ->
  device_of e = Some n ->
  n = ds_name ds /\ ds_reads ds = r /\ ds_writes ds = w /\
  ds_spun_down ds = false /\ ds_idle_time ds <> 0 /\
  ds_idle_time ds <= now - ds_last_io ds.
Proof.
  unfold update_disk. intros H Hd.
  destruct (Z.eqb_spec (ds_reads ds) r) as [Er | Er]; simpl in H.
  - destruct (Z.eqb_spec (ds_writes ds) w) as [Ew | Ew]; simpl in H.
    + destruct (ds_spun_down ds); simpl in H; [elem_cases H |].
      destruct (Z.eqb_spec (ds_idle_time ds) 0) as [E0 | E0]; simpl in H;
        [elem_cases H |].
      destruct (Z.leb_spec (ds_idle_time ds) (now - ds_last_io ds)); simpl in H;
        [| elem_cases H].
      repeat split; try assumption.
      eapply spindown_disk_device_name; eassumption.
    + destruct (ds_spun_down ds); simpl in H; [| elem_cases H].
      destruct hl; [| elem_cases H].
      apply log_spinup_device in H. congruence.
  - destruct (ds_spun_down ds); simpl in H; [| elem_cases H].
    destruct hl; [| elem_cases H].
    apply log_spinup_device in H. congruence.
Qed.

(** X1.  The main loop touches a device (open, stop unit, close) only
    while it handles a line of that very disk, and only when the disk is
    already known, its counters are those of the line, it is not marked as
    spun down, its idle time is not 0 and at least that time has passed
    since its last I/O.  So a disk is never stopped on first sight, never
    in a tick that shows activity, and never twice in a row. *)
Theorem device_touched_only_when_idle st ln evs r e n :
  process_line st ln = (evs, r) ->
  e ∈ evs ->
  device_of e = Some n ->
  exists i ds reads writes,
    sl_sscanf ln = Some (n, reads, writes) /\
    fst (is_scsi_disk n (os_stat (sl_os ln))) = true /\
    get_diskstats (ds_root st) n = Some (i, ds) /\
    ds_reads ds = reads /\ ds_writes ds = writes /\
    ds_spun_down ds = false /\
    ds_idle_time ds <> 0 /\
    ds_idle_time ds <= os_now (sl_os ln) - ds_last_io ds.
Proof.
  rewrite process_line_unfold. intros H He Hd.
  destruct (sl_sscanf ln) as [[[name reads] writes] |]; simpl in H.
  2:{ injection H as <- <-. elem_cases He. }
  destruct (fst (is_scsi_disk name (os_stat (sl_os ln)))) eqn:Es.
  2:{ injection H as <- <-. apply is_scsi_disk_device in He. congruence. }
  destruct (get_diskstats (ds_root st) name) as [[i ds] |] eqn:Eg.
  - injection H as <- <-. apply elem_of_app in He as [He | He].
    + apply dprintf_device in He; [congruence | reflexivity].
    + destruct (update_disk_spindown_only _ _ _ _ _ _ _ _ _ _ _ He Hd)
        as (Hn & Hr & Hw & Hrun & Hnz & Hdue).
      destruct (get_diskstats_Some _ _ _ _ Eg) as [_ Hname].
      assert (n = name) as -> by congruence.
      exists i, ds, reads, writes. repeat split; assumption.
  - destruct (malloc st); injection H as <- <-.
    + apply dprintf_device in He; [congruence | reflexivity].
    + apply elem_of_app in He as [He | He].
      * apply dprintf_device in He; [congruence | reflexivity].
      * elem_cases He. discriminate.
Qed.

Lemma device_touched_only_when_idle_witness :
  exists i ds reads writes,
    sl_sscanf (line_of "sdb" (sdb_at 130 7 9)) = Some ("sdb", reads, writes) /\
    fst (is_scsi_disk "sdb" (os_stat (sl_os (line_of "sdb" (sdb_at 130 7 9))))) = true /\
    get_diskstats (ds_root registry_sdb) "sdb" = Some (i, ds) /\
    ds_reads ds = reads /\ ds_writes ds = writes /\
    ds_spun_down ds = false /\
    ds_idle_time ds <> 0 /\
    ds_idle_time ds <= os_now (sl_os (line_of "sdb" (sdb_at 130 7 9))) - ds_last_io ds.
Proof.
  apply (device_touched_only_when_idle registry_sdb (line_of "sdb" (sdb_at 130 7 9))
           [OpenDev "sdb"; StopUnit "sdb"; CloseDev "sdb"]
           (Next (set_ds_root [marked_spun_down 130 sdb] registry_sdb))
           (StopUnit "sdb") "sdb").
  - reflexivity.
  - right. left.
  - reflexivity.
Defined.

(** ** Invariants of the registry *)

(** What a line that does not end the process does to the list of
    records: nothing, or it replaces the record of its disk by the updated
    one, or it puts a record for a disk that had none in front. *)
Lemma process_line_registry st ln evs st' :
  process_line st ln = (evs, Next st') ->
  it_root st' = it_root st /\
  (ds_root st' = ds_root st \/
   (exists i ds ds', ds_root st !! i = Some ds /\
                     ds_root st' = <[i := ds']> (ds_root st) /\
                     ds_name ds' = ds_name ds /\
                     ds_idle_time ds' = ds_idle_time ds /\
                     exists o, ds' = fst (tick (debug st) (have_logfile st)
                                               (logfile st) ds o)) \/
   (exists ds, ds_root st' = ds :: ds_root st /\
               Forall (fun d => ds_name d <> ds_name ds) (ds_root st) /\
               ds_spun_down ds = false /\
               heap st = S (heap st'))).
Proof.
  rewrite process_line_unfold. intros H.
  destruct (sl_sscanf ln) as [[[name reads] writes] |]; simpl in H.
  2:{ injection H as <- <-. split; [reflexivity | left; reflexivity]. }
  destruct (fst (is_scsi_disk name (os_stat (sl_os ln)))).
  2:{ injection H as <- <-. split; [reflexivity | left; reflexivity]. }
  destruct (get_diskstats (ds_root st) name) as [[i ds] |] eqn:Eg.
  - injection H as <- <-. split; [reflexivity |]. right. left.
    destruct (get_diskstats_Some _ _ _ _ Eg) as [Hi _].
    eexists i, ds, _. repeat split.
    + exact Hi.
    + apply update_disk_name.
    + apply update_disk_idle_time.
    + exists (mk_observation reads writes (sl_os ln)). reflexivity.
  - destruct (malloc st) as [st1 |] eqn:Em; [| discriminate].
    injection H as <- <-.
    apply malloc_fields in Em as (Eit & Eds & _ & _ & _ & _ & Eh).
    split; [exact Eit |]. right. right.
    eexists. simpl. rewrite Eds. repeat split.
    + apply get_diskstats_None in Eg.
      destruct (find_idle_time (it_root st1) name); exact Eg.
    + destruct (find_idle_time (it_root st1) name); reflexivity.
    + exact Eh.
Qed.

(** An invariant of single records that [update_disk] keeps and new
    records have holds for every record, whatever the loop reads. *)
Lemma process_line_Forall (P : disk_stats_t -> Prop) st ln evs st' :
  (forall dbg hl lf ds o, P ds -> P (fst (tick dbg hl lf ds o))) ->
  (forall ds, ds_spun_down ds = false -> P ds) ->
  process_line st ln = (evs, Next st') ->
  Forall P (ds_root st) -> Forall P (ds_root st').
Proof.
  intros Hkeep Hnew H Hall.
  apply process_line_registry in H as [_ [-> | [H | H]]].
  - exact Hall.
  - destruct H as (i & ds & ds' & Hi & -> & _ & _ & o & ->).
    apply Forall_insert; [exact Hall |]. apply Hkeep.
    rewrite Forall_lookup in Hall. exact (Hall i ds Hi).
  - destruct H as (ds & -> & _ & Hrun & _). constructor; [auto | exact Hall].
Qed.

Lemma read_stats_Forall (P : disk_stats_t -> Prop) lines : forall st evs st',
  (forall dbg hl lf ds o, P ds -> P (fst (tick dbg hl lf ds o))) ->
  (forall ds, ds_spun_down ds = false -> P ds) ->
  read_stats st lines = (evs, Next st') ->
  Forall P (ds_root st) -> Forall P (ds_root st').
Proof.
  induction lines as [| ln rest IH]; intros st evs st' Hkeep Hnew H Hall.
  - injection H as <- <-. exact Hall.
  - rewrite read_stats_cons in H.
    destruct (process_line st ln) as [evs1 [st1 | rc]] eqn:El; [| discriminate].
    destruct (read_stats st1 rest) as [evs2 r2] eqn:Er. simpl in H.
    injection H as <- ->.
    eapply IH; [exact Hkeep | exact Hnew | exact Er |].
    eapply process_line_Forall; eassumption.
Qed.

Lemma poll_loop_Forall (P : disk_stats_t -> Prop) sleep ticks :
  forall st evs r st',
  (forall dbg hl lf ds o, P ds -> P (fst (tick dbg hl lf ds o))) ->
  (forall ds, ds_spun_down ds = false -> P ds) ->
  poll_loop sleep st ticks = (evs, r) ->
  r = Running st' \/ r = Broke st' ->
  Forall P (ds_root st) -> Forall P (ds_root st').
Proof.
  induction ticks as [| tk rest IH]; intros st evs r st' Hkeep Hnew H Hr Hall.
  - injection H as <- <-. destruct Hr as [[= <-] | [=]]. exact Hall.
  - rewrite poll_loop_cons in H.
    destruct (tk_break1 tk).
    { injection H as <- <-. destruct Hr as [[=] | [= <-]]. exact Hall. }
    destruct (tk_fopen tk) as [lines |].
    2:{ injection H as <- <-. destruct Hr as [[=] | [=]]. }
    destruct (read_stats st lines) as [evs1 [st1 | rc]] eqn:Erd.
    2:{ injection H as <- <-. destruct Hr as [[=] | [=]]. }
    pose proof (read_stats_Forall P _ _ _ _ Hkeep Hnew Erd Hall) as Hall1.
    destruct (tk_break2 tk).
    { injection H as <- <-. destruct Hr as [[=] | [= <-]]. exact Hall1. }
    destruct (poll_loop sleep st1 rest) as [evs2 r2] eqn:Erest. simpl in H.
    injection H as <- <-.
    eapply IH; eassumption.
Qed.

Lemma tick_spun_down_ok dbg hl lf ds o :
  spun_down_ok ds -> spun_down_ok (fst (tick dbg hl lf ds o)).
Proof.
  unfold spun_down_ok, tick, update_disk. intros Hok.
  destruct ((ds_reads ds =? ob_reads o) && (ds_writes ds =? ob_writes o)).
  - destruct (ds_spun_down ds) eqn:Es; simpl; [rewrite Es; exact Hok |].
    destruct (Z.eqb_spec (ds_idle_time ds) 0) as [E0 | E0]; simpl;
      [rewrite Es; discriminate |].
    destruct (Z.leb_spec (ds_idle_time ds) (ob_now o - ds_last_io ds)); simpl.
    + intros _. split; assumption.
    + rewrite Es. discriminate.
  - destruct (ds_spun_down ds); simpl; discriminate.
Qed.

(** X2.  Whatever the main loop reads, every record that is marked as spun
    down has a nonzero idle time and was stopped no earlier than that idle
    time after the last I/O seen on it: the invariant holds for the records
    the loop starts with as soon as it holds for them, and so for every run
    of [main], which starts with no record. *)
Theorem spun_down_records_were_idle :
  (forall sleep st ticks evs r st',
     poll_loop sleep st ticks = (evs, r) ->
     r = Running st' \/ r = Broke st' ->
     Forall spun_down_ok (ds_root st) ->
     Forall spun_down_ok (ds_root st')) /\
  (forall os argv evs st ticks evs' r st',
     startup os argv = (evs, Next st) ->
     poll_loop (sleep_time (it_root st)) st ticks = (evs', r) ->
     r = Running st' \/ r = Broke st' ->
     Forall spun_down_ok (ds_root st')).
Proof.
  assert (Hloop : forall sleep st ticks evs r st',
            poll_loop sleep st ticks = (evs, r) ->
            r = Running st' \/ r = Broke st' ->
            Forall spun_down_ok (ds_root st) ->
            Forall spun_down_ok (ds_root st')).
  { intros sleep st ticks evs r st' H Hr Hall.
    eapply (poll_loop_Forall spun_down_ok); try eassumption.
    - intros. apply tick_spun_down_ok. assumption.
    - intros ds Hrun Hdown. congruence. }
  split; [exact Hloop |].
  intros os argv evs st ticks evs' r st' Hs H Hr.
  eapply Hloop; [exact H | exact Hr |].
  apply startup_next in Hs as (-> & _). constructor.
Qed.

Lemma spun_down_records_were_idle_witness :
  Forall spun_down_ok [mk_disk_stats "sdb" 30 100 130 100 7 9 true].
Proof.
  destruct spun_down_records_were_idle as [_ H].
  apply (H plain_os [opt_i "30"; opt_f]
           []
           (mk_state [mk_idle_time None 30 false] [] "/dev/null" false 1 0 9)
           [mk_tick_os false (Some [line_of "sdb" (sdb_at 100 7 9)]) false;
            mk_tick_os false (Some [line_of "sdb" (sdb_at 130 7 9)]) true]
           [ReadBreakLoop false; FopenStat true; FcloseStat; ReadBreakLoop false;
            Sleep 3; ReadBreakLoop false; FopenStat true;
            OpenDev "sdb"; StopUnit "sdb"; CloseDev "sdb";
            FcloseStat; ReadBreakLoop true]
           (Broke (mk_state [mk_idle_time None 30 false]
                            [mk_disk_stats "sdb" 30 100 130 100 7 9 true]
                            "/dev/null" false 1 0 8))
           (mk_state [mk_idle_time None 30 false]
                     [mk_disk_stats "sdb" 30 100 130 100 7 9 true]
                     "/dev/null" false 1 0 8)).
  - reflexivity.
  - reflexivity.
  - right. reflexivity.
Defined.

(** A property of the state that every line keeps is kept by every read
    of the statistics file and by the whole loop. *)
Lemma read_stats_inv (Q : state -> Prop) :
  (forall st ln evs st', process_line st ln = (evs, Next st') -> Q st -> Q st') ->
  forall lines st evs st',
    read_stats st lines = (evs, Next st') -> Q st -> Q st'.
Proof.
  intros Hline. induction lines as [| ln rest IH]; intros st evs st' H HQ.
  - injection H as <- <-. exact HQ.
  - rewrite read_stats_cons in H.
    destruct (process_line st ln) as [evs1 [st1 | rc]] eqn:El; [| discriminate].
    destruct (read_stats st1 rest) as [evs2 r2] eqn:Er. simpl in H.
    injection H as <- ->. eapply IH; [exact Er |]. eapply Hline; eassumption.
Qed.

Lemma poll_loop_inv (Q : state -> Prop) sleep :
  (forall st ln evs st', process_line st ln = (evs, Next st') -> Q st -> Q st') ->
  forall ticks st evs r st',
    poll_loop sleep st ticks = (evs, r) ->
    r = Running st' \/ r = Broke st' ->
    Q st -> Q st'.
Proof.
  intros Hline. induction ticks as [| tk rest IH]; intros st evs r st' H Hr HQ.
  - injection H as <- <-. destruct Hr as [[= <-] | [=]]. exact HQ.
  - rewrite poll_loop_cons in H.
    destruct (tk_break1 tk).
    { injection H as <- <-. destruct Hr as [[=] | [= <-]]. exact HQ. }
    destruct (tk_fopen tk) as [lines |].
    2:{ injection H as <- <-. destruct Hr as [[=] | [=]]. }
    destruct (read_stats st lines) as [evs1 [st1 | rc]] eqn:Erd.
    2:{ injection H as <- <-. destruct Hr as [[=] | [=]]. }
    pose proof (read_stats_inv Q Hline _ _ _ _ Erd HQ) as HQ1.
    destruct (tk_break2 tk).
    { injection H as <- <-. destruct Hr as [[=] | [= <-]]. exact HQ1. }
    destruct (poll_loop sleep st1 rest) as [evs2 r2] eqn:Erest. simpl in H.
    injection H as <- <-. eapply IH; eassumption.
Qed.

Lemma process_line_names st ln evs st' :
  process_line st ln = (evs, Next st') ->
  NoDup (ds_name <$> ds_root st) -> NoDup (ds_name <$> ds_root st').
Proof.
  intros H Hnd.
  apply process_line_registry in H as [_ [-> | [H | H]]].
  - exact Hnd.
  - destruct H as (i & ds & ds' & Hi & -> & Hname & _).
    rewrite list_fmap_insert, Hname, list_insert_id; [exact Hnd |].
    rewrite list_lookup_fmap, Hi. reflexivity.
  - destruct H as (ds & -> & Hfresh & _). rewrite fmap_cons.
    apply NoDup_cons. split; [| exact Hnd].
    intros Hin. apply list_elem_of_fmap in Hin as (d & Hd & Hin).
    rewrite Forall_forall in Hfresh. apply (Hfresh d Hin). congruence.
Qed.

(** With one record per name, every record is the one [get_diskstats]
    returns for its name. *)
Lemma get_diskstats_lookup l : forall i d,
  NoDup (ds_name <$> l) ->
  l !! i = Some d ->
  get_diskstats l (ds_name d) = Some (i, d).
Proof.
  induction l as [| d0 l IH]; intros i d Hnd Hi; [discriminate |].
  rewrite fmap_cons in Hnd. apply NoDup_cons in Hnd as [Hfresh Hnd].
  destruct i as [| i]; simpl in *.
  - injection Hi as ->. rewrite String.eqb_refl. reflexivity.
  - destruct (String.eqb_spec (ds_name d0) (ds_name d)) as [E | _].
    + exfalso. apply Hfresh. rewrite E. apply list_elem_of_fmap.
      exists d. split; [reflexivity |]. eapply list_elem_of_lookup_2. exact Hi.
    + rewrite (IH i d Hnd Hi). reflexivity.
Qed.

(** X3.  The registry never holds two records for one disk name: every
    run of the main loop that starts from such a registry (as [main] does,
    with no record) ends in one, and every record is then the one
    [get_diskstats] returns for its name. *)
Theorem one_record_per_disk :
  (forall sleep st ticks evs r st',
     poll_loop sleep st ticks = (evs, r) ->
     r = Running st' \/ r = Broke st' ->
     NoDup (ds_name <$> ds_root st) ->
     NoDup (ds_name <$> ds_root st') /\
     forall i d, ds_root st' !! i = Some d ->
                 get_diskstats (ds_root st') (ds_name d) = Some (i, d)) /\
  (forall os argv evs st ticks evs' r st',
     startup os argv = (evs, Next st) ->
     poll_loop (sleep_time (it_root st)) st ticks = (evs', r) ->
     r = Running st' \/ r = Broke st' ->
     NoDup (ds_name <$> ds_root st') /\
     forall i d, ds_root st' !! i = Some d ->
                 get_diskstats (ds_root st') (ds_name d) = Some (i, d)).
Proof.
  assert (Hloop : forall sleep st ticks evs r st',
            poll_loop sleep st ticks = (evs, r) ->
            r = Running st' \/ r = Broke st' ->
            NoDup (ds_name <$> ds_root st) ->
            NoDup (ds_name <$> ds_root st') /\
            forall i d, ds_root st' !! i = Some d ->
                        get_diskstats (ds_root st') (ds_name d) = Some (i, d)).
  { intros sleep st ticks evs r st' H Hr Hnd.
    assert (Hnd' : NoDup (ds_name <$> ds_root st')).
    { eapply (poll_loop_inv (fun s => NoDup (ds_name <$> ds_root s))); try eassumption.
      intros s ln e s'. apply process_line_names. }
    split; [exact Hnd' |]. intros i d. apply get_diskstats_lookup. exact Hnd'. }
  split; [exact Hloop |].
  intros os argv evs st ticks evs' r st' Hs H Hr.
  eapply Hloop; [exact H | exact Hr |].
  apply startup_next in Hs as (-> & _). constructor.
Qed.

Lemma one_record_per_disk_witness :
  NoDup (ds_name <$> [mk_disk_stats "sdb" 600 100 0 100 7 9 false;
                      mk_disk_stats "sda" 600 100 0 100 1 2 false]) /\
  get_diskstats [mk_disk_stats "sdb" 600 100 0 100 7 9 false;
                 mk_disk_stats "sda" 600 100 0 100 1 2 false] "sda" =
    Some (1%nat, mk_disk_stats "sda" 600 100 0 100 1 2 false).
Proof.
  destruct one_record_per_disk as [_ H].
  destruct (H plain_os [opt_f] []
              (mk_state [mk_idle_time None 600 false] [] "/dev/null" false 1 0 9)
              two_disks_twice
              (fst (poll_loop 60 (mk_state [mk_idle_time None 600 false] []
                                           "/dev/null" false 1 0 9) two_disks_twice))
              (Running (mk_state [mk_idle_time None 600 false]
                                 [mk_disk_stats "sdb" 600 100 0 100 7 9 false;
                                  mk_disk_stats "sda" 600 100 0 100 1 2 false]
                                 "/dev/null" false 1 0 7))
              (mk_state [mk_idle_time None 600 false]
                        [mk_disk_stats "sdb" 600 100 0 100 7 9 false;
                         mk_disk_stats "sda" 600 100 0 100 1 2 false]
                        "/dev/null" false 1 0 7))
    as [Hnd Hget].
  - reflexivity.
  - reflexivity.
  - left. reflexivity.
  - split; [exact Hnd |].
    exact (Hget 1%nat (mk_disk_stats "sda" 600 100 0 100 1 2 false) eq_refl).
Defined.

(** ** Records are made once and kept *)

Lemma run_ticks_keeps dbg hl lf obs : forall ds,
  ds_name (fst (run_ticks dbg hl lf ds obs)) = ds_name ds /\
  ds_idle_time (fst (run_ticks dbg hl lf ds obs)) = ds_idle_time ds.
Proof.
  induction obs as [| o rest IH]; intros ds; [split; reflexivity |].
  simpl. unfold tick.
  pose proof (update_disk_name dbg hl lf (ob_now o) (ob_reads o) (ob_writes o)
                (os_sg (ob_os o)) (os_log (ob_os o)) ds) as Hn.
  pose proof (update_disk_idle_time dbg hl lf (ob_now o) (ob_reads o) (ob_writes o)
                (os_sg (ob_os o)) (os_log (ob_os o)) ds) as Hi.
  destruct (update_disk _ _ _ _ _ _ _ _ ds) as [ds1 evs]. simpl in Hn, Hi.
  destruct (IH ds1) as [IHn IHi].
  destruct (run_ticks dbg hl lf ds1 rest) as [ds2 evss]. simpl in *.
  split; congruence.
Qed.

Lemma process_line_length st ln evs st' :
  process_line st ln = (evs, Next st') ->
  (length (ds_root st) <= length (ds_root st'))%nat.
Proof.
  intros H. apply process_line_registry in H as [_ [-> | [H | H]]].
  - lia.
  - destruct H as (i & ds & ds' & _ & -> & _). rewrite length_insert. lia.
  - destruct H as (ds & -> & _). simpl. lia.
Qed.

(** X4.  The main loop never removes a record and never changes the name
    or the idle time of one: a disk that has a record when the loop starts
    still has one, with the idle time it was given, however many iterations
    follow and whatever they read; the idle-time list is not touched, and
    the number of records never goes down. *)
Theorem records_are_kept sleep st ticks evs r st' :
  poll_loop sleep st ticks = (evs, r) ->
  r = Running st' \/ r = Broke st' ->
  it_root st' = it_root st /\
  (length (ds_root st) <= length (ds_root st'))%nat /\
  forall name ds,
    record_of name st = Some ds ->
    exists ds', record_of name st' = Some ds' /\
                ds_name ds' = ds_name ds /\
                ds_idle_time ds' = ds_idle_time ds.
Proof.
  intros H Hr. split; [| split].
  - symmetry.
    eapply (poll_loop_inv (fun s => it_root st = it_root s)); try eassumption;
      [| reflexivity].
    intros s ln e s' Hl Hs. apply process_line_registry in Hl as [E _]. congruence.
  - eapply (poll_loop_inv (fun s => (length (ds_root st) <= length (ds_root s))%nat));
      try eassumption; [| lia].
    intros s ln e s' Hl Hs. apply process_line_length in Hl. lia.
  - intros name ds Hrec.
    destruct (poll_loop_record name sleep ticks st evs r st' ds H Hr Hrec)
      as (Hrec' & _).
    eexists. split; [exact Hrec' |]. apply run_ticks_keeps.
Qed.

Lemma records_are_kept_witness :
  exists ds', record_of "sdb"
                (mk_state [mk_idle_time None 30 false]
                          [mk_disk_stats "sdb" 30 100 130 100 7 9 true]
                          "/dev/null" false 1 0 5) = Some ds' /\
              ds_name ds' = ds_name sdb /\ ds_idle_time ds' = ds_idle_time sdb.
Proof.
  destruct (records_are_kept 3 registry_sdb
              [mk_tick_os false (Some [line_of "sdb" (sdb_at 130 7 9)]) true]
              [ReadBreakLoop false; FopenStat true;
               OpenDev "sdb"; StopUnit "sdb"; CloseDev "sdb";
               FcloseStat; ReadBreakLoop true]
              (Broke (mk_state [mk_idle_time None 30 false]
                               [mk_disk_stats "sdb" 30 100 130 100 7 9 true]
                               "/dev/null" false 1 0 5))
              (mk_state [mk_idle_time None 30 false]
                        [mk_disk_stats "sdb" 30 100 130 100 7 9 true]
                        "/dev/null" false 1 0 5))
    as (_ & _ & H).
  - reflexivity.
  - right. reflexivity.
  - exact (H "sdb" sdb eq_refl).
Defined.

Lemma record_of_None name st :
  record_of name st = None -> get_diskstats (ds_root st) name = None.
Proof.
  unfold record_of. destruct (get_diskstats (ds_root st) name) as [[i d] |];
    [discriminate | reflexivity].
Qed.

(** X5.  A disk that [is_scsi_disk] accepts and that has no record yet gets
    one on the spot, if memory allows: with the counters of the line, last
    I/O and spin-up at the time of the line, not spun down, and the idle
    time the idle-time list gives for its name (0 should the list give
    none).  The line does nothing else: apart from the debug message there
    is no event, and the records of other disks stay as they are. *)
Theorem new_disk_is_registered st ln name reads writes h :
  sl_sscanf ln = Some (name, reads, writes) ->
  fst (is_scsi_disk name (os_stat (sl_os ln))) = true ->
  record_of name st = None ->
  heap st = S h ->
  let now := os_now (sl_os ln) in
  let t := default 0 (find_idle_time (it_root st) name) in
  exists st',
    process_line st ln =
      (dprintf (debug st) (DebugProbing name reads writes), Next st') /\
    record_of name st' = Some (mk_disk_stats name t now 0 now reads writes false) /\
    get_diskstats (ds_root st') name =
      Some (O, mk_disk_stats name t now 0 now reads writes false) /\
    heap st' = h /\
    forall n, n <> name -> record_of n st' = record_of n st.
Proof.
  intros Hscan Hscsi Hnone Hheap now t.
  apply record_of_None in Hnone.
  rewrite process_line_unfold, Hscan. simpl. rewrite Hscsi, Hnone.
  unfold malloc. rewrite Hheap. simpl.
  eexists. split; [reflexivity |].
  subst t now. unfold record_of.
  destruct (find_idle_time (it_root st) name) as [t |]; simpl;
    rewrite String.eqb_refl; simpl; (repeat split; try reflexivity);
    intros n Hn; destruct (String.eqb_spec name n); try congruence;
    destruct (get_diskstats (ds_root st) n) as [[i d] |]; reflexivity.
Qed.

Lemma new_disk_is_registered_witness :
  exists st',
    process_line registry_sdb (line_of "sdc" (sdb_at 140 3 4)) = ([], Next st') /\
    record_of "sdc" st' = Some (mk_disk_stats "sdc" 30 140 0 140 3 4 false) /\
    record_of "sdb" st' = Some sdb.
Proof.
  destruct (new_disk_is_registered registry_sdb (line_of "sdc" (sdb_at 140 3 4))
              "sdc" 3 4 4%nat)
    as (st' & Hline & Hrec & _ & _ & Hother);
    [reflexivity | reflexivity | reflexivity | reflexivity |].
  exists st'. split; [exact Hline | split; [exact Hrec |]].
  rewrite (Hother "sdb"); [reflexivity | discriminate].
Defined.

(** ** Memory: what is allocated is freed at [out:] *)

Lemma disk_name_heap realpath st path evs name allocd st' :
  disk_name realpath st path = (evs, Next (name, allocd, st')) ->
  heap st = (heap st' + (if allocd then 1 else 0))%nat.
Proof.
  rewrite disk_name_unfold.
  assert (Hplain : ([], Next (path, false, st)) = (evs, Next (name, allocd, st')) ->
                   heap st = (heap st' + (if allocd then 1 else 0))%nat).
  { intros [= <- <- <- <-]. lia. }
  destruct path as [| c path']; [exact Hplain |].
  destruct c as [[] [] [] [] [] [] [] []]; try exact Hplain.
  destruct (realpath _) as [buf |].
  - destruct (malloc st) as [st1 |] eqn:Em; [| discriminate].
    intros [= <- <- <- <-]. apply malloc_fields in Em as (_ & _ & _ & _ & _ & _ & E).
    lia.
  - intros [= <- <- <- <-]. lia.
Qed.

Lemma process_option_heap os st opt evs st' :
  process_option os st opt = (evs, Next st') ->
  (heap st' + cleanup_frees st' = heap st + cleanup_frees st)%nat.
Proof.
  unfold cleanup_frees.
  destruct opt as [a | a | a | a | | | | |]; simpl; intros H;
    try discriminate; try (injection H as <- <-; reflexivity).
  - unfold process_option in H.
    destruct (malloc st) as [st1 |] eqn:Em; [| discriminate].
    destruct (disk_name (so_realpath os) st1 a) as [evs1 [[[nm al] st2] | rc]] eqn:Ed;
      simpl in H; [| discriminate].
    injection H as <- <-.
    apply malloc_fields in Em as (E1 & E2 & _ & _ & _ & _ & Eh).
    pose proof (disk_name_heap _ _ _ _ _ _ _ Ed) as Eh2.
    apply disk_name_next in Ed as (E3 & E4 & _).
    simpl. rewrite E3, E4, E1, E2. destruct al; simpl; lia.
  - destruct (it_root st) as [| it rest] eqn:Eit; injection H as <- <-;
      simpl; rewrite ?Eit; [reflexivity |].
    simpl. destruct (it_name_allocd it); reflexivity.
Qed.

Lemma process_options_heap os argv : forall st evs st',
  process_options os st argv = (evs, Next st') ->
  (heap st' + cleanup_frees st' = heap st + cleanup_frees st)%nat.
Proof.
  induction argv as [| opt rest IH]; intros st evs st' H.
  - injection H as <- <-. reflexivity.
  - rewrite process_options_cons in H.
    destruct (process_option os st opt) as [evs1 [st1 |]] eqn:E1; [| discriminate].
    destruct (process_options os st1 rest) as [evs2 r2] eqn:E2. simpl in H.
    injection H as <- ->.
    apply process_option_heap in E1. apply IH in E2. lia.
Qed.

Lemma process_line_heap st ln evs st' :
  process_line st ln = (evs, Next st') ->
  (heap st' + cleanup_frees st' = heap st + cleanup_frees st)%nat.
Proof.
  unfold cleanup_frees. rewrite process_line_unfold. intros H.
  destruct (sl_sscanf ln) as [[[name reads] writes] |]; simpl in H.
  2:{ injection H as <- <-. reflexivity. }
  destruct (fst (is_scsi_disk name (os_stat (sl_os ln)))).
  2:{ injection H as <- <-. reflexivity. }
  destruct (get_diskstats (ds_root st) name) as [[i ds] |].
  - injection H as <- <-. simpl. rewrite length_insert. reflexivity.
  - destruct (malloc st) as [st1 |] eqn:Em; [| discriminate].
    injection H as <- <-.
    apply malloc_fields in Em as (E1 & E2 & _ & _ & _ & _ & Eh).
    simpl. rewrite E1, E2. lia.
Qed.

(** X6.  No block is lost and none is freed twice: when [main] reaches the
    main loop, and whenever the loop is left through [break] (or is still
    running), the clean-up at [out:] calls [free] exactly as often as
    [malloc] and [strdup] have succeeded.  A name is freed only if it is
    the copy [disk_name] made, never if it is the [optarg] itself. *)
Theorem cleanup_frees_what_was_allocated os argv evs st :
  startup os argv = (evs, Next st) ->
  so_heap os = (heap st + cleanup_frees st)%nat /\
  forall ticks evs' r st',
    poll_loop (sleep_time (it_root st)) st ticks = (evs', r) ->
    r = Running st' \/ r = Broke st' ->
    so_heap os = (heap st' + cleanup_frees st')%nat.
Proof.
  intros Hs.
  assert (H0 : so_heap os = (heap st + cleanup_frees st)%nat).
  { apply startup_next in Hs as (_ & _ & n & evs0 & Hh & Ho).
    apply process_options_heap in Ho. rewrite Hh, Ho.
    unfold cleanup_frees. simpl. lia. }
  split; [exact H0 |].
  intros ticks evs' r st' H Hr.
  eapply (poll_loop_inv (fun s => so_heap os = (heap s + cleanup_frees s)%nat));
    try eassumption.
  intros s ln e s' Hl Hq. apply process_line_heap in Hl. lia.
Qed.

Lemma cleanup_frees_what_was_allocated_witness :
  (10 = 5 + cleanup_frees
          (mk_state
             [mk_idle_time (Some "sdb") 60 false; mk_idle_time (Some "sdc") 0 true;
              mk_idle_time (Some "sdb") 30 false; mk_idle_time None 600 false]
             [] "/var/log/hd-idle" true 1 0 5))%nat /\
  (10 = 3 + cleanup_frees
          (mk_state
             [mk_idle_time (Some "sdb") 60 false; mk_idle_time (Some "sdc") 0 true;
              mk_idle_time (Some "sdb") 30 false; mk_idle_time None 600 false]
             [mk_disk_stats "sdb" 60 100 0 100 7 9 false;
              mk_disk_stats "sda" 600 100 0 100 1 2 false]
             "/var/log/hd-idle" true 1 0 3))%nat.
Proof.
  destruct (cleanup_frees_what_was_allocated
              (mk_startup_os 10 (fun p => if String.eqb p "/dev/disk/by-label/backup"
                                          then Some "/dev/sdc1" else None)
                             OpenFails ForkChild ForkChild)
              [opt_a "sdb"; opt_i "30"; opt_a "/dev/disk/by-label/backup"; opt_i "0";
               opt_a "sdb"; opt_i "60"; opt_l "/var/log/hd-idle"; opt_f]
              []
              (mk_state
                 [mk_idle_time (Some "sdb") 60 false; mk_idle_time (Some "sdc") 0 true;
                  mk_idle_time (Some "sdb") 30 false; mk_idle_time None 600 false]
                 [] "/var/log/hd-idle" true 1 0 5) eq_refl)
    as [H0 Hloop].
  split; [exact H0 |].
  exact (Hloop two_disks_twice _ _ _ (surjective_pairing _) (or_introl eq_refl)).
Defined.

(** ** What the options do *)

Lemma disk_name_config realpath st path evs name allocd st' :
  disk_name realpath st path = (evs, Next (name, allocd, st')) ->
  logfile st' = logfile st /\ have_logfile st' = have_logfile st /\
  foreground st' = foreground st /\ debug st' = debug st /\
  forall e, e ∈ evs -> (exists p, e = Perror p) \/ (exists s p, e = DebugUsing s p).
Proof.
  rewrite disk_name_unfold.
  assert (Hplain : ([], Next (path, false, st)) = (evs, Next (name, allocd, st')) ->
            logfile st' = logfile st /\ have_logfile st' = have_logfile st /\
            foreground st' = foreground st /\ debug st' = debug st /\
            forall e, e ∈ evs ->
                      (exists p, e = Perror p) \/ (exists s p, e = DebugUsing s p)).
  { intros [= <- <- <- <-]. repeat split. intros e H. elem_cases H. }
  destruct path as [| c path']; [exact Hplain |].
  destruct c as [[] [] [] [] [] [] [] []]; try exact Hplain.
  destruct (realpath _) as [buf |].
  - destruct (malloc st) as [st1 |] eqn:Em; [| discriminate].
    intros [= <- <- <- <-].
    apply malloc_fields in Em as (_ & _ & E1 & E2 & E3 & E4 & _).
    repeat split; try assumption.
    intros e H. unfold dprintf in H. destruct (debug st1 =? 0); elem_cases H.
    right. eauto.
  - intros [= <- <- <- <-]. repeat split. intros e H. elem_cases H. left. eauto.
Qed.

(** One option that does not end the process: the counters, the log file
    and the events. *)
Lemma process_option_config os st opt evs st' :
  process_option os st opt = (evs, Next st') ->
  debug st' = debug st + (if is_opt_d opt then 1 else 0) /\
  foreground st' = foreground st + (if is_opt_f opt then 1 else 0) /\
  have_logfile st' = have_logfile st || is_opt_l opt /\
  logfile st' = match opt with opt_l optarg => optarg | _ => logfile st end /\
  forall e, e ∈ evs -> (exists p, e = Perror p) \/ (exists s p, e = DebugUsing s p).
Proof.
  destruct opt as [a | a | a | a | | | | |]; simpl; intros H;
    try discriminate;
    try (injection H as <- <-; simpl; rewrite ?orb_false_r, ?orb_true_r, ?Z.add_0_r;
         repeat split; intros e He; elem_cases He).
  - unfold process_option in H.
    destruct (malloc st) as [st1 |] eqn:Em; [| discriminate].
    destruct (disk_name (so_realpath os) st1 a) as [evs1 [[[nm al] st2] | rc]] eqn:Ed;
      simpl in H; [| discriminate].
    injection H as <- <-.
    apply malloc_fields in Em as (_ & _ & E1 & E2 & E3 & E4 & _).
    apply disk_name_config in Ed as (F1 & F2 & F3 & F4 & Hev).
    simpl. rewrite orb_false_r, !Z.add_0_r, app_nil_r.
    repeat split; try congruence. exact Hev.
  - destruct (it_root st) as [| it rest]; injection H as <- <-; simpl;
      rewrite orb_false_r, !Z.add_0_r; repeat split; intros e He; elem_cases He.
Qed.

Lemma process_options_config os argv : forall st evs st',
  process_options os st argv = (evs, Next st') ->
  debug st' = debug st + Z.of_nat (length (List.filter is_opt_d argv)) /\
  foreground st' = foreground st + Z.of_nat (length (List.filter is_opt_f argv)) /\
  have_logfile st' = have_logfile st || existsb is_opt_l argv /\
  logfile st' = logfile_after (logfile st) argv /\
  forall e, e ∈ evs -> (exists p, e = Perror p) \/ (exists s p, e = DebugUsing s p).
Proof.
  induction argv as [| opt rest IH]; intros st evs st' H.
  - injection H as <- <-. simpl. rewrite orb_false_r, !Z.add_0_r.
    repeat split. intros e He. elem_cases He.
  - rewrite process_options_cons in H.
    destruct (process_option os st opt) as [evs1 [st1 |]] eqn:E1; [| discriminate].
    destruct (process_options os st1 rest) as [evs2 r2] eqn:E2. simpl in H.
    injection H as <- ->.
    apply process_option_config in E1 as (D1 & F1 & H1 & L1 & Hev1).
    apply IH in E2 as (D2 & F2 & H2 & L2 & Hev2).
    repeat split.
    + rewrite D2, D1. simpl. destruct (is_opt_d opt); simpl; lia.
    + rewrite F2, F1. simpl. destruct (is_opt_f opt); simpl; lia.
    + rewrite H2, H1. simpl. rewrite orb_assoc. reflexivity.
    + rewrite L2, L1. simpl. destruct opt; reflexivity.
    + intros e He. apply elem_of_app in He as [He | He]; auto.
Qed.

(** Option parsing only asks for [realpath] and for the stop-unit request
    of [-t]. *)
Lemma process_options_same os os' argv : forall st,
  so_realpath os = so_realpath os' ->
  so_sg os = so_sg os' ->
  process_options os st argv = process_options os' st argv.
Proof.
  induction argv as [| o l IH]; intros st Hrp Hsg; [reflexivity |].
  rewrite !process_options_cons.
  assert (Hopt : process_option os st o = process_option os' st o).
  { destruct o; simpl; rewrite ?Hrp, ?Hsg; reflexivity. }
  rewrite Hopt. destruct (process_option os' st o) as [e1 [s1 | rc]]; [| reflexivity].
  rewrite IH by assumption. reflexivity.
Qed.

(** X7.  The effect of the flags.  When option parsing goes through,
    [debug] and [foreground] count the [-d] and [-f] options, logging is on
    exactly when there is an [-l], and the log file is that of the last
    [-l] ("/dev/null" without any).  [main] detaches from the terminal
    exactly when the command line has neither [-d] nor [-f]; with one of
    them [fork] is not called at all. *)
Theorem flags_decide_logging_and_daemon os argv evs st :
  startup os argv = (evs, Next st) ->
  debug st = Z.of_nat (length (List.filter is_opt_d argv)) /\
  foreground st = Z.of_nat (length (List.filter is_opt_f argv)) /\
  have_logfile st = existsb is_opt_l argv /\
  logfile st = logfile_after "/dev/null" argv /\
  (Daemonize ∈ evs <->
   Forall (fun o => is_opt_d o = false /\ is_opt_f o = false) argv) /\
  (Exists (fun o => is_opt_d o = true \/ is_opt_f o = true) argv ->
   forall f1 f2,
     startup (mk_startup_os (so_heap os) (so_realpath os) (so_sg os) f1 f2) argv =
       (evs, Next st)).
Proof.
  intros Hs. pose proof Hs as Hs'. rewrite startup_unfold in Hs.
  destruct (so_heap os) as [| n] eqn:Hh; [discriminate |].
  destruct (process_options os (initial_state n) argv) as [evs0 [st0 | rc]] eqn:Eo;
    [| discriminate].
  destruct (process_options_config _ _ _ _ _ Eo) as (D & F & Hl & L & Hev).
  simpl in D, F, Hl, L.
  assert (Hzero : forall (f : getopt_result -> bool) (l : list getopt_result),
            Z.of_nat (length (List.filter f l)) = 0 <-> Forall (fun o => f o = false) l).
  { intros f l. induction l as [| o l IH]; simpl.
    - split; [constructor | reflexivity].
    - destruct (f o) eqn:Ef; simpl.
      + split; [lia |]. intros Hall. apply Forall_cons in Hall as [Hc _]. congruence.
      + rewrite IH. split; [intros; constructor; assumption |].
        intros Hall. apply Forall_cons in Hall as [_ Hall]. exact Hall. }
  assert (Hnod : Daemonize ∉ evs0).
  { intros Hin. destruct (Hev _ Hin) as [[p Hp] | (s & p & Hp)]; discriminate. }
  assert (Hboth : (debug st0 =? 0) && (foreground st0 =? 0) = true <->
                  Forall (fun o => is_opt_d o = false /\ is_opt_f o = false) argv).
  { split.
    - intros Hb. apply andb_true_iff in Hb as [Hd Hf].
      apply Z.eqb_eq in Hd. apply Z.eqb_eq in Hf.
      rewrite D in Hd. rewrite F in Hf.
      apply Forall_and. split; [apply Hzero, Hd | apply Hzero, Hf].
    - intros Hall. apply Forall_and in Hall as [Hd Hf].
      apply Hzero in Hd. apply Hzero in Hf.
      apply andb_true_iff. split; apply Z.eqb_eq; [rewrite D | rewrite F];
        assumption. }
  destruct ((debug st0 =? 0) && (foreground st0 =? 0)) eqn:Eb.
  - destruct (daemonize os) as [evs' [[] | rc]] eqn:Ed; [| discriminate].
    injection Hs as <- <-.
    assert (evs' = [Daemonize]) as ->.
    { unfold daemonize in Ed. destruct (so_fork1 os); try discriminate.
      destruct (so_fork2 os); try discriminate. injection Ed as <-. reflexivity. }
    repeat split; try assumption.
    + intros _. apply Hboth. reflexivity.
    + intros _. apply elem_of_app. right. left.
    + intros Hex. exfalso.
      assert (Hall : Forall (fun o => is_opt_d o = false /\ is_opt_f o = false) argv)
        by (apply Hboth; reflexivity).
      apply Exists_exists in Hex as (o & Ho & Hdf).
      rewrite Forall_forall in Hall. destruct (Hall o Ho) as [H1 H2].
      destruct Hdf; congruence.
  - injection Hs as <- <-. repeat split; try assumption.
    + intros Hin. contradiction.
    + intros Hall. apply Hboth in Hall. discriminate.
    + intros _ f1 f2. rewrite startup_unfold. simpl.
      rewrite (process_options_same _ os) by reflexivity.
      rewrite Eo, Eb. reflexivity.
Qed.

Lemma flags_decide_logging_and_daemon_witness :
  debug (mk_state [mk_idle_time None 600 false] [] "/tmp/b" true 1 2 9) = 2 /\
  logfile (mk_state [mk_idle_time None 600 false] [] "/tmp/b" true 1 2 9) = "/tmp/b" /\
  Daemonize ∈ [Daemonize] /\
  startup (mk_startup_os 10 (fun _ => None) (IoctlReturns 0 []) ForkFails ForkParent)
          [opt_d; opt_l "/tmp/a"; opt_l "/tmp/b"; opt_f; opt_d] =
    ([], Next (mk_state [mk_idle_time None 600 false] [] "/tmp/b" true 1 2 9)).
Proof.
  destruct (flags_decide_logging_and_daemon plain_os
              [opt_d; opt_l "/tmp/a"; opt_l "/tmp/b"; opt_f; opt_d] []
              (mk_state [mk_idle_time None 600 false] [] "/tmp/b" true 1 2 9) eq_refl)
    as (D & _ & _ & L & _ & Hfork).
  destruct (flags_decide_logging_and_daemon plain_os [opt_l "/tmp/a"] [Daemonize]
              (mk_state [mk_idle_time None 600 false] [] "/tmp/a" true 0 0 9) eq_refl)
    as (_ & _ & _ & _ & Hd & _).
  split; [exact D | split; [exact L | split]].
  - apply Hd. apply List.Forall_cons; [split; reflexivity | apply List.Forall_nil].
  - apply (Hfork ltac:(apply List.Exists_cons_hd; left; reflexivity)
                 ForkFails ForkParent).
Defined.

(** ** Exit status *)

Lemma disk_name_exit realpath st path evs rc :
  disk_name realpath st path = (evs, Exit rc) ->
  rc = 2 /\ evs = [Eprintf "out of memory"] /\ heap st = O.
Proof.
  rewrite disk_name_unfold.
  destruct path as [| c path']; [discriminate |].
  destruct c as [[] [] [] [] [] [] [] []]; try discriminate.
  destruct (realpath _) as [buf |]; [| discriminate].
  unfold malloc. destruct (heap st); [| discriminate].
  intros [= <- <-]. repeat split.
Qed.

Lemma process_option_exit os st opt evs rc :
  process_option os st opt = (evs, Exit rc) ->
  (rc = 0 /\ ((exists a, opt = opt_t a) \/ opt = opt_h)) \/
  (rc = 1 /\ (opt = opt_colon \/ opt = opt_question)) \/
  (rc = 2 /\ (exists a, opt = opt_a a) /\ Eprintf "out of memory" ∈ evs).
Proof.
  destruct opt as [a | a | a | a | | | | |]; simpl; intros H; try discriminate.
  - injection H as <- <-. left. eauto.
  - right. right. unfold process_option in H.
    destruct (malloc st) as [st1 |] eqn:Em.
    + destruct (disk_name (so_realpath os) st1 a) as [evs1 [[[nm al] st2] | rc1]] eqn:Ed;
        simpl in H; [discriminate |].
      injection H as <- <-. apply disk_name_exit in Ed as (-> & -> & _).
      repeat split; [eauto | left].
    + injection H as <- <-. repeat split; [eauto | left].
  - destruct (it_root st); discriminate.
  - injection H as <- <-. left. eauto.
  - injection H as <- <-. right. left. eauto.
  - injection H as <- <-. right. left. eauto.
Qed.

Lemma process_options_exit os argv : forall st evs rc,
  process_options os st argv = (evs, Exit rc) ->
  exists opt, opt ∈ argv /\
    ((rc = 0 /\ ((exists a, opt = opt_t a) \/ opt = opt_h)) \/
     (rc = 1 /\ (opt = opt_colon \/ opt = opt_question)) \/
     (rc = 2 /\ (exists a, opt = opt_a a) /\ Eprintf "out of memory" ∈ evs)).
Proof.
  induction argv as [| opt rest IH]; intros st evs rc H; [discriminate |].
  rewrite process_options_cons in H.
  destruct (process_option os st opt) as [evs1 [st1 | rc1]] eqn:E1.
  - destruct (process_options os st1 rest) as [evs2 r2] eqn:E2. simpl in H.
    injection H as <- ->. destruct (IH _ _ _ E2) as (o & Ho & Hcase).
    exists o. split; [right; exact Ho |].
    destruct Hcase as [Hc | [Hc | (Hrc & Ha & Hin)]]; auto.
    right. right. repeat split; try assumption. apply elem_of_app. right. exact Hin.
  - injection H as <- <-. exists opt. split; [left |].
    apply process_option_exit in E1. exact E1.
Qed.

(** X8.  The exit status of [main] is 0, 1 or 2, whatever the command line
    and whatever the system answers.  It is 1 only if the very first
    [malloc] fails or the command line has an option [getopt] rejects; once
    the main loop is entered it is 0 (left through [break]) or 2. *)
Theorem exit_status_is_0_1_or_2 os argv ticks evs rc :
  main os argv ticks = (evs, Some rc) ->
  (rc = 0 \/ rc = 1 \/ rc = 2) /\
  (rc = 1 -> so_heap os = O \/ opt_colon ∈ argv \/ opt_question ∈ argv) /\
  (forall evs0 st, startup os argv = (evs0, Next st) -> rc = 0 \/ rc = 2).
Proof.
  unfold main. intros H.
  destruct (startup os argv) as [evs0 [st | rc0]] eqn:Hs.
  - pose proof (poll_loop_result (sleep_time (it_root st)) ticks st) as Hres.
    destruct (poll_loop (sleep_time (it_root st)) st ticks) as [evs' [st' | rc' | st']];
      try discriminate; injection H as <- <-.
    + repeat split; auto. intros [=].
    + destruct (Hres _ _ eq_refl) as (-> & _). repeat split; auto. intros [=].
  - injection H as <- <-. rewrite startup_unfold in Hs.
    assert (Hcases : (rc0 = 0 \/ rc0 = 1 \/ rc0 = 2) /\
                     (rc0 = 1 ->
                      so_heap os = O \/ opt_colon ∈ argv \/ opt_question ∈ argv)).
    { destruct (so_heap os) as [| n]; [injection Hs as <- <-; auto |].
      destruct (process_options os (initial_state n) argv) as [e1 [st1 | rc1]] eqn:Eo.
      - destruct ((debug st1 =? 0) && (foreground st1 =? 0)); [| discriminate].
        unfold daemonize in Hs.
        destruct (so_fork1 os); [| | destruct (so_fork2 os)];
          try discriminate; injection Hs as <- <-;
          (split; [auto | intros [=]]).
      - injection Hs as <- <-.
        apply process_options_exit in Eo as (o & Ho & Hcase).
        destruct Hcase as [(-> & _) | [(-> & Hbad) | (-> & _)]].
        + split; [auto | discriminate].
        + split; [auto |]. intros _. right.
          destruct Hbad as [-> | ->]; [left | right]; exact Ho.
        + split; [auto | discriminate]. }
    destruct Hcases as [H1 H2]. repeat split; try assumption. discriminate.
Qed.

Lemma exit_status_is_0_1_or_2_witness :
  (so_heap plain_os = O \/ opt_colon ∈ [opt_f; opt_question; opt_t "sdb"] \/
   opt_question ∈ [opt_f; opt_question; opt_t "sdb"]) /\
  (2 = 0 \/ 2 = 2).
Proof.
  destruct (exit_status_is_0_1_or_2 plain_os [opt_f; opt_question; opt_t "sdb"] []
              [Eprintf "error: unknown option"] 1 eq_refl) as (_ & H1 & _).
  destruct (exit_status_is_0_1_or_2 plain_os [opt_f] [mk_tick_os false None false]
              [ReadBreakLoop false; FopenStat false; Perror "/proc/diskstats"] 2 eq_refl)
    as (_ & _ & H2).
  split; [exact (H1 eq_refl) |].
  exact (H2 [] (mk_state [mk_idle_time None 600 false] [] "/dev/null" false 1 0 9)
            eq_refl).
Defined.

(** ** Without [-l] nothing is logged *)

Lemma process_line_config st ln evs st' :
  process_line st ln = (evs, Next st') ->
  debug st' = debug st /\ have_logfile st' = have_logfile st /\
  logfile st' = logfile st.
Proof.
  rewrite process_line_unfold. intros H.
  destruct (sl_sscanf ln) as [[[name reads] writes] |]; simpl in H.
  2:{ injection H as <- <-. repeat split. }
  destruct (fst (is_scsi_disk name (os_stat (sl_os ln)))).
  2:{ injection H as <- <-. repeat split. }
  destruct (get_diskstats (ds_root st) name) as [[i ds] |].
  - injection H as <- <-. repeat split.
  - destruct (malloc st) as [st1 |] eqn:Em; [| discriminate].
    injection H as <- <-.
    apply malloc_fields in Em as (_ & _ & E1 & E2 & _ & E3 & _).
    repeat split; assumption.
Qed.

Lemma spindown_disk_no_log dbg name r e :
  e ∈ spindown_disk dbg name r -> is_log_event e = false.
Proof.
  unfold spindown_disk, dprintf. intros H.
  repeat match type of H with
         | context [if ?c then _ else _] => destruct c
         | context [match ?x with OpenFails => _ | _ => _ end] => destruct x
         end;
    simpl in H; elem_cases H; reflexivity.
Qed.

Lemma process_line_no_log st ln e :
  have_logfile st = false ->
  e ∈ fst (process_line st ln) -> is_log_event e = false.
Proof.
  intros Hl. rewrite process_line_unfold. unfold is_scsi_disk, dprintf.
  destruct (sl_sscanf ln) as [[[n reads] writes] |]; simpl;
    [| intros H; elem_cases H].
  destruct (os_stat (sl_os ln)) as [[major minor] |]; simpl;
    [| intros H; elem_cases H; reflexivity].
  destruct ((major =? 8) && (Z.rem minor 16 =? 0)); [| intros H; elem_cases H].
  destruct (get_diskstats (ds_root st) n) as [[i ds] |].
  - simpl. intros H. apply elem_of_app in H as [H | H].
    + destruct (debug st =? 0); elem_cases H; reflexivity.
    + rewrite Hl in H. unfold update_disk in H.
      destruct ((ds_reads ds =? reads) && (ds_writes ds =? writes)).
      * destruct (ds_spun_down ds); simpl in H; [elem_cases H |].
        destruct (negb (ds_idle_time ds =? 0) &&
                  (ds_idle_time ds <=? os_now (sl_os ln) - ds_last_io ds));
          simpl in H; [| elem_cases H].
        eapply spindown_disk_no_log. exact H.
      * destruct (ds_spun_down ds); simpl in H; elem_cases H.
  - destruct (malloc st); simpl; intros H;
      destruct (debug st =? 0); elem_cases H; reflexivity.
Qed.

Lemma read_stats_no_log lines : forall st e,
  have_logfile st = false ->
  e ∈ fst (read_stats st lines) -> is_log_event e = false.
Proof.
  induction lines as [| ln rest IH]; intros st e Hl H; [simpl in H; elem_cases H |].
  rewrite read_stats_cons in H.
  pose proof (process_line_no_log st ln e Hl) as Hline.
  pose proof (process_line_config st ln) as Hcfg.
  destruct (process_line st ln) as [evs [st' | rc]]; simpl in H, Hline; [| auto].
  apply elem_of_app in H as [H | H]; [auto |].
  destruct (Hcfg _ _ eq_refl) as (_ & Hl' & _).
  apply (IH st'); [congruence | exact H].
Qed.

Lemma poll_loop_no_log sleep ticks : forall st e,
  have_logfile st = false ->
  e ∈ fst (poll_loop sleep st ticks) -> is_log_event e = false.
Proof.
  induction ticks as [| tk rest IH]; intros st e Hl H; [simpl in H; elem_cases H |].
  rewrite poll_loop_cons in H.
  destruct (tk_break1 tk); [simpl in H; elem_cases H; reflexivity |].
  destruct (tk_fopen tk) as [lines |]; [| simpl in H; elem_cases H; reflexivity].
  pose proof (read_stats_no_log lines st e Hl) as Hr.
  pose proof (read_stats_inv (fun s => have_logfile s = false)) as Hinv.
  destruct (read_stats st lines) as [evs [st' | rc]] eqn:Erd; simpl in Hr.
  - assert (Hl' : have_logfile st' = false).
    { eapply Hinv; [| exact Erd | exact Hl].
      intros s ln e0 s' Hline Hs. apply process_line_config in Hline as (_ & E & _).
      congruence. }
    destruct (tk_break2 tk); simpl in H; elem_cases H; try reflexivity; auto.
    eapply IH; eassumption.
  - simpl in H. elem_cases H; try reflexivity. auto.
Qed.

Lemma disk_name_no_log realpath st path e :
  e ∈ fst (disk_name realpath st path) -> is_log_event e = false.
Proof.
  rewrite disk_name_unfold. unfold dprintf.
  assert (Hnil : e ∈ @nil event -> is_log_event e = false)
    by (intros H; elem_cases H).
  destruct path as [| c path']; [exact Hnil |].
  destruct c as [[] [] [] [] [] [] [] []]; try exact Hnil.
  destruct (realpath _) as [buf |]; [| intros H; elem_cases H; reflexivity].
  destruct (malloc st) as [st1 |]; simpl; intros H;
    [destruct (debug st1 =? 0) |]; elem_cases H; reflexivity.
Qed.

Lemma process_option_no_log os st opt e :
  e ∈ fst (process_option os st opt) -> is_log_event e = false.
Proof.
  destruct opt as [a | a | a | a | | | | |]; simpl; intros H;
    try (elem_cases H; reflexivity).
  - rewrite app_nil_r in H. eapply spindown_disk_no_log. exact H.
  - unfold process_option in H.
    destruct (malloc st) as [st1 |]; [| simpl in H; elem_cases H; reflexivity].
    pose proof (disk_name_no_log (so_realpath os) st1 a e) as Hd.
    destruct (disk_name (so_realpath os) st1 a) as [evs1 [[[nm al] st2] | rc1]];
      simpl in H, Hd; [rewrite app_nil_r in H |]; auto.
  - destruct (it_root st); simpl in H; elem_cases H.
Qed.

Lemma process_options_no_log os argv : forall st e,
  e ∈ fst (process_options os st argv) -> is_log_event e = false.
Proof.
  induction argv as [| opt rest IH]; intros st e H; [simpl in H; elem_cases H |].
  rewrite process_options_cons in H.
  pose proof (process_option_no_log os st opt e) as Ho.
  destruct (process_option os st opt) as [evs1 [st1 | rc]]; simpl in H, Ho; [| auto].
  apply elem_of_app in H as [H | H]; [auto | eauto].
Qed.

Lemma startup_no_log os argv e :
  e ∈ fst (startup os argv) -> is_log_event e = false.
Proof.
  rewrite startup_unfold.
  destruct (so_heap os) as [| n]; [intros H; simpl in H; elem_cases H; reflexivity |].
  pose proof (process_options_no_log os argv (initial_state n) e) as Ho.
  destruct (process_options os (initial_state n) argv) as [evs1 [st1 | rc]];
    simpl in Ho; [| exact Ho].
  destruct ((debug st1 =? 0) && (foreground st1 =? 0)); [| exact Ho].
  assert (Hd : e ∈ fst (daemonize os) -> is_log_event e = false).
  { unfold daemonize. destruct (so_fork1 os); [| | destruct (so_fork2 os)];
      simpl; intros H; elem_cases H; reflexivity. }
  destruct (daemonize os) as [evs' [[] | rc']]; simpl in *; intros H;
    apply elem_of_app in H as [H | H]; auto.
Qed.

(** X9.  Without an [-l] option nothing is ever written to a log file and
    [sync] is never called: no run of [main], however long and whatever the
    disks do, has such an event. *)
Theorem no_logfile_no_log_line os argv ticks e :
  existsb is_opt_l argv = false ->
  e ∈ fst (main os argv ticks) ->
  is_log_event e = false.
Proof.
  intros Hno He. unfold main in He.
  pose proof (startup_no_log os argv e) as Hstart.
  destruct (startup os argv) as [evs0 [st | rc]] eqn:Hs; simpl in Hstart;
    [| exact (Hstart He)].
  assert (Hl : have_logfile st = false).
  { apply startup_next in Hs as (_ & _ & n & e0 & _ & Ho).
    apply process_options_config in Ho as (_ & _ & Hl & _).
    rewrite Hl, Hno. reflexivity. }
  pose proof (poll_loop_no_log (sleep_time (it_root st)) ticks st e Hl) as Hloop.
  destruct (poll_loop (sleep_time (it_root st)) st ticks) as [evs' []];
    simpl in He, Hloop; apply elem_of_app in He as [He | He]; auto.
Qed.

Lemma no_logfile_no_log_line_witness :
  Forall (fun e => is_log_event e = false)
    (fst (main plain_os [opt_i "30"; opt_f]
            [mk_tick_os false (Some [line_of "sdb" (sdb_at 100 7 9)]) false;
             mk_tick_os false (Some [line_of "sdb" (sdb_at 130 7 9)]) false;
             mk_tick_os false (Some [line_of "sdb" (sdb_at 200 8 9)]) false])).
Proof.
  apply Forall_forall. intros e.
  apply (no_logfile_no_log_line plain_os [opt_i "30"; opt_f]). reflexivity.
Defined.

(** ** [disk_name] *)

Lemma strip_digits_all_digits d : all_digits d = true -> strip_digits d = EmptyString.
Proof.
  induction d as [| c d IH]; [reflexivity |]. simpl.
  intros H. apply andb_true_iff in H as [Hc Hd]. rewrite (IH Hd), Hc. reflexivity.
Qed.

Lemma strip_digits_app s d :
  all_digits d = true -> strip_digits (s +:+ d) = strip_digits s.
Proof.
  intros Hd. induction s as [| c s IH]; simpl.
  - apply strip_digits_all_digits. exact Hd.
  - rewrite IH. reflexivity.
Qed.

Lemma ends_with_digit_cons c s :
  ends_with_digit (String c s) =
    match s with EmptyString => isdigit c | _ => ends_with_digit s end.
Proof. destruct s; reflexivity. Qed.

Lemma strip_digits_id s : ends_with_digit s = false -> strip_digits s = s.
Proof.
  induction s as [| c s IH]; [reflexivity |].
  rewrite ends_with_digit_cons. simpl. destruct s as [| c' s'].
  - simpl. intros ->. reflexivity.
  - intros H. rewrite (IH H). reflexivity.
Qed.

Lemma strip_digits_ends s : ends_with_digit (strip_digits s) = false.
Proof.
  induction s as [| c s IH]; [reflexivity |]. simpl.
  destruct (strip_digits s) as [| c' s'] eqn:E.
  - destruct (isdigit c) eqn:Ec; [reflexivity | simpl; exact Ec].
  - rewrite ends_with_digit_cons. exact IH.
Qed.

Lemma ends_with_digit_app a c r :
  ends_with_digit (a +:+ String c r) = ends_with_digit (String c r).
Proof.
  induction a as [| x a IH]; [reflexivity |].
  change (String x a +:+ String c r) with (String x (a +:+ String c r)).
  rewrite ends_with_digit_cons.
  destruct (a +:+ String c r) eqn:E; [destruct a; discriminate | exact IH].
Qed.

Lemma after_last_slash_plain b : has_slash b = false -> after_last_slash b = None.
Proof.
  induction b as [| c b IH]; [reflexivity |]. simpl.
  intros H. apply orb_false_iff in H as [Hc Hb]. rewrite (IH Hb), Hc. reflexivity.
Qed.

Lemma after_last_slash_app a b :
  has_slash b = false -> after_last_slash (a +:+ String "/" b) = Some b.
Proof.
  intros Hb. induction a as [| x a IH]; simpl.
  - rewrite (after_last_slash_plain b Hb). reflexivity.
  - rewrite IH. reflexivity.
Qed.

(** What follows the last slash has no slash, and ends like the whole. *)
Lemma after_last_slash_Some s : forall t,
  after_last_slash s = Some t ->
  has_slash t = false /\ (ends_with_digit s = false -> ends_with_digit t = false).
Proof.
  induction s as [| c s IH]; intros t H; [discriminate |]. simpl in H.
  destruct (after_last_slash s) as [t' |] eqn:E.
  - injection H as <-. destruct (IH t' eq_refl) as [Hs He]. split; [exact Hs |].
    rewrite ends_with_digit_cons. destruct s; [discriminate | exact He].
  - destruct (Ascii.eqb c "/") eqn:Ec; [| discriminate]. injection H as <-.
    split.
    + clear IH. induction s as [| x s IHs]; [reflexivity |]. simpl in E |- *.
      destruct (after_last_slash s); [discriminate |].
      destruct (Ascii.eqb x "/"); [discriminate |]. simpl. apply IHs. reflexivity.
    + rewrite ends_with_digit_cons. destruct s; [reflexivity | auto].
Qed.

Lemma after_last_slash_None s : after_last_slash s = None -> has_slash s = false.
Proof.
  induction s as [| c s IH]; [reflexivity |]. simpl.
  destruct (after_last_slash s); [discriminate |].
  destruct (Ascii.eqb c "/"); [discriminate |]. intros _. simpl. apply IH. reflexivity.
Qed.

(** X10.  [disk_name].  A name that does not start with a slash is taken
    as it is, without any allocation or message.  Whenever [disk_name]
    returns, either it returns its argument itself (and the heap is as
    before), or a copy that cost one allocation, and then the name has no
    slash and does not end with a digit.  A path that [realpath] resolves to
    a directory, a slash, a base name without slash and a run of digits
    gives the base name: partition numbers are cut off. *)
Theorem disk_name_strips_partition realpath st :
  (forall path,
     (forall r, path <> String "/" r) ->
     disk_name realpath st path = ([], Next (path, false, st))) /\
  (forall path evs name allocd st',
     disk_name realpath st path = (evs, Next (name, allocd, st')) ->
     (allocd = false -> name = path /\ st' = st) /\
     (allocd = true ->
      heap st = S (heap st') /\ has_slash name = false /\
      ends_with_digit name = false)) /\
  (forall path dir base digits h,
     realpath (String "/" path) = Some (dir +:+ String "/" (base +:+ digits)) ->
     has_slash base = false ->
     ends_with_digit base = false ->
     all_digits digits = true ->
     heap st = S h ->
     disk_name realpath st (String "/" path) =
       (dprintf (debug st) (DebugUsing base (String "/" path)),
        Next (base, true, set_heap h st))).
Proof.
  split; [| split].
  - intros path Hplain. rewrite disk_name_unfold.
    destruct path as [| c path']; [reflexivity |].
    destruct c as [[] [] [] [] [] [] [] []]; try reflexivity.
    exfalso. apply (Hplain path'). reflexivity.
  - intros path evs name allocd st'. rewrite disk_name_unfold.
    assert (Hplain : ([], Next (path, false, st)) = (evs, Next (name, allocd, st')) ->
              (allocd = false -> name = path /\ st' = st) /\
              (allocd = true ->
               heap st = S (heap st') /\ has_slash name = false /\
               ends_with_digit name = false)).
    { intros [= <- <- <- <-]. split; [auto | discriminate]. }
    destruct path as [| c path']; [exact Hplain |].
    destruct c as [[] [] [] [] [] [] [] []]; try exact Hplain.
    destruct (realpath _) as [buf |].
    + destruct (malloc st) as [st1 |] eqn:Em; [| discriminate].
      intros [= <- <- <- <-]. split; [discriminate |]. intros _.
      apply malloc_fields in Em as (_ & _ & _ & _ & _ & _ & Eh).
      split; [exact Eh |].
      pose proof (strip_digits_ends buf) as Hend.
      destruct (after_last_slash (strip_digits buf)) as [t |] eqn:Et.
      * destruct (after_last_slash_Some _ _ Et) as [Hs He]. split; auto.
      * split; [apply after_last_slash_None; exact Et | exact Hend].
    + intros [= <- <- <- <-]. split; [auto | discriminate].
  - intros path dir base digits h Hrp Hs He Hd Hh.
    assert (Hsplit : dir +:+ String "/" (base +:+ digits) =
                     (dir +:+ String "/" base) +:+ digits).
    { clear. induction dir as [| x dir IH]; [reflexivity |].
      change (String x (dir +:+ String "/" (base +:+ digits)) =
              String x ((dir +:+ String "/" base) +:+ digits)).
      rewrite IH. reflexivity. }
    assert (Hstrip : strip_digits (dir +:+ String "/" (base +:+ digits)) =
                     dir +:+ String "/" base).
    { rewrite Hsplit, strip_digits_app by exact Hd.
      apply strip_digits_id.
      rewrite ends_with_digit_app, ends_with_digit_cons.
      destruct base; [reflexivity | exact He]. }
    rewrite disk_name_unfold, Hrp. cbv zeta.
    rewrite Hstrip, after_last_slash_app by exact Hs.
    unfold malloc. rewrite Hh. reflexivity.
Qed.

Lemma disk_name_strips_partition_witness :
  disk_name (fun p => if String.eqb p "/dev/disk/by-uuid/1234"
                      then Some "/dev/sdc12" else None)
            (initial_state 3) "/dev/disk/by-uuid/1234" =
    ([], Next ("sdc", true, initial_state 2)) /\
  disk_name (fun _ => None) (initial_state 3) "sdb1" =
    ([], Next ("sdb1", false, initial_state 3)).
Proof.
  destruct (disk_name_strips_partition
              (fun p => if String.eqb p "/dev/disk/by-uuid/1234"
                        then Some "/dev/sdc12" else None)
              (initial_state 3)) as (_ & _ & H3).
  destruct (disk_name_strips_partition (fun _ => None) (initial_state 3))
    as (H1 & _ & _).
  split.
  - apply (H3 "dev/disk/by-uuid/1234" "/dev" "sdc" "12" 2%nat); reflexivity.
  - apply H1. intros r. discriminate.
Defined.

(** ** [-i] sets the idle time of the latest [-a] *)







(** ** The idle time of a record is the one the command line gives *)

Lemma process_line_idle_lookup it0 st ln evs st' :
  process_line st ln = (evs, Next st') ->
  (forall name, find_idle_time it0 name <> None) ->
  it_root st = it0 /\
  Forall (fun ds => find_idle_time it0 (ds_name ds) = Some (ds_idle_time ds))
         (ds_root st) ->
  it_root st' = it0 /\
  Forall (fun ds => find_idle_time it0 (ds_name ds) = Some (ds_idle_time ds))
         (ds_root st').
Proof.
  rewrite process_line_unfold. intros H Hsome [Hit Hall].
  destruct (sl_sscanf ln) as [[[name reads] writes] |]; simpl in H.
  2:{ injection H as <- <-. split; assumption. }
  destruct (fst (is_scsi_disk name (os_stat (sl_os ln)))).
  2:{ injection H as <- <-. split; assumption. }
  destruct (get_diskstats (ds_root st) name) as [[i ds] |] eqn:Eg.
  - injection H as <- <-. split; [exact Hit |]. simpl.
    destruct (get_diskstats_Some _ _ _ _ Eg) as [Hi _].
    apply Forall_insert; [exact Hall |].
    rewrite update_disk_name, update_disk_idle_time.
    rewrite Forall_lookup in Hall. apply (Hall _ _ Hi).
  - destruct (malloc st) as [st1 |] eqn:Em; [| discriminate].
    injection H as <- <-.
    apply malloc_fields in Em as (Eit & Eds & _).
    split; [simpl; congruence |]. simpl. rewrite Eds, Eit, Hit.
    constructor; [| exact Hall].
    specialize (Hsome name).
    destruct (find_idle_time it0 name) as [t |] eqn:Ef; [exact Ef | congruence].
Qed.

(** X12.  Every record the main loop holds carries the idle time that the
    list left by option parsing gives for its name: that of the first entry
    with this name, else the default one.  (The list cannot change while the
    loop runs, and a record keeps the idle time it was made with.) *)
Theorem record_idle_time_is_looked_up os argv evs st ticks evs' r st' :
  startup os argv = (evs, Next st) ->
  poll_loop (sleep_time (it_root st)) st ticks = (evs', r) ->
  r = Running st' \/ r = Broke st' ->
  it_root st' = it_root st /\
  Forall (fun ds => find_idle_time (it_root st) (ds_name ds) = Some (ds_idle_time ds))
         (ds_root st').
Proof.
  intros Hs H Hr.
  apply startup_next in Hs as (Hds & _ & n & evs0 & _ & Ho).
  destruct (process_options_grow os argv _ _ _ _ _ Ho eq_refl)
    as (named & dflt & Hroot & Hdflt & _ & Hnamed).
  assert (Hsome : forall name, find_idle_time (it_root st) name <> None).
  { intros name. rewrite Hroot, find_idle_time_named by assumption. discriminate. }
  apply (poll_loop_inv
           (fun s => it_root s = it_root st /\
                     Forall (fun ds => find_idle_time (it_root st) (ds_name ds) =
                                       Some (ds_idle_time ds)) (ds_root s))
           _ ltac:(intros s ln e s' Hl HQ;
                   exact (process_line_idle_lookup _ _ _ _ _ Hl Hsome HQ))
           _ _ _ _ _ H Hr).
  split; [reflexivity |]. rewrite Hds. constructor.
Qed.

Lemma record_idle_time_is_looked_up_witness :
  Forall (fun ds =>
            find_idle_time [mk_idle_time (Some "sdb") 30 false;
                            mk_idle_time None 600 false] (ds_name ds) =
              Some (ds_idle_time ds))
         [mk_disk_stats "sdb" 30 100 160 100 7 9 true;
          mk_disk_stats "sda" 600 100 0 100 1 2 false].
Proof.
  destruct (record_idle_time_is_looked_up
              plain_os [opt_f; opt_a "sdb"; opt_i "30"] []
              (mk_state [mk_idle_time (Some "sdb") 30 false;
                         mk_idle_time None 600 false]
                        [] "/dev/null" false 1 0 8)
              two_disks_twice
              [ReadBreakLoop false; FopenStat true; FcloseStat;
               ReadBreakLoop false; Sleep 3; ReadBreakLoop false;
               FopenStat true; OpenDev "sdb"; StopUnit "sdb"; CloseDev "sdb";
               FcloseStat; ReadBreakLoop false; Sleep 3]
              (Running (mk_state [mk_idle_time (Some "sdb") 30 false;
                                  mk_idle_time None 600 false]
                                 [mk_disk_stats "sdb" 30 100 160 100 7 9 true;
                                  mk_disk_stats "sda" 600 100 0 100 1 2 false]
                                 "/dev/null" false 1 0 6))
              (mk_state [mk_idle_time (Some "sdb") 30 false;
                         mk_idle_time None 600 false]
                        [mk_disk_stats "sdb" 30 100 160 100 7 9 true;
                         mk_disk_stats "sda" 600 100 0 100 1 2 false]
                        "/dev/null" false 1 0 6))
    as [_ Hall].
  - reflexivity.
  - reflexivity.
  - left. reflexivity.
  - exact Hall.
Defined.

(** ** [phex] *)















(** ** [-h] and option errors *)

(** X14.  Once option parsing reaches [-h], an option without its argument
    or an unknown option, [main] prints one message and ends, with status 0
    for [-h] and 1 for the two errors: the options that follow are not
    looked at, the process does not become a daemon, and the main loop is
    not entered. *)
Theorem usage_and_option_errors_end_the_run os n pre post ticks evs st :
  so_heap os = S n ->
  process_options os (initial_state n) pre = (evs, Next st) ->
  main os (pre ++ opt_h :: post) ticks = (evs ++ [Usage], Some 0) /\
  main os (pre ++ opt_colon :: post) ticks =
    (evs ++ [Eprintf "error: option requires an argument"], Some 1) /\
  main os (pre ++ opt_question :: post) ticks =
    (evs ++ [Eprintf "error: unknown option"], Some 1).
Proof.
  intros Hheap Hpre. unfold main. rewrite !startup_unfold, Hheap.
  rewrite !process_options_app, Hpre, !process_options_cons. simpl.
  split; [| split]; reflexivity.
Qed.

Lemma usage_and_option_errors_end_the_run_witness :
  main plain_os [opt_d; opt_h; opt_a "sdc"] two_disks_twice = ([Usage], Some 0) /\
  main plain_os [opt_question; opt_t "sdb"] [] =
    ([Eprintf "error: unknown option"], Some 1).
Proof.
  split.
  - destruct (usage_and_option_errors_end_the_run
                plain_os 9 [opt_d] [opt_a "sdc"] two_disks_twice []
                (set_debug 1 (initial_state 9)) eq_refl eq_refl) as (H & _ & _).
    exact H.
  - destruct (usage_and_option_errors_end_the_run
                plain_os 9 [] [opt_t "sdb"] [] [] (initial_state 9) eq_refl eq_refl)
      as (_ & _ & H).
    exact H.
Defined.
